(** * import_tulip_table: a shallow embedding of [src/import_tulip.py]

    The module has one entry point, [import_tulip_table], which resolves a
    table of a Tulip instance, fetches its records page by page and turns
    them into a data frame with converted timestamps and normalised column
    names.

    The file first models what the source builds on: Python strings and
    numbers, dictionaries, JSON documents, HTTP exchanges and pandas data
    frames.  The embedding of the source follows, stage by stage and with
    the source lines next to each definition, then a stand-in for the
    libraries used in worked examples, and last the properties proved. *)

From Stdlib Require Import ZArith NArith List Bool String Ascii Lia DecimalString.
Import ListNotations.

Set Implicit Arguments.

(** ** Python strings

    A Python [str] is a sequence of Unicode code points. *)

Definition pystr := list N.

(** [u "text"] is the [str] literal with the given (ASCII) text. *)
Definition u (s : string) : pystr := map N_of_ascii (list_ascii_of_string s).

Fixpoint str_eqb (a b : pystr) : bool :=
  match a, b with
  | [], [] => true
  | x :: a', y :: b' => N.eqb x y && str_eqb a' b'
  | _, _ => false
  end.

(** *** Case mapping

    [str.title], [str.upper] and [str.lower] are driven by the Unicode
    character database: whether a code point is cased, and its full lower,
    title and upper case mappings (a mapping may produce several code
    points).  The tables below cover Basic Latin (U+0000..U+007F), LATIN
    CAPITAL LETTER I WITH DOT ABOVE (U+0130) and COMBINING DOT ABOVE
    (U+0307).  Every other code point is passed through unchanged and taken
    as uncased; statements that quantify over all strings are therefore
    restricted to Basic Latin. *)

Module Unicode.

Definition is_ascii (c : N) : bool := (c <? 128)%N.

Definition ascii_upper (c : N) : bool := ((65 <=? c) && (c <=? 90))%N.
Definition ascii_lower (c : N) : bool := ((97 <=? c) && (c <=? 122))%N.

Definition dotted_I : N := 304.      (* U+0130 *)
Definition dot_above : N := 775.     (* U+0307 *)

(** [_PyUnicode_IsCased] *)
Definition is_cased (c : N) : bool :=
  ascii_upper c || ascii_lower c || (c =? dotted_I)%N.

(** [_PyUnicode_ToLowerFull] *)
Definition to_lower_full (c : N) : list N :=
  if ascii_upper c then [(c + 32)%N]
  else if (c =? dotted_I)%N then [105%N; dot_above]
  else [c].

(** [_PyUnicode_ToTitleFull] *)
Definition to_title_full (c : N) : list N :=
  if ascii_lower c then [(c - 32)%N] else [c].

(** [_PyUnicode_ToUpperFull] *)
Definition to_upper_full (c : N) : list N :=
  if ascii_lower c then [(c - 32)%N] else [c].

End Unicode.

(** [str.title()], as CPython's [do_title]: a character that follows a
    cased character is lower-cased, any other character is title-cased. *)
Fixpoint do_title (previous_is_cased : bool) (s : pystr) : pystr :=
  match s with
  | [] => []
  | c :: s' =>
      (if previous_is_cased then Unicode.to_lower_full c
       else Unicode.to_title_full c)
      ++ do_title (Unicode.is_cased c) s'
  end.

Definition title (s : pystr) : pystr := do_title false s.

(** [str.upper()] *)
Definition upper (s : pystr) : pystr := flat_map Unicode.to_upper_full s.

(** [s.replace(old, new)] for one-character [old] and [new]. *)
Definition replace (old new : N) (s : pystr) : pystr :=
  map (fun c => if (c =? old)%N then new else c) s.

Definition space : N := 32.
Definition underscore : N := 95.

(** ** Column-name normalisation (source lines 139-140)

<<
    df.columns = [col.upper() if col == "ID" else col.title() for col in df.columns]
    df.columns = df.columns.str.replace(" ", "_")
>> *)

Definition standardize_name (col : pystr) : pystr :=
  replace space underscore
    (if str_eqb col (u "ID") then upper col else title col).

Definition standardize_names (cols : list pystr) : list pystr :=
  map (replace space underscore)
      (map (fun col => if str_eqb col (u "ID") then upper col else title col)
           cols).

(** ** Python numbers

    [max_limit / 1000] is Python's true division of two [int]s: the result
    is the binary64 number nearest to the exact quotient (ties to even), and
    [OverflowError] is raised when that is beyond the largest double.  A
    later comparison of an [int] with the [float] is exact. *)

Module Float.

(** The finite double [mant * 2^expo]. *)
Record t := mk { mant : Z; expo : Z }.

Local Open Scope Z_scope.

(** [floor (log2 (n / d))] for positive [n] and [d]. *)
Definition log2_quot (n d : Z) : Z :=
  let k := Z.log2 n - Z.log2 d in
  let reaches := if 0 <=? k then d * 2 ^ k <=? n else d <=? n * 2 ^ (- k) in
  if reaches then k else k - 1.

(** The double nearest to [n / d], for positive [n] and [d]. *)
Definition nearest (n d : Z) : t :=
  let s := Z.max (log2_quot n d - 52) (-1074) in
  let num := if 0 <=? s then n else n * 2 ^ (- s) in
  let den := if 0 <=? s then d * 2 ^ s else d in
  let q := num / den in
  let r := num mod den in
  let q' := if (den <? 2 * r) || ((den =? 2 * r) && Z.odd q) then q + 1 else q in
  if q' =? 2 ^ 53 then mk (2 ^ 52) (s + 1) else mk q' s.

Definition overflows (x : t) : bool :=
  (0 <=? expo x) && (2 ^ 1024 <=? mant x * 2 ^ expo x).

(** [a / b] for [int]s [a] and [b] with [b > 0]; [None] stands for
    [OverflowError]. *)
Definition true_divide (a b : Z) : option t :=
  if a =? 0 then Some (mk 0 0)
  else
    let x := nearest (Z.abs a) b in
    if overflows x then None
    else Some (mk (Z.sgn a * mant x) (expo x)).

(** [i >= x] for an [int] [i] and a [float] [x]. *)
Definition int_ge (i : Z) (x : t) : bool :=
  if 0 <=? expo x then mant x * 2 ^ expo x <=? i
  else mant x <=? i * 2 ^ (- expo x).

End Float.

(** [str(i)] for an [int]. *)
Definition str_of_int (i : Z) : pystr :=
  u (DecimalString.NilZero.string_of_int (Z.to_int i)).

(** *** [base64.b64encode(authorization.encode()).decode()] *)

Module Codec.

Local Open Scope N_scope.

(** [str.encode()]: UTF-8; [None] stands for [UnicodeEncodeError]
    (a surrogate, or a number that is not a code point). *)
Definition utf8_char (c : N) : option (list N) :=
  if c <? 128 then Some [c]
  else if c <? 2048 then Some [192 + c / 64; 128 + c mod 64]
  else if (55296 <=? c) && (c <=? 57343) then None
  else if c <? 65536 then
    Some [224 + c / 4096; 128 + (c / 64) mod 64; 128 + c mod 64]
  else if c <? 1114112 then
    Some [240 + c / 262144; 128 + (c / 4096) mod 64;
          128 + (c / 64) mod 64; 128 + c mod 64]
  else None.

Fixpoint encode (s : pystr) : option (list N) :=
  match s with
  | [] => Some []
  | c :: s' =>
      match utf8_char c, encode s' with
      | Some b, Some bs => Some (b ++ bs)
      | _, _ => None
      end
  end.

(** The base64 alphabet: [A-Z], [a-z], [0-9], [+], [/]. *)
Definition digit (v : N) : N :=
  if v <? 26 then 65 + v
  else if v <? 52 then 97 + (v - 26)
  else if v <? 62 then 48 + (v - 52)
  else if v =? 62 then 43 else 47.

Definition pad : N := 61.

Fixpoint b64encode (bytes : list N) : pystr :=
  match bytes with
  | [] => []
  | [a] => [digit (a / 4); digit ((a mod 4) * 16); pad; pad]
  | [a; b] =>
      [digit (a / 4); digit ((a mod 4) * 16 + b / 16);
       digit ((b mod 16) * 4); pad]
  | a :: b :: c :: rest =>
      digit (a / 4) :: digit ((a mod 4) * 16 + b / 16)
      :: digit ((b mod 16) * 4 + c / 64) :: digit (c mod 64)
      :: b64encode rest
  end.

End Codec.

(** ** Python dictionaries

    A [dict] with [str] keys keeps its keys in insertion order; it is an
    association list whose keys are pairwise distinct. *)

Section Dict.

Variable V : Type.

Definition dict := list (pystr * V).

(** [d.get(k)] *)
Fixpoint dict_get (k : pystr) (d : dict) : option V :=
  match d with
  | [] => None
  | (k', v) :: d' => if str_eqb k' k then Some v else dict_get k d'
  end.

(** [d[k] = v] *)
Fixpoint dict_set (k : pystr) (v : V) (d : dict) : dict :=
  match d with
  | [] => [(k, v)]
  | (k', v') :: d' =>
      if str_eqb k' k then (k', v) :: d' else (k', v') :: dict_set k v d'
  end.

Definition keys (d : dict) : list pystr := map fst d.

End Dict.

(** ** JSON documents, table metadata and records *)

Module Json.

#[warnings="-register-all"] Inductive t :=
| Null
| Bool (b : bool)
| Int (i : Z)
| Number (x : Float.t)
| Str (s : pystr)
| Array (items : list t)
| Object (fields : list (pystr * t)).

End Json.

(** One record of a table, as the records endpoint returns it. *)
Definition record := dict Json.t.

(** An entry of a table's ["columns"]: [{"name": ..., "label": ...}]. *)
Module ColumnSpec.
Record t := mk { name : pystr; label : pystr }.
End ColumnSpec.

(** An entry of the table listing: [{"id": ..., "label": ..., "columns": [...]}]. *)
Module TableInfo.
Record t := mk { id : pystr; label : pystr; columns : list ColumnSpec.t }.
End TableInfo.

(** ** HTTP

    [requests.get] sends a request and blocks until the response is there.
    The remote side is a script: the response to the table listing, and the
    responses to the successive record requests, consumed one per request.
    Every request sent is appended to the log. *)

Record Request := mkRequest {
  url : pystr;
  headers : dict pystr;
  params : dict Z
}.

Record Response (A : Type) := mkResponse {
  status_code : Z;
  json : A
}.

Record World := mkWorld {
  listing : Response (list TableInfo.t);
  pages : nat -> Response (list record);
  requests : list Request
}.

Definition get_tables (req : Request) (w : World)
  : Response (list TableInfo.t) * World :=
  (listing w, mkWorld (listing w) (pages w) (requests w ++ [req])).

Definition get_records (req : Request) (w : World)
  : Response (list record) * World :=
  (pages w 0%nat,
   mkWorld (listing w) (fun i => pages w (S i)) (requests w ++ [req])).

(** ** Data frames

    A column is datetime-like or it is not.  One that is not, [Objects],
    holds its values written as JSON values ([None] for a missing value),
    whatever dtype pandas gave it ([object], [int64], [float64], [bool]).
    A datetime column holds numbers of nanoseconds since the epoch ([None]
    for NaT) and the column-wide time zone, if any: without a zone the
    numbers are the clock readings themselves, with a zone they are the
    instants, counted in UTC.  A frame has a row index, of which only the
    length matters here, and labelled columns; labels may repeat. *)

Inductive Column :=
| Objects (cells : list (option Json.t))
| Datetimes (tz : option pystr) (instants : list (option Z)).

Record DataFrame := mkFrame {
  n_rows : nat;
  data : list (pystr * Column)
}.

(** [df.columns] *)
Definition columns (df : DataFrame) : list pystr := map fst (data df).

(** [df.empty]: some axis has length 0. *)
Definition empty (df : DataFrame) : bool :=
  (n_rows df =? 0)%nat || (List.length (data df) =? 0)%nat.

(** ** Library functions taken as given

    The source calls into [urllib.parse], the built-in [int] and pandas'
    date parser, and the frame constructor of pandas infers a dtype for each
    column and converts the values to it (a column of integers with a
    missing value becomes one of floats).  Their code is not part of the
    module; the embedding takes them as an interface.  [None] stands for an
    exception raised by the call. *)

Record Library := mkLibrary {
  (** [urllib.parse.urlparse(url).query] *)
  urlparse_query : pystr -> option pystr;
  (** [urllib.parse.parse_qs(qs)] *)
  parse_qs : pystr -> dict (list pystr);
  (** [int(s)] for a [str] *)
  int_of_str : pystr -> option Z;
  (** [pd.to_datetime(column)] *)
  to_datetime : Column -> option Column;
  (** the values of one column of [pd.DataFrame(records)], from the values
      the records have under its key *)
  infer_dtype : list (option Json.t) -> list (option Json.t)
}.

Definition add_key (seen : list pystr) (k : pystr) : list pystr :=
  if existsb (str_eqb k) seen then seen else seen ++ [k].

(** The union of the records' keys, in order of first appearance. *)
Definition all_keys (records : list record) : list pystr :=
  fold_left (fun seen r => fold_left add_key (keys r) seen) records [].

(** [pd.DataFrame(records)] for a list of dicts: one row per record, one
    column per key, in order of first appearance; the values of a column
    are those of the records under its key, [None] where a record lacks the
    key, as dtype inference leaves them. *)
Definition DataFrame_of_records (lib : Library) (records : list record)
  : DataFrame :=
  mkFrame (List.length records)
    (map (fun k => (k, Objects (infer_dtype lib (map (dict_get k) records))))
         (all_keys records)).

(** [pd.DataFrame(columns=names)] *)
Definition DataFrame_of_columns (names : list pystr) : DataFrame :=
  mkFrame 0 (map (fun k => (k, Objects [])) names).

(** [df[key] = column]: every column labelled [key] is replaced; if there is
    none, the column is appended. *)
Definition setitem (key : pystr) (col : Column) (df : DataFrame) : DataFrame :=
  if existsb (str_eqb key) (columns df)
  then mkFrame (n_rows df)
         (map (fun kc => if str_eqb (fst kc) key then (fst kc, col) else kc)
              (data df))
  else mkFrame (n_rows df) (data df ++ [(key, col)]).

(** [df[key] = None] *)
Definition setitem_None (key : pystr) (df : DataFrame) : DataFrame :=
  setitem key (Objects (repeat (Some Json.Null) (n_rows df))) df.

(** [df[key]] where a column is needed: [None] stands for the [KeyError] of
    a missing label, and for a repeated label, where the result is a frame
    that [pd.to_datetime] rejects. *)
Definition getitem (key : pystr) (df : DataFrame) : option Column :=
  match filter (fun kc => str_eqb (fst kc) key) (data df) with
  | [(_, col)] => Some col
  | _ => None
  end.

(** [mapping.get(c, c)]: the label a renaming gives to the label [c]. *)
Definition renamed (mapping : dict pystr) (c : pystr) : pystr :=
  match dict_get c mapping with
  | Some new => new
  | None => c
  end.

(** [df.rename(columns=mapping, errors='ignore')] *)
Definition rename (mapping : dict pystr) (df : DataFrame) : DataFrame :=
  mkFrame (n_rows df)
    (map (fun kc => (renamed mapping (fst kc), snd kc)) (data df)).

(** [df.columns = names] followed through a function on labels. *)
Definition relabel (f : pystr -> pystr) (df : DataFrame) : DataFrame :=
  mkFrame (n_rows df) (map (fun kc => (f (fst kc), snd kc)) (data df)).

(** The [.dt] accessor and its time-zone operations.  [None] stands for the
    exception pandas raises: [.dt] on a column that is not datetime-like,
    [tz_localize] on a column that has a zone, [tz_convert] on one that has
    none.  Localising to UTC and converting between zones keep the instants
    and change the zone the column is shown in. *)
Definition dt_tz (col : Column) : option (option pystr) :=
  match col with
  | Datetimes tz _ => Some tz
  | Objects _ => None
  end.

Definition tz_localize_UTC (col : Column) : option Column :=
  match col with
  | Datetimes None instants => Some (Datetimes (Some (u "UTC")) instants)
  | _ => None
  end.

Definition tz_convert (zone : pystr) (col : Column) : option Column :=
  match col with
  | Datetimes (Some _) instants => Some (Datetimes (Some zone) instants)
  | _ => None
  end.

(** ** Outcomes of a call *)

Inductive exn :=
| ValueError (msg : pystr)        (* raised by the module itself *)
| AttributeError (msg : pystr)    (* attribute access on [None] *)
| UnicodeEncodeError              (* [authorization.encode()] *)
| UrlError                        (* raised inside [urllib.parse.urlparse] *)
| IntError                        (* raised by [int(...)] *)
| IndexError                      (* [[...][0]] on an empty list *)
| OverflowError.                  (* [max_limit / 1000] *)

Inductive value :=
| Text (s : pystr)
| Frame (df : DataFrame).

Inductive outcome :=
| Raise (e : exn)
| Return (v : value).

(** What a call leaves behind: how it ended, the world with its request
    log, and the lines printed. *)
Record Run := mkRun {
  result : outcome;
  world : World;
  stdout : list pystr
}.

(** A number that is an [int] or a [float], for [max_iterations]. *)
Inductive number :=
| PyInt (i : Z)
| PyFloat (x : Float.t).

(** [i >= x] for an [int] [i]. *)
Definition int_ge (i : Z) (x : number) : bool :=
  match x with
  | PyInt j => (j <=? i)%Z
  | PyFloat f => Float.int_ge i f
  end.

(** [f"{x}"] for an argument that is a [str] or [None]. *)
Definition fstr (x : option pystr) : pystr :=
  match x with
  | Some s => s
  | None => u "None"
  end.

(** [x is None] *)
Definition is_None (A : Type) (x : option A) : bool :=
  match x with
  | None => true
  | Some _ => false
  end.

(** ** The stages of [import_tulip_table] *)

Local Open Scope Z_scope.

(** Line 28. *)
Definition exactly_one_message : pystr :=
  u "Exactly one of 'table_name' or 'table_id' must be provided.".

(** Line 31: [f"Basic {base64.b64encode(authorization.encode()).decode()}"]. *)
Definition encode_token (authorization : option pystr) : exn + pystr :=
  match authorization with
  | None => inl (AttributeError (u "'NoneType' object has no attribute 'encode'"))
  | Some token =>
      match Codec.encode token with
      | None => inl UnicodeEncodeError
      | Some bytes => inr (u "Basic " ++ Codec.b64encode bytes)
      end
  end.

(** Lines 34-38. *)
Definition make_headers (encoded_token : pystr) : dict pystr :=
  [ (u "accept", u "*/*");
    (u "accept-language",
     u "fr-CA,fr;q=0.9,fr-FR;q=0.8,en-CA;q=0.7,en;q=0.6,en-US;q=0.5,en-GB;q=0.4");
    (u "authorization", encoded_token) ].

(** Line 41. *)
Definition tables_url (instance : option pystr) : pystr :=
  u "https://" ++ fstr instance
  ++ u "/api/v3/w/1/tables?includeDeleted=false&includeHidden=true".

(** Lines 54-59: the value to match, [table_id] when it is given and
    [table_name] otherwise. *)
Definition table_match (table_id table_name : option pystr) : option pystr :=
  if negb (is_None table_id) then table_id else table_name.

(** Lines 54-62: [record.get(table_identifier) == table_match], on the
    ["id"] when [table_id] is given and on the ["label"] otherwise. *)
Definition matches (table_id table_name : option pystr) (r : TableInfo.t) : bool :=
  let field := if negb (is_None table_id) then TableInfo.id r else TableInfo.label r in
  match table_match table_id table_name with
  | Some m => str_eqb field m
  | None => false
  end.

(** Line 48. *)
Definition invalid_credentials : pystr :=
  u "Invalid Credentials, please update and try again".

(** Line 66. *)
Definition not_found (table_match : option pystr) : pystr :=
  u "Table " ++ fstr table_match
  ++ u " not found, please check the table name or ID in Tulip and type it as is".

(** Line 74. *)
Definition records_url (instance : option pystr) (table_id query : pystr) : pystr :=
  u "https://" ++ fstr instance ++ u "/api/v3/w/1/tables/" ++ table_id
  ++ u "/records" ++ query.

(** Lines 77-78: [int(parsed_query.get("limit", [0])[0])]. *)
Definition max_limit_of (lib : Library) (url : pystr) : exn + Z :=
  match urlparse_query lib url with
  | None => inl UrlError
  | Some qs =>
      match dict_get (u "limit") (parse_qs lib qs) with
      | None => inr 0
      | Some [] => inl IndexError
      | Some (first :: _) =>
          match int_of_str lib first with
          | None => inl IntError
          | Some i => inr i
          end
      end
  end.

(** Line 81; [None] stands for [OverflowError]. *)
Definition max_iterations_of (max_limit : Z) : option number :=
  if negb (max_limit =? 0)
  then option_map PyFloat (Float.true_divide max_limit 1000)
  else Some (PyInt 99999999).

(** Line 85. *)
Definition default_limit_of (max_limit : Z) : Z :=
  if (0 <? max_limit) && (max_limit <? 1000) then max_limit else 1000.

(** Line 91. *)
Definition page_params (default_limit offset : Z) : dict Z :=
  [ (u "limit", default_limit); (u "offset", offset) ].

(** Line 107: [print("Error:", response.status_code)]. *)
Definition error_line (status : Z) : pystr := u "Error: " ++ str_of_int status.

(** Lines 90-108, the [while True] loop.  [fuel] bounds the number of
    passes; [None] means the bound was reached before the loop ended.  The
    result is [all_records], the world and the lines printed. *)
Fixpoint fetch_loop (fuel : nat) (url : pystr) (headers : dict pystr)
    (default_limit : Z) (max_iterations : number)
    (iteration offset : Z) (all_records : list record) (w : World)
  : option (list record * World * list pystr) :=
  match fuel with
  | O => None
  | S fuel' =>
      let params := page_params default_limit offset in
      let (response, w) := get_records (mkRequest url headers params) w in
      if status_code response =? 200 then
        let iteration := iteration + 1 in
        let table_data := json response in
        let all_records := all_records ++ table_data in
        if (Z.of_nat (List.length table_data) <? default_limit)
           || int_ge iteration max_iterations
        then Some (all_records, w, [])
        else fetch_loop fuel' url headers default_limit max_iterations
               iteration (offset + default_limit) all_records w
      else Some (all_records, w, [error_line (status_code response)])
  end.

(** Lines 81-108: the pagination set-up and the loop. *)
Definition fetch_records (fuel : nat) (url : pystr) (headers : dict pystr)
    (max_limit : Z) (w : World)
  : option (exn + list record * World * list pystr) :=
  match max_iterations_of max_limit with
  | None => Some (inl OverflowError)
  | Some max_iterations =>
      let iteration := 0 in
      let default_limit := default_limit_of max_limit in
      let offset := 0 in
      let all_records := [] in
      option_map inr
        (fetch_loop fuel url headers default_limit max_iterations
           iteration offset all_records w)
  end.

Definition createdAt : pystr := u "_createdAt".
Definition updatedAt : pystr := u "_updatedAt".
Definition Sequencenumber : pystr := u "_Sequencenumber".

(** Lines 111-119. *)
Definition build_frame (lib : Library) (table_columns : list ColumnSpec.t)
    (all_records : list record) : DataFrame :=
  let df := DataFrame_of_records lib all_records in
  if empty df then
    let column_names := map ColumnSpec.name table_columns in
    let df := DataFrame_of_columns column_names in
    let df := setitem_None createdAt df in
    let df := setitem_None updatedAt df in
    setitem_None Sequencenumber df
  else df.

Definition Montreal : pystr := u "America/Montreal".

(** Line 130. *)
Definition missing_line (utc_col : pystr) : pystr :=
  u "Column " ++ utc_col ++ u " does not Exist".

(** Lines 123-130, one pass of the loop over the two timestamp columns.
    Whatever is raised inside [try] ends the pass with the frame as it is at
    that point and one printed line. *)
Definition convert_timezone (lib : Library) (utc_col : pystr)
    (st : DataFrame * list pystr) : DataFrame * list pystr :=
  let (df, out) := st in
  let except (df : DataFrame) := (df, out ++ [missing_line utc_col]) in
  match getitem utc_col df with
  | None => except df
  | Some col =>
      match to_datetime lib col with
      | None => except df
      | Some parsed =>
          let df := setitem utc_col parsed df in
          match dt_tz parsed with
          | None => except df
          | Some None =>
              match tz_localize_UTC parsed with
              | None => except df
              | Some localized =>
                  match tz_convert Montreal localized with
                  | None => except df
                  | Some converted => (setitem utc_col converted df, out)
                  end
              end
          | Some (Some _) =>
              match tz_convert Montreal parsed with
              | None => except df
              | Some converted => (setitem utc_col converted df, out)
              end
          end
      end
  end.

(** Lines 122-130. *)
Definition convert_timezones (lib : Library) (df : DataFrame)
  : DataFrame * list pystr :=
  fold_left (fun st utc_col => convert_timezone lib utc_col st)
    [createdAt; updatedAt] (df, []).

(** Line 134: [{entry['name']: entry['label'] for entry in table_columns}]. *)
Definition column_mapping (table_columns : list ColumnSpec.t) : dict pystr :=
  fold_left (fun d entry => dict_set (ColumnSpec.name entry) (ColumnSpec.label entry) d)
    table_columns [].

(** Line 136. *)
Definition timestamp_labels : dict pystr :=
  [ (createdAt, u "Created_At"); (updatedAt, u "Updated_At") ].

(** Lines 133-136. *)
Definition rename_stage (rename_columns : bool) (table_columns : list ColumnSpec.t)
    (df : DataFrame) : DataFrame :=
  if rename_columns then
    let df := rename (column_mapping table_columns) df in
    rename timestamp_labels df
  else df.

(** Lines 139-140. *)
Definition standardize (df : DataFrame) : DataFrame :=
  relabel standardize_name df.

(** Lines 111-142: from the fetched records to the frame returned. *)
Definition to_frame (lib : Library) (rename_columns : bool)
    (table_columns : list ColumnSpec.t) (all_records : list record)
  : DataFrame * list pystr :=
  let df := build_frame lib table_columns all_records in
  let (df, out) := convert_timezones lib df in
  let df := rename_stage rename_columns table_columns df in
  (standardize df, out).

(** Lines 27-71: the argument check, the credential, the table listing
    and the search for the table.  The stage either ends the call or hands
    over the headers, the table found and the world. *)
Definition resolve_table (w : World)
    (instance authorization table_id table_name : option pystr)
  : Run + dict pystr * TableInfo.t * World :=
  if (is_None table_name && is_None table_id)
     || (negb (is_None table_name) && negb (is_None table_id))
  then inl (mkRun (Raise (ValueError exactly_one_message)) w [])
  else
    match encode_token authorization with
    | inl e => inl (mkRun (Raise e) w [])
    | inr encoded_token =>
        let headers := make_headers encoded_token in
        let (response, w) :=
          get_tables (mkRequest (tables_url instance) headers []) w in
        if negb (status_code response =? 200)
        then inl (mkRun (Return (Text invalid_credentials)) w [])
        else
          let tables_data := json response in
          match find (matches table_id table_name) tables_data with
          | None =>
              inl (mkRun (Return (Text (not_found (table_match table_id table_name)))) w [])
          | Some table_info => inr (headers, table_info, w)
          end
    end.

(** ** [import_tulip_table]

    [None] means that [fuel] passes did not end the pagination loop. *)

Definition import_tulip_table (lib : Library) (fuel : nat) (w : World)
    (instance authorization table_id table_name : option pystr)
    (rename_columns : bool) (query : pystr) : option Run :=
  match resolve_table w instance authorization table_id table_name with
  | inl run => Some run
  | inr (headers, table_info, w) =>
      let table_columns := TableInfo.columns table_info in
      let url := records_url instance (TableInfo.id table_info) query in
      match max_limit_of lib url with
      | inl e => Some (mkRun (Raise e) w [])
      | inr max_limit =>
          match fetch_records fuel url headers max_limit w with
          | None => None
          | Some (inl e) => Some (mkRun (Raise e) w [])
          | Some (inr (all_records, w, printed)) =>
              let (df, printed') :=
                to_frame lib rename_columns table_columns all_records in
              Some (mkRun (Return (Frame df)) w (printed ++ printed'))
          end
      end
  end.

(** ** Notions used in the statements *)

(** The world after [n] further record requests [reqs]. *)
Definition after_requests (reqs : list Request) (n : nat) (w : World) : World :=
  mkWorld (listing w) (fun i => pages w (n + i)%nat) (requests w ++ reqs).

(** The record requests of the first [n] passes of the loop. *)
Definition page_requests (url : pystr) (headers : dict pystr)
    (default_limit offset : Z) (n : nat) : list Request :=
  map (fun i => mkRequest url headers
                  (page_params default_limit (offset + Z.of_nat i * default_limit)))
      (seq 0 n).

(** The records of the first [n] pages the world holds. *)
Definition first_pages (n : nat) (w : World) : list record :=
  List.concat (map (fun i => json (pages w i)) (seq 0 n)).

(** A page on which the loop goes on: success, no fewer records than asked
    for, and the cap not reached by the pass that reads it. *)
Definition goes_on (default_limit : Z) (max_iterations : number)
    (iteration : Z) (response : Response (list record)) : Prop :=
  status_code response = 200
  /\ default_limit <= Z.of_nat (List.length (json response))
  /\ int_ge iteration max_iterations = false.

(** What a timestamp of a column reads on the clock.  A column without a
    zone stores the reading itself; a column with a zone stores the instant,
    and the reading is off by the zone's offset from UTC at that instant,
    which the time-zone database [utcoffset] gives (daylight saving time
    is part of it). *)
Definition wall_clock (utcoffset : pystr -> Z -> Z) (tz : option pystr)
    (instant : Z) : Z :=
  match tz with
  | None => instant
  | Some zone => instant + utcoffset zone instant
  end.

(** What the values of a datetime column read on the clock. *)
Definition clock_readings (utcoffset : pystr -> Z -> Z) (col : Column)
  : option (list (option Z)) :=
  match col with
  | Datetimes tz instants =>
      Some (map (option_map (wall_clock utcoffset tz)) instants)
  | Objects _ => None
  end.

(** Whether a pass of the loop of lines 123-130 finds a column it can
    convert: the label is there, once, and [pd.to_datetime] makes a
    datetime column of it. *)
Definition convertible (lib : Library) (utc_col : pystr) (df : DataFrame) : bool :=
  match getitem utc_col df with
  | Some col =>
      match to_datetime lib col with
      | Some (Datetimes _ _) => true
      | _ => false
      end
  | None => false
  end.

(** [x] is a double next to the quotient [n / d] of positive integers: its
    mantissa has 53 bits and it is no more than half a unit in the last
    place away from the quotient. *)
Definition rounds_to (n d : Z) (x : Float.t) : bool :=
  let m := Float.mant x in
  let e := Float.expo x in
  (2 ^ 52 <=? m) && (m <? 2 ^ 53)
  && (if 0 <=? e
      then 2 * Z.abs (m * 2 ^ e * d - n) <=? d * 2 ^ e
      else 2 * Z.abs (m * d - n * 2 ^ (- e)) <=? d).

(** A name made of Basic Latin characters only. *)
Definition ascii_name (s : pystr) : bool := forallb Unicode.is_ascii s.

(** The label a column name has in the metadata: the label of the last
    entry with that name, and the name itself if there is none. *)
Definition display_label (table_columns : list ColumnSpec.t) (c : pystr) : pystr :=
  match find (fun e => str_eqb (ColumnSpec.name e) c) (rev table_columns) with
  | Some e => ColumnSpec.label e
  | None => c
  end.

(** The label under which the column named [c] of the frame built from
    the records is returned: renamed twice when the option is set (lines
    134-136), then normalised (lines 139-140). *)
Definition returned_label (rename_columns : bool)
    (table_columns : list ColumnSpec.t) (c : pystr) : pystr :=
  standardize_name
    (if rename_columns
     then renamed timestamp_labels (renamed (column_mapping table_columns) c)
     else c).

(** ** A stand-in for the libraries, for the worked examples

    Enough of [urllib.parse], [int] and [pd.to_datetime] to run the module
    on plain inputs: query strings without escapes, decimal integers,
    timestamps given as integers (nanoseconds since the epoch).  On other
    inputs the stand-in raises.  The records of the examples have every
    key in every record, with strings and small integers as values, which
    dtype inference keeps as they are. *)

Module Sample.

Local Open Scope N_scope.

(** [s.partition(c)]: the text before the first [c], and the text after it
    if there is one. *)
Fixpoint partition (c : N) (s : pystr) : pystr * option pystr :=
  match s with
  | [] => ([], None)
  | x :: s' =>
      if x =? c then ([], Some s')
      else let (before, rest) := partition c s' in (x :: before, rest)
  end.

(** [s.split(c)] *)
Fixpoint split (c : N) (s : pystr) : list pystr :=
  match s with
  | [] => [[]]
  | x :: s' =>
      if x =? c then [] :: split c s'
      else match split c s' with
           | piece :: pieces => (x :: piece) :: pieces
           | [] => [[x]]
           end
  end.

Definition query_of (url : pystr) : option pystr :=
  let (no_fragment, _) := partition 35 url in
  match snd (partition 63 no_fragment) with
  | Some qs => Some qs
  | None => Some []
  end.

Definition add_field (d : dict (list pystr)) (piece : pystr) : dict (list pystr) :=
  match partition 61 piece with
  | (name, Some (c :: value)) =>
      match dict_get name d with
      | Some values => dict_set name (values ++ [c :: value]) d
      | None => dict_set name [c :: value] d
      end
  | _ => d
  end.

Definition fields_of (qs : pystr) : dict (list pystr) :=
  fold_left add_field (split 38 qs) [].

Fixpoint digits (acc : Z) (s : pystr) : option Z :=
  match s with
  | [] => Some acc
  | c :: s' =>
      if (48 <=? c) && (c <=? 57)
      then digits (10 * acc + Z.of_N (c - 48))%Z s'
      else None
  end.

Definition int_of (s : pystr) : option Z :=
  match s with
  | [] => None
  | [c] => digits 0 [c]
  | c :: s' =>
      if c =? 45 then option_map Z.opp (digits 0 s')
      else if c =? 43 then digits 0 s'
      else digits 0 s
  end.

Fixpoint instants_of (cells : list (option Json.t)) : option (list (option Z)) :=
  match cells with
  | [] => Some []
  | cell :: cells' =>
      match cell, instants_of cells' with
      | None, Some l | Some Json.Null, Some l => Some (None :: l)
      | Some (Json.Int i), Some l => Some (Some i :: l)
      | _, _ => None
      end
  end.

Definition datetime_of (col : Column) : option Column :=
  match col with
  | Datetimes tz instants => Some (Datetimes tz instants)
  | Objects cells => option_map (Datetimes None) (instants_of cells)
  end.

Definition library : Library :=
  mkLibrary query_of fields_of int_of datetime_of (fun cells => cells).

(** A table of the listing and a few worlds. *)

Definition orders : TableInfo.t :=
  TableInfo.mk (u "T1") (u "Orders")
    [ ColumnSpec.mk (u "id") (u "ID");
      ColumnSpec.mk (u "abcde_qty") (u "order qty") ].

Definition order (i : Z) : record :=
  [ (u "id", Json.Str (str_of_int i));
    (u "abcde_qty", Json.Int (i + 1));
    (createdAt, Json.Int 1700000000000000000);
    (updatedAt, Json.Int 1700000000000000000) ].

(** A world that lists [tables] with status [status] and answers the [i]-th
    record request with [answer i]. *)
Definition serving (status : Z) (tables : list TableInfo.t)
    (answer : nat -> Response (list record)) : World :=
  mkWorld (mkResponse status tables) answer [].

(** [full] pages of [size] records, then pages of [last] records. *)
Definition paged (full : Z) (size last : nat) (i : nat)
  : Response (list record) :=
  mkResponse 200%Z
    (repeat (order (Z.of_nat i)) (if (Z.of_nat i <? full)%Z then size else last)).

(** Pages of [size] records, of which the [k]-th request fails with [status]. *)
Definition failing (k : nat) (status : Z) (size : nat) (i : nat)
  : Response (list record) :=
  if (i =? k)%nat then mkResponse status []
  else mkResponse 200%Z (repeat (order (Z.of_nat i)) size).

End Sample.

(** * Properties of the embedding *)

Unset Implicit Arguments.

(** ** Strings, numbers and the credential: worked values *)

Lemma str_eqb_spec (a b : pystr) : reflect (a = b) (str_eqb a b).
Proof.
  revert b; induction a as [|x a IH]; intros [|y b]; simpl;
    try (constructor; congruence).
  destruct (N.eqb_spec x y) as [->|Hxy]; simpl.
  - destruct (IH b) as [->|Hab]; constructor; congruence.
  - constructor; congruence.
Qed.

Lemma str_eqb_refl (a : pystr) : str_eqb a a = true.
Proof. destruct (str_eqb_spec a a); congruence. Qed.

Lemma str_eqb_eq (a b : pystr) : str_eqb a b = true <-> a = b.
Proof. destruct (str_eqb_spec a b); split; congruence. Qed.

Lemma str_eqb_neq (a b : pystr) : str_eqb a b = false <-> a <> b.
Proof. destruct (str_eqb_spec a b); split; congruence. Qed.

Example standardize_ID : standardize_name (u "ID") = u "ID".
Proof. reflexivity. Qed.

Example standardize_id : standardize_name (u "id") = u "Id".
Proof. reflexivity. Qed.

Example standardize_foo_bar : standardize_name (u "foo bAR") = u "Foo_Bar".
Proof. reflexivity. Qed.

Example standardize_Foo_Bar : standardize_name (u "Foo_Bar") = u "Foo_Bar".
Proof. reflexivity. Qed.

Example standardize_createdAt : standardize_name (u "_createdAt") = u "_Createdat".
Proof. reflexivity. Qed.

Example standardize_digits : standardize_name (u "lot 2b x") = u "Lot_2B_X".
Proof. reflexivity. Qed.

Example true_divide_50 :
  Float.true_divide 50 1000 = Some (Float.mk 7205759403792794 (-57)).
Proof. reflexivity. Qed.

Example true_divide_999 :
  Float.true_divide 999 1000 = Some (Float.mk 8998192055486251 (-53)).
Proof. reflexivity. Qed.

Example true_divide_1500 :
  Float.true_divide 1500 1000 = Some (Float.mk 6755399441055744 (-52)).
Proof. reflexivity. Qed.

Example true_divide_negative :
  Float.true_divide (-5) 1000 = Some (Float.mk (-5764607523034235) (-60)).
Proof. reflexivity. Qed.

Example true_divide_rounds :
  Float.true_divide 17592186044416001 1000 = Some (Float.mk 4503599627370496 (-8)).
Proof. reflexivity. Qed.

Example true_divide_large :
  Float.true_divide 123456789012345678901234567890 1000
  = Some (Float.mk 7186130912296106 34).
Proof. reflexivity. Qed.

Example true_divide_overflow : Float.true_divide (10 ^ 400) 1000 = None.
Proof. vm_compute. reflexivity. Qed.

Example int_ge_one_tenth : Float.int_ge 1 (Float.mk 7205759403792794 (-57)) = true.
Proof. reflexivity. Qed.

Example str_of_int_500 : str_of_int 500 = u "500".
Proof. reflexivity. Qed.

Example b64_Man : option_map Codec.b64encode (Codec.encode (u "Man")) = Some (u "TWFu").
Proof. reflexivity. Qed.

Example b64_token :
  option_map Codec.b64encode (Codec.encode (u "apikey.2_abc:secret"))
  = Some (u "YXBpa2V5LjJfYWJjOnNlY3JldA==").
Proof. reflexivity. Qed.

Example b64_non_ascii :
  option_map Codec.b64encode (Codec.encode [233; 8364; 128512]%N)
  = Some (u "w6nigqzwn5iA").
Proof. reflexivity. Qed.

Local Open Scope Z_scope.

(** ** The argument check and the credential *)

Lemma max_limit_of_raises lib url e :
  max_limit_of lib url = inl e -> e = UrlError \/ e = IndexError \/ e = IntError.
Proof.
  unfold max_limit_of.
  destruct (urlparse_query lib url) as [qs|]; [|intros [= <-]; auto].
  destruct (dict_get (u "limit") (parse_qs lib qs)) as [[|first rest]|];
    try (intros [= <-]; now auto); try discriminate.
  destruct (int_of_str lib first); [discriminate|intros [= <-]; auto].
Qed.

Lemma fetch_records_raises fuel url hdrs max_limit w e :
  fetch_records fuel url hdrs max_limit w = Some (inl e) -> e = OverflowError.
Proof.
  unfold fetch_records.
  destruct (max_iterations_of max_limit); [|intros [= <-]; reflexivity].
  destruct (fetch_loop _ _ _ _ _ _ _ _ _); simpl; discriminate.
Qed.

Lemma encode_token_raises authorization e :
  encode_token authorization = inl e ->
  e <> ValueError exactly_one_message.
Proof.
  unfold encode_token.
  destruct authorization as [token|]; [|intros [= <-]; discriminate].
  destruct (Codec.encode token); [discriminate|intros [= <-]; discriminate].
Qed.

(** The listing stage never ends a call with the error of the argument
    check once the check has passed. *)
Lemma resolve_table_past_check w instance authorization table_id table_name run :
  is_None table_id <> is_None table_name ->
  resolve_table w instance authorization table_id table_name = inl run ->
  result run <> Raise (ValueError exactly_one_message).
Proof.
  intros Hone. unfold resolve_table.
  destruct table_id, table_name; simpl in *; try congruence.
  all: destruct (encode_token authorization) as [e|tok] eqn:He;
    [ intros [= <-]; simpl; intros [= ->];
      now apply (encode_token_raises _ _ He)
    | ].
  all: destruct (negb (status_code (listing w) =? 200));
    [ intros [= <-]; discriminate | ].
  all: destruct (find _ _); [discriminate | intros [= <-]; discriminate].
Qed.

(** C3.  When the table identifier and the table name are both unset or
    both set, the call raises [ValueError] with the message of the
    argument check, and the world is the one the call started in: no
    request has been sent.  When exactly one of them is given, no run of
    the call ends with that error. *)
Theorem table_reference_checked
    lib fuel w instance authorization table_id table_name rename_columns query :
  ((table_id = None /\ table_name = None)
   \/ (table_id <> None /\ table_name <> None) ->
   import_tulip_table lib fuel w instance authorization table_id table_name
     rename_columns query
   = Some (mkRun (Raise (ValueError exactly_one_message)) w []))
  /\ ((table_id = None /\ table_name <> None)
      \/ (table_id <> None /\ table_name = None) ->
      forall run,
        import_tulip_table lib fuel w instance authorization table_id table_name
          rename_columns query = Some run ->
        result run <> Raise (ValueError exactly_one_message)).
Proof.
  split.
  - intros H. unfold import_tulip_table, resolve_table.
    destruct table_id, table_name; simpl; try reflexivity;
      destruct H as [[? ?]|[? ?]]; congruence.
  - intros H run. unfold import_tulip_table.
    assert (Hone : is_None table_id <> is_None table_name).
    { destruct table_id, table_name; simpl;
        destruct H as [[? ?]|[? ?]]; congruence. }
    destruct (resolve_table w instance authorization table_id table_name)
      as [run'|[[hdrs info] w1]] eqn:Hres.
    + intros [= <-]. now apply (resolve_table_past_check _ _ _ _ _ _ Hone Hres).
    + destruct (max_limit_of lib _) as [e|max_limit] eqn:Hlim.
      * intros [= <-]; simpl.
        destruct (max_limit_of_raises _ _ _ Hlim) as [->|[->| ->]]; discriminate.
      * destruct (fetch_records fuel _ hdrs max_limit w1)
          as [[e|[[recs w2] out]]|] eqn:Hfetch; try discriminate.
        -- intros [= <-]; simpl.
           rewrite (fetch_records_raises _ _ _ _ _ _ Hfetch). discriminate.
        -- destruct (to_frame lib rename_columns _ recs).
           intros [= <-]; discriminate.
Qed.

(** A call with no table reference at all, on a world that has seen no
    request. *)
Lemma table_reference_checked_example :
  import_tulip_table Sample.library 3
    (Sample.serving 200 [Sample.orders] (Sample.paged 0 3 2))
    (Some (u "acme.tulip.co")) (Some (u "token")) None None true []
  = Some (mkRun (Raise (ValueError exactly_one_message))
            (Sample.serving 200 [Sample.orders] (Sample.paged 0 3 2)) []).
Proof.
  apply (proj1 (table_reference_checked Sample.library 3
                  (Sample.serving 200 [Sample.orders] (Sample.paged 0 3 2))
                  (Some (u "acme.tulip.co")) (Some (u "token")) None None true [])).
  left. split; reflexivity.
Defined.

(** C10.  With exactly one table reference and no credential, the call
    raises [AttributeError] at the encoding of the credential; the world is
    the one the call started in, so no request has been sent, and the
    message for invalid credentials is not returned. *)
Theorem missing_credential_raises
    lib fuel w instance table_id table_name rename_columns query :
  (table_id = None /\ table_name <> None)
  \/ (table_id <> None /\ table_name = None) ->
  import_tulip_table lib fuel w instance None table_id table_name
    rename_columns query
  = Some (mkRun (Raise (AttributeError
                          (u "'NoneType' object has no attribute 'encode'")))
            w []).
Proof.
  intros H. unfold import_tulip_table, resolve_table.
  destruct table_id, table_name; simpl; try reflexivity;
    destruct H as [[? ?]|[? ?]]; congruence.
Qed.

Lemma missing_credential_raises_example :
  import_tulip_table Sample.library 3
    (Sample.serving 200 [Sample.orders] (Sample.paged 0 3 2))
    (Some (u "acme.tulip.co")) None (Some (u "T1")) None true []
  = Some (mkRun (Raise (AttributeError
                          (u "'NoneType' object has no attribute 'encode'")))
            (Sample.serving 200 [Sample.orders] (Sample.paged 0 3 2)) []).
Proof.
  apply missing_credential_raises.
  right. split; [discriminate | reflexivity].
Defined.

(** ** The table listing *)

Lemma find_none_iff (A : Type) (f : A -> bool) (l : list A) :
  find f l = None <-> forall x, In x l -> f x = false.
Proof.
  induction l as [|a l IH]; simpl.
  - split; [intros _ x []|reflexivity].
  - destruct (f a) eqn:Hfa.
    + split; [discriminate|]. intros H. specialize (H a (or_introl eq_refl)).
      congruence.
    + rewrite IH. split.
      * intros H x [<-|Hx]; auto.
      * intros H x Hx. apply H. now right.
Qed.

(** C4.  A call with exactly one table reference whose listing request
    is sent (the credential encodes) and fails -- the listing answers with a
    status other than 200, or it answers with 200 and no entry has the
    reference as its id or as its label -- returns a message: the one for
    invalid credentials in the first case, the one that carries the
    reference in the second.  The run ends with [Return (Text ...)], not
    with [Raise], and not with a frame; the listing request is the only one
    sent. *)
Theorem listing_failure_returns_message
    lib fuel w instance authorization encoded_token table_id table_name
    rename_columns query reference :
  (table_id = Some reference /\ table_name = None)
  \/ (table_id = None /\ table_name = Some reference) ->
  encode_token authorization = inr encoded_token ->
  let sent := mkRequest (tables_url instance) (make_headers encoded_token) [] in
  let w1 := mkWorld (listing w) (pages w) (requests w ++ [sent]) in
  (status_code (listing w) <> 200 ->
   import_tulip_table lib fuel w instance authorization table_id table_name
     rename_columns query
   = Some (mkRun (Return (Text invalid_credentials)) w1 []))
  /\ (status_code (listing w) = 200 ->
      (forall r, In r (json (listing w)) ->
                 TableInfo.id r <> reference /\ TableInfo.label r <> reference) ->
      import_tulip_table lib fuel w instance authorization table_id table_name
        rename_columns query
      = Some (mkRun
                (Return (Text (u "Table " ++ reference
                   ++ u " not found, please check the table name or ID in Tulip and type it as is")))
                w1 [])).
Proof.
  intros Hone Htok sent w1. unfold import_tulip_table, resolve_table.
  assert (Hguard : (is_None table_name && is_None table_id)
                   || (negb (is_None table_name) && negb (is_None table_id)) = false)
    by (destruct Hone as [[-> ->]|[-> ->]]; reflexivity).
  rewrite Hguard, Htok. simpl. fold sent. fold w1.
  split.
  - intros Hstatus. apply Z.eqb_neq in Hstatus. now rewrite Hstatus.
  - intros Hstatus Hnone. rewrite Hstatus. simpl.
    assert (Hfind : find (matches table_id table_name) (json (listing w)) = None).
    { apply find_none_iff. intros r Hr. destruct (Hnone r Hr) as [Hid Hlabel].
      unfold matches, table_match.
      destruct Hone as [[-> ->]|[-> ->]]; simpl; now apply str_eqb_neq. }
    rewrite Hfind.
    destruct Hone as [[-> ->]|[-> ->]]; reflexivity.
Qed.

Lemma listing_failure_returns_message_example :
  import_tulip_table Sample.library 3
    (Sample.serving 401 [] (Sample.paged 0 3 2))
    (Some (u "acme.tulip.co")) (Some (u "token")) None (Some (u "Orders")) true []
  = Some (mkRun (Return (Text invalid_credentials))
            (mkWorld (mkResponse 401 []) (Sample.paged 0 3 2)
               [mkRequest (tables_url (Some (u "acme.tulip.co")))
                  (make_headers (u "Basic dG9rZW4=")) []])
            []).
Proof.
  apply (proj1 (listing_failure_returns_message Sample.library 3
           (Sample.serving 401 [] (Sample.paged 0 3 2))
           (Some (u "acme.tulip.co")) (Some (u "token")) (u "Basic dG9rZW4=")
           None (Some (u "Orders")) true [] (u "Orders")
           (or_intror (conj eq_refl eq_refl)) eq_refl)).
  simpl. discriminate.
Defined.

(** ** The pagination loop *)

Lemma after_requests_none w : after_requests [] 0 w = w.
Proof.
  destruct w as [l p r]. unfold after_requests; simpl.
  now rewrite app_nil_r.
Qed.

Lemma after_requests_step req reqs n w :
  after_requests reqs n (snd (get_records req w))
  = after_requests (req :: reqs) (S n) w.
Proof.
  unfold after_requests, get_records; simpl.
  now rewrite <- app_assoc.
Qed.

Lemma first_pages_step n req w :
  first_pages (S n) w = json (pages w 0%nat) ++ first_pages n (snd (get_records req w)).
Proof.
  unfold first_pages. simpl. now rewrite <- seq_shift, map_map.
Qed.

Lemma page_requests_step url hdrs P off n :
  page_requests url hdrs P off (S n)
  = mkRequest url hdrs (page_params P off) :: page_requests url hdrs P (off + P) n.
Proof.
  unfold page_requests. simpl. rewrite <- seq_shift, map_map.
  f_equal.
  - do 2 f_equal. lia.
  - apply map_ext. intros i. do 2 f_equal. lia.
Qed.

Lemma page_requests_length url hdrs P off n :
  List.length (page_requests url hdrs P off n) = n.
Proof. unfold page_requests. now rewrite length_map, length_seq. Qed.

(** The [i]-th of the requests of the loop. *)
Lemma page_requests_nth url hdrs P n : forall off i req,
  nth_error (page_requests url hdrs P off n) i = Some req ->
  req = mkRequest url hdrs [(u "limit", P); (u "offset", off + Z.of_nat i * P)].
Proof.
  induction n as [|n IH]; intros off i req.
  - destruct i; discriminate.
  - rewrite page_requests_step. destruct i as [|i].
    + intros [= <-]. unfold page_params. do 4 f_equal. lia.
    + cbn [nth_error]. intros H. rewrite (IH _ _ _ H). do 4 f_equal. lia.
Qed.

Lemma first_pages_snoc n w :
  first_pages (S n) w = first_pages n w ++ json (pages w n).
Proof.
  unfold first_pages. rewrite seq_S, map_app, concat_app. simpl.
  now rewrite app_nil_r.
Qed.

Lemma length_first_pages n w size :
  (forall i, (i < n)%nat -> List.length (json (pages w i)) = size) ->
  List.length (first_pages n w) = (n * size)%nat.
Proof.
  induction n as [|n IH]; intros H; [reflexivity|].
  rewrite first_pages_snoc, length_app, IH, (H n) by auto with arith. lia.
Qed.

(** The loop reads the pages on which it goes on and ends at the first
    page on which it does not: a page that is not a success, a short page,
    or the page read by the pass that reaches the cap.  It has then sent
    one request per page read, each at the offset the page size times the
    number of pages before it; a successful last page is appended, a failed
    one leaves a printed line. *)
Lemma fetch_loop_run n :
  forall fuel url hdrs P cap it off acc w,
    (forall i, (i < n)%nat -> goes_on P cap (it + Z.of_nat i + 1) (pages w i)) ->
    status_code (pages w n) <> 200
    \/ Z.of_nat (List.length (json (pages w n))) < P
    \/ int_ge (it + Z.of_nat n + 1) cap = true ->
    fetch_loop (S n + fuel) url hdrs P cap it off acc w
    = Some (if status_code (pages w n) =? 200
            then acc ++ first_pages (S n) w else acc ++ first_pages n w,
            after_requests (page_requests url hdrs P off (S n)) (S n) w,
            if status_code (pages w n) =? 200 then []
            else [error_line (status_code (pages w n))]).
Proof.
  induction n as [|n IH]; intros fuel url hdrs P cap it off acc w Hpages Hstop.
  - cbn [fetch_loop Nat.add get_records]. simpl in Hstop. rewrite Z.add_0_r in Hstop.
    unfold page_requests; simpl. rewrite Z.add_0_r.
    unfold first_pages; simpl. rewrite !app_nil_r.
    destruct (status_code (pages w 0%nat) =? 200) eqn:Hstatus; [|reflexivity].
    destruct Hstop as [H|[H|H]].
    + apply Z.eqb_eq in Hstatus. contradiction.
    + apply Z.ltb_lt in H. now rewrite H.
    + rewrite H, orb_true_r. reflexivity.
  - destruct (Hpages 0%nat ltac:(lia)) as (Hstatus & Hfull & Hcap).
    simpl in Hcap. rewrite Z.add_0_r in Hcap.
    change (S (S n) + fuel)%nat with (S (S n + fuel)). cbn [fetch_loop get_records].
    rewrite Hstatus. cbn [Z.eqb Pos.eqb].
    apply Z.ltb_ge in Hfull. rewrite Hfull, Hcap. cbn [orb].
    set (req := mkRequest url hdrs (page_params P off)).
    change (mkWorld (listing w) (fun i => pages w (S i)) (requests w ++ [req]))
      with (snd (get_records req w)).
    rewrite IH.
    + rewrite after_requests_step.
      rewrite (first_pages_step (S n) req w), (first_pages_step n req w).
      rewrite (page_requests_step url hdrs P off (S n)). fold req.
      change (pages (snd (get_records req w)) n) with (pages w (S n)).
      rewrite <- !app_assoc. reflexivity.
    + intros i Hi. change (pages (snd (get_records req w)) i) with (pages w (S i)).
      replace (it + 1 + Z.of_nat i + 1) with (it + Z.of_nat (S i) + 1) by lia.
      apply Hpages. lia.
    + change (pages (snd (get_records req w)) n) with (pages w (S n)).
      replace (it + 1 + Z.of_nat n + 1) with (it + Z.of_nat (S n) + 1) by lia.
      exact Hstop.
Qed.

Lemma fetch_loop_more_fuel fuel :
  forall fuel' url hdrs P cap it off acc w r,
    fetch_loop fuel url hdrs P cap it off acc w = Some r ->
    (fuel <= fuel')%nat ->
    fetch_loop fuel' url hdrs P cap it off acc w = Some r.
Proof.
  induction fuel as [|fuel IH]; intros fuel' url hdrs P cap it off acc w r;
    [discriminate|].
  intros Hrun Hle. destruct fuel' as [|fuel']; [lia|].
  simpl in *.
  destruct (status_code (pages w 0%nat) =? 200); [|exact Hrun].
  destruct ((Z.of_nat (List.length (json (pages w 0%nat))) <? P)
            || int_ge (it + 1) cap); [exact Hrun|].
  apply IH; [exact Hrun|lia].
Qed.

Lemma fetch_records_more_fuel fuel fuel' url hdrs max_limit w r :
  fetch_records fuel url hdrs max_limit w = Some r ->
  (fuel <= fuel')%nat ->
  fetch_records fuel' url hdrs max_limit w = Some r.
Proof.
  unfold fetch_records. destruct (max_iterations_of max_limit); [|auto].
  destruct (fetch_loop fuel _ _ _ _ _ _ _ _) as [r0|] eqn:Hrun; [|discriminate].
  intros Hr Hle. simpl in Hr.
  apply fetch_loop_more_fuel with (fuel' := fuel') in Hrun; [|exact Hle].
  now rewrite Hrun.
Qed.

Lemma import_tulip_table_more_fuel
    lib fuel fuel' w instance authorization table_id table_name rename_columns
    query run :
  import_tulip_table lib fuel w instance authorization table_id table_name
    rename_columns query = Some run ->
  (fuel <= fuel')%nat ->
  import_tulip_table lib fuel' w instance authorization table_id table_name
    rename_columns query = Some run.
Proof.
  unfold import_tulip_table.
  destruct (resolve_table _ _ _ _ _) as [run'|[[hdrs info] w1]]; [auto|].
  destruct (max_limit_of lib _) as [e|max_limit]; [auto|].
  destruct (fetch_records fuel _ hdrs max_limit w1) as [r|] eqn:Hrun;
    [|discriminate].
  intros Hres Hle.
  apply fetch_records_more_fuel with (fuel' := fuel') in Hrun; [|exact Hle].
  now rewrite Hrun.
Qed.

(** Once the table is resolved and the loop has ended, the call returns
    the frame built from the records fetched. *)
Lemma import_tulip_table_fetched
    lib fuel w instance authorization table_id table_name rename_columns query
    hdrs info w1 max_limit all_records w2 printed :
  resolve_table w instance authorization table_id table_name
  = inr (hdrs, info, w1) ->
  max_limit_of lib (records_url instance (TableInfo.id info) query)
  = inr max_limit ->
  fetch_records fuel (records_url instance (TableInfo.id info) query) hdrs
    max_limit w1 = Some (inr (all_records, w2, printed)) ->
  import_tulip_table lib fuel w instance authorization table_id table_name
    rename_columns query
  = Some (mkRun
            (Return (Frame (fst (to_frame lib rename_columns
                                   (TableInfo.columns info) all_records))))
            w2
            (printed ++ snd (to_frame lib rename_columns
                               (TableInfo.columns info) all_records))).
Proof.
  intros Hres Hlim Hrun. unfold import_tulip_table.
  rewrite Hres, Hlim, Hrun.
  now destruct (to_frame lib rename_columns (TableInfo.columns info) all_records).
Qed.

Lemma run_frame_inj df w p df' w' p' :
  Some (mkRun (Return (Frame df)) w p) = Some (mkRun (Return (Frame df')) w' p') ->
  df = df' /\ w = w' /\ p = p'.
Proof. intros [= -> -> ->]. auto. Qed.

(** ** Rows and labels through the stages of [to_frame] *)

Lemma n_rows_setitem key col df : n_rows (setitem key col df) = n_rows df.
Proof. unfold setitem. now destruct (existsb _ _). Qed.

Lemma getitem_some_exists key df col :
  getitem key df = Some col -> existsb (str_eqb key) (columns df) = true.
Proof.
  unfold getitem, columns. destruct df as [n d]; simpl.
  induction d as [|[k c] d IH]; simpl; [discriminate|].
  destruct (str_eqb k key) eqn:Hk.
  - apply str_eqb_eq in Hk. subst k. now rewrite str_eqb_refl.
  - intros H. rewrite (IH H). now rewrite orb_true_r.
Qed.

Lemma columns_setitem_present key col df :
  existsb (str_eqb key) (columns df) = true ->
  columns (setitem key col df) = columns df.
Proof.
  unfold setitem, columns. intros ->. simpl. rewrite map_map.
  apply map_ext. intros [k c]; simpl. now destruct (str_eqb k key).
Qed.

Lemma existsb_setitem key key' col df :
  existsb (str_eqb key') (columns df) = true ->
  existsb (str_eqb key') (columns (setitem key col df)) = true.
Proof.
  intros H. destruct (existsb (str_eqb key) (columns df)) eqn:He.
  - now rewrite (columns_setitem_present key col df He).
  - unfold setitem. rewrite He. unfold columns in *; simpl.
    now rewrite map_app, existsb_app, H.
Qed.

(** A pass of the timestamp loop changes neither the number of rows nor
    the labels. *)
Lemma convert_timezone_shape lib utc_col df out :
  n_rows (fst (convert_timezone lib utc_col (df, out))) = n_rows df
  /\ columns (fst (convert_timezone lib utc_col (df, out))) = columns df.
Proof.
  unfold convert_timezone.
  destruct (getitem utc_col df) as [col|] eqn:Hget; [|now split].
  pose proof (getitem_some_exists _ _ _ Hget) as Hex.
  destruct (to_datetime lib col) as [parsed|]; [|now split].
  assert (Hshape : forall c,
             n_rows (setitem utc_col c (setitem utc_col parsed df)) = n_rows df
             /\ columns (setitem utc_col c (setitem utc_col parsed df)) = columns df).
  { intros c. rewrite !n_rows_setitem. split; [reflexivity|].
    rewrite columns_setitem_present.
    - now apply columns_setitem_present.
    - now rewrite columns_setitem_present. }
  assert (Hparsed : n_rows (setitem utc_col parsed df) = n_rows df
                    /\ columns (setitem utc_col parsed df) = columns df).
  { rewrite n_rows_setitem. split; [reflexivity|].
    now apply columns_setitem_present. }
  destruct (dt_tz parsed) as [[zone|]|]; simpl; try exact Hparsed.
  - destruct (tz_convert Montreal parsed); simpl; [apply Hshape|exact Hparsed].
  - destruct (tz_localize_UTC parsed) as [localized|]; simpl; [|exact Hparsed].
    destruct (tz_convert Montreal localized); simpl; [apply Hshape|exact Hparsed].
Qed.

Lemma convert_timezones_shape lib df :
  n_rows (fst (convert_timezones lib df)) = n_rows df
  /\ columns (fst (convert_timezones lib df)) = columns df.
Proof.
  unfold convert_timezones. cbn [fold_left].
  pose proof (convert_timezone_shape lib createdAt df []) as S1.
  destruct (convert_timezone lib createdAt (df, [])) as [df1 out1].
  pose proof (convert_timezone_shape lib updatedAt df1 out1) as S2.
  simpl in S1. destruct S1 as [R1 C1], S2 as [R2 C2].
  split; [now rewrite R2|now rewrite C2].
Qed.

Lemma n_rows_rename_stage b cols df : n_rows (rename_stage b cols df) = n_rows df.
Proof. unfold rename_stage. now destruct b. Qed.

Lemma n_rows_to_frame lib b cols recs :
  n_rows (fst (to_frame lib b cols recs)) = n_rows (build_frame lib cols recs).
Proof.
  unfold to_frame.
  pose proof (convert_timezones_shape lib (build_frame lib cols recs)) as [R _].
  destruct (convert_timezones lib (build_frame lib cols recs)) as [df out].
  simpl in *. now rewrite n_rows_rename_stage.
Qed.

Lemma add_key_nonempty seen k : add_key seen k <> [].
Proof.
  unfold add_key. destruct (existsb (str_eqb k) seen) eqn:H.
  - destruct seen; [discriminate|discriminate].
  - now destruct seen.
Qed.

Lemma fold_add_key_nonempty ks : forall seen,
  seen <> [] \/ ks <> [] -> fold_left add_key ks seen <> [].
Proof.
  induction ks as [|k ks IH]; intros seen H; simpl.
  - destruct H as [H|H]; [exact H|congruence].
  - apply IH. left. apply add_key_nonempty.
Qed.

Lemma fold_keys_nonempty (recs : list record) : forall seen,
  seen <> [] \/ (exists r, In r recs /\ r <> []) ->
  fold_left (fun seen r => fold_left add_key (keys r) seen) recs seen <> [].
Proof.
  induction recs as [|r0 recs IH]; intros seen H; simpl.
  - destruct H as [H|[r [[] _]]]. exact H.
  - apply IH. destruct H as [H|[r [[->|Hin] Hr]]].
    + left. apply fold_add_key_nonempty. now left.
    + left. apply fold_add_key_nonempty. right. unfold keys. now destruct r.
    + right. now exists r.
Qed.

Lemma all_keys_nonempty recs :
  (exists r, In r recs /\ r <> []) -> all_keys recs <> [].
Proof. intros H. apply fold_keys_nonempty. now right. Qed.

(** The frame built from records of which one has a field has a row per
    record. *)
Lemma n_rows_build_frame lib cols recs :
  (exists r, In r recs /\ r <> []) ->
  n_rows (build_frame lib cols recs) = List.length recs.
Proof.
  intros H. unfold build_frame.
  assert (Hempty : empty (DataFrame_of_records lib recs) = false).
  { unfold empty, DataFrame_of_records; simpl. rewrite length_map.
    apply orb_false_iff. split; apply Nat.eqb_neq.
    - destruct H as [r [Hin _]]. now destruct recs.
    - pose proof (all_keys_nonempty recs H). now destruct (all_keys recs). }
  now rewrite Hempty.
Qed.

(** ** Pagination without a limit *)

Lemma max_limit_absent lib url qs :
  urlparse_query lib url = Some qs ->
  dict_get (u "limit") (parse_qs lib qs) = None ->
  max_limit_of lib url = inr 0.
Proof. unfold max_limit_of. now intros -> ->. Qed.

(** C1, as the code has it.  The query gives no limit, the table is
    resolved, and the record requests are answered by [N] successful pages
    of 1000 records, the page size asked for, followed by a successful page
    of [K < 1000] records.  If [N] is below the cap of 99999999 passes, the
    loop ends after [N + 1] requests, the [i]-th with the parameters
    [limit = 1000] and [offset = 1000 * i], with
    the records of all [N + 1] pages, [N * 1000 + K] in number, and the
    call returns the frame built from them; the frame has as many rows
    when some record has a field. *)
Theorem full_pages_then_partial
    lib fuel w instance authorization table_id table_name rename_columns query
    hdrs info w1 qs N K :
  resolve_table w instance authorization table_id table_name
  = inr (hdrs, info, w1) ->
  let url := records_url instance (TableInfo.id info) query in
  urlparse_query lib url = Some qs ->
  dict_get (u "limit") (parse_qs lib qs) = None ->
  Z.of_nat N < 99999999 ->
  (forall i, (i < N)%nat ->
             status_code (pages w1 i) = 200
             /\ List.length (json (pages w1 i)) = 1000%nat) ->
  status_code (pages w1 N) = 200 ->
  List.length (json (pages w1 N)) = K ->
  (K < 1000)%nat ->
  (N < fuel)%nat ->
  let all_records := first_pages (S N) w1 in
  let sent := page_requests url hdrs 1000 0 (S N) in
  let table := to_frame lib rename_columns (TableInfo.columns info) all_records in
  fetch_records fuel url hdrs 0 w1
  = Some (inr (all_records, after_requests sent (S N) w1, []))
  /\ List.length all_records = (N * 1000 + K)%nat
  /\ List.length sent = S N
  /\ import_tulip_table lib fuel w instance authorization table_id table_name
       rename_columns query
     = Some (mkRun (Return (Frame (fst table))) (after_requests sent (S N) w1)
               (snd table))
  /\ ((exists r, In r all_records /\ r <> []) ->
      n_rows (fst table) = (N * 1000 + K)%nat)
  /\ (forall i req,
        nth_error sent i = Some req ->
        req = mkRequest url hdrs
                [(u "limit", 1000); (u "offset", Z.of_nat i * 1000)]).
Proof.
  intros Hres url Hqs Hlimit Hcap Hfull Hstatus Hlast HK Hfuel all_records sent table.
  assert (Hfetch : fetch_records fuel url hdrs 0 w1
                   = Some (inr (all_records, after_requests sent (S N) w1, []))).
  { unfold fetch_records. cbn [max_iterations_of Z.eqb negb default_limit_of
                                 Z.ltb Z.compare andb option_map].
    replace fuel with (S N + (fuel - S N))%nat by lia.
    rewrite fetch_loop_run.
    - now rewrite Hstatus.
    - intros i Hi. destruct (Hfull i Hi) as [Hs Hl].
      repeat split; [exact Hs|rewrite Hl; lia|].
      simpl. apply Z.leb_gt. lia.
    - right; left. rewrite Hlast. lia. }
  assert (Hlen : List.length all_records = (N * 1000 + K)%nat).
  { unfold all_records. rewrite first_pages_snoc, length_app, Hlast.
    rewrite (@length_first_pages N w1 1000%nat); [reflexivity|].
    intros i Hi. now destruct (Hfull i Hi). }
  repeat split.
  - exact Hfetch.
  - exact Hlen.
  - apply page_requests_length.
  - exact (import_tulip_table_fetched lib fuel w instance authorization table_id
             table_name rename_columns query hdrs info w1 0 all_records _ []
             Hres (max_limit_absent lib url qs Hqs Hlimit) Hfetch).
  - intros Hfield. unfold table.
    now rewrite n_rows_to_frame, n_rows_build_frame.
  - intros i req Hreq. exact (page_requests_nth url hdrs 1000 (S N) 0 i req Hreq).
Qed.

(** One full page and a page of two records. *)
Lemma full_pages_then_partial_example :
  let w := Sample.serving 200 [Sample.orders] (Sample.paged 1 1000 2) in
  let hdrs := make_headers (u "Basic dG9rZW4=") in
  let w1 := mkWorld (listing w) (pages w)
              [mkRequest (tables_url (Some (u "acme.tulip.co"))) hdrs []] in
  let url := records_url (Some (u "acme.tulip.co")) (u "T1") [] in
  let all_records := first_pages 2 w1 in
  let sent := page_requests url hdrs 1000 0 2 in
  let table := to_frame Sample.library true (TableInfo.columns Sample.orders)
                 all_records in
  fetch_records 2 url hdrs 0 w1
  = Some (inr (all_records, after_requests sent 2 w1, []))
  /\ List.length all_records = (1 * 1000 + 2)%nat
  /\ List.length sent = 2%nat
  /\ import_tulip_table Sample.library 2 w (Some (u "acme.tulip.co"))
       (Some (u "token")) (Some (u "T1")) None true []
     = Some (mkRun (Return (Frame (fst table))) (after_requests sent 2 w1)
               (snd table))
  /\ ((exists r, In r all_records /\ r <> []) ->
      n_rows (fst table) = (1 * 1000 + 2)%nat)
  /\ (forall i req,
        nth_error sent i = Some req ->
        req = mkRequest url hdrs
                [(u "limit", 1000); (u "offset", Z.of_nat i * 1000)]).
Proof.
  intros w hdrs w1 url.
  apply (full_pages_then_partial Sample.library 2 w (Some (u "acme.tulip.co"))
           (Some (u "token")) (Some (u "T1")) None true [] hdrs Sample.orders
           w1 [] 1 2).
  - reflexivity.
  - reflexivity.
  - reflexivity.
  - lia.
  - intros i Hi. assert (i = 0%nat) as -> by lia. split; reflexivity.
  - reflexivity.
  - reflexivity.
  - lia.
  - lia.
Defined.
(** C1 as stated fails at the cap.  The world answers the first 99999999
    record requests with full pages of 1000 records and every later one
    with a page of one record, and the query gives no limit.  The pass
    that reads the 99999999th full page reaches [max_iterations], so the
    loop ends there: the call returns 99999999 * 1000 rows after 99999999
    record requests (and the listing request), and no run returns one row
    more or sends one request more. *)
Lemma full_pages_up_to_the_cap :
  let w := Sample.serving 200 [Sample.orders] (Sample.paged 99999999 1000 1) in
  let call fuel :=
    import_tulip_table Sample.library fuel w (Some (u "acme.tulip.co"))
      (Some (u "token")) (Some (u "T1")) None true [] in
  (forall i, Z.of_nat i < 99999999 ->
             status_code (pages w i) = 200
             /\ List.length (json (pages w i)) = 1000%nat)
  /\ (status_code (pages w (Z.to_nat 99999999)) = 200
      /\ List.length (json (pages w (Z.to_nat 99999999))) = 1%nat)
  /\ (exists fuel df w' printed,
        call fuel = Some (mkRun (Return (Frame df)) w' printed)
        /\ Z.of_nat (n_rows df) = 99999999 * 1000
        /\ Z.of_nat (List.length (requests w')) = 1 + 99999999)
  /\ ~ (exists fuel df w' printed,
          call fuel = Some (mkRun (Return (Frame df)) w' printed)
          /\ (Z.of_nat (n_rows df) = 99999999 * 1000 + 1
              \/ Z.of_nat (List.length (requests w')) = 1 + (99999999 + 1))).
Proof.
  intros w call.
  assert (Hpage : forall i, Z.of_nat i < 99999999 ->
            status_code (pages w i) = 200
            /\ List.length (json (pages w i)) = 1000%nat).
  { intros i Hi. unfold w, Sample.serving, Sample.paged. cbn [pages status_code json].
    apply Z.ltb_lt in Hi. rewrite Hi, repeat_length. now split. }
  assert (Hlast : status_code (pages w (Z.to_nat 99999999)) = 200
            /\ List.length (json (pages w (Z.to_nat 99999999))) = 1%nat).
  { unfold w, Sample.serving, Sample.paged. cbn [pages status_code json].
    rewrite Z2Nat.id by lia. rewrite Z.ltb_irrefl, repeat_length. now split. }
  set (hdrs := make_headers (u "Basic dG9rZW4=")).
  set (w1 := mkWorld (listing w) (pages w)
               [mkRequest (tables_url (Some (u "acme.tulip.co"))) hdrs []]).
  set (url := records_url (Some (u "acme.tulip.co")) (u "T1") []).
  assert (Hres : resolve_table w (Some (u "acme.tulip.co")) (Some (u "token"))
                   (Some (u "T1")) None = inr (hdrs, Sample.orders, w1))
    by reflexivity.
  assert (Hlim : max_limit_of Sample.library url = inr 0) by reflexivity.
  remember (Z.to_nat 99999998) as n eqn:Hn.
  assert (Hn' : Z.of_nat n = 99999998) by lia. clear Hn.
  assert (Hfetch : fetch_records (S n + 0) url hdrs 0 w1
            = Some (inr (first_pages (S n) w1,
                         after_requests (page_requests url hdrs 1000 0 (S n)) (S n) w1,
                         []))).
  { unfold fetch_records. cbn [max_iterations_of Z.eqb negb default_limit_of
                                 Z.ltb Z.compare andb option_map].
    rewrite fetch_loop_run.
    - destruct (Hpage n ltac:(lia)) as [Hs _]. change (pages w1 n) with (pages w n).
      now rewrite Hs.
    - intros i Hi. change (pages w1 i) with (pages w i).
      destruct (Hpage i ltac:(lia)) as [Hs Hl].
      split; [exact Hs|split; [rewrite Hl; lia|]].
      simpl. apply Z.leb_gt. lia.
    - right; right. simpl. apply Z.leb_le. lia. }
  assert (Hrows : List.length (first_pages (S n) w1) = (S n * 1000)%nat).
  { apply length_first_pages. intros i Hi. change (pages w1 i) with (pages w i).
    apply Hpage. lia. }
  assert (Hfield : exists r, In r (first_pages (S n) w1) /\ r <> []).
  { exists (Sample.order 0). split; [|discriminate].
    rewrite (first_pages_step n (mkRequest [] [] []) w1). apply in_or_app. left.
    now left. }
  pose proof (import_tulip_table_fetched Sample.library (S n + 0) w _ _ _ _ true []
                _ _ _ _ _ _ _ Hres Hlim Hfetch) as Hrun.
  fold (call (S n + 0)%nat) in Hrun.
  assert (Hdf : n_rows (fst (to_frame Sample.library true
                               (TableInfo.columns Sample.orders)
                               (first_pages (S n) w1))) = (S n * 1000)%nat).
  { now rewrite n_rows_to_frame, n_rows_build_frame. }
  assert (Hreqs : List.length (requests (after_requests
                     (page_requests url hdrs 1000 0 (S n)) (S n) w1)) = S (S n)).
  { unfold after_requests; cbn [requests]. rewrite length_app, page_requests_length.
    reflexivity. }
  revert Hrun Hdf Hreqs.
  generalize (fst (to_frame Sample.library true (TableInfo.columns Sample.orders)
                     (first_pages (S n) w1))) as df0.
  generalize (after_requests (page_requests url hdrs 1000 0 (S n)) (S n) w1) as w0.
  generalize ([] ++ snd (to_frame Sample.library true
                           (TableInfo.columns Sample.orders)
                           (first_pages (S n) w1))) as printed0.
  intros printed0 w0 df0 Hrun Hdf Hreqs.
  split; [exact Hpage|]. split; [exact Hlast|]. split.
  - exists (S n + 0)%nat, df0, w0, printed0. split; [exact Hrun|]. split; lia.
  - intros (fuel & df & w' & printed & Hcall & Hclaim).
    apply import_tulip_table_more_fuel with (fuel' := Nat.max fuel (S n + 0)) in Hcall;
      [|lia].
    apply import_tulip_table_more_fuel with (fuel' := Nat.max fuel (S n + 0)) in Hrun;
      [|lia].
    unfold call in Hrun. rewrite Hcall in Hrun.
    apply run_frame_inj in Hrun. destruct Hrun as (-> & -> & _).
    destruct Hclaim as [Hc|Hc]; lia.
Qed.

(** ** A failed page *)

(** C5.  The table is resolved, the loop goes on over the first [k]
    pages, and the request for the next page is answered with a status
    other than 200.  Then that request is the last one sent (none is
    repeated, none follows), the records of the [k] pages read before are
    all kept, one line with the status is printed, and the call goes on to
    build the frame from these records and returns it: the run ends with
    [Return], not with [Raise]. *)
Theorem failed_page_keeps_records
    lib fuel w instance authorization table_id table_name rename_columns query
    hdrs info w1 max_limit cap k :
  resolve_table w instance authorization table_id table_name
  = inr (hdrs, info, w1) ->
  let url := records_url instance (TableInfo.id info) query in
  max_limit_of lib url = inr max_limit ->
  max_iterations_of max_limit = Some cap ->
  (forall i, (i < k)%nat ->
             goes_on (default_limit_of max_limit) cap (Z.of_nat i + 1) (pages w1 i)) ->
  status_code (pages w1 k) <> 200 ->
  (k < fuel)%nat ->
  let kept := first_pages k w1 in
  let sent := page_requests url hdrs (default_limit_of max_limit) 0 (S k) in
  let line := error_line (status_code (pages w1 k)) in
  let table := to_frame lib rename_columns (TableInfo.columns info) kept in
  fetch_records fuel url hdrs max_limit w1
  = Some (inr (kept, after_requests sent (S k) w1, [line]))
  /\ import_tulip_table lib fuel w instance authorization table_id table_name
       rename_columns query
     = Some (mkRun (Return (Frame (fst table))) (after_requests sent (S k) w1)
               (line :: snd table)).
Proof.
  intros Hres url Hlim Hcap Hpages Hfail Hfuel kept sent line table.
  assert (Hfetch : fetch_records fuel url hdrs max_limit w1
                   = Some (inr (kept, after_requests sent (S k) w1, [line]))).
  { unfold fetch_records. rewrite Hcap. cbn [option_map].
    replace fuel with (S k + (fuel - S k))%nat by lia.
    rewrite fetch_loop_run.
    - apply Z.eqb_neq in Hfail. now rewrite Hfail.
    - intros i Hi. rewrite Z.add_0_l. now apply Hpages.
    - now left. }
  split; [exact Hfetch|].
  exact (import_tulip_table_fetched lib fuel w instance authorization table_id
           table_name rename_columns query hdrs info w1 max_limit kept _ [line]
           Hres Hlim Hfetch).
Qed.

(** A full page, then a request answered with status 500. *)
Lemma failed_page_keeps_records_example :
  let w := Sample.serving 200 [Sample.orders] (Sample.failing 1 500 1000) in
  let hdrs := make_headers (u "Basic dG9rZW4=") in
  let w1 := mkWorld (listing w) (pages w)
              [mkRequest (tables_url (Some (u "acme.tulip.co"))) hdrs []] in
  let url := records_url (Some (u "acme.tulip.co")) (u "T1") [] in
  let kept := first_pages 1 w1 in
  let sent := page_requests url hdrs 1000 0 2 in
  let table := to_frame Sample.library true (TableInfo.columns Sample.orders) kept in
  fetch_records 2 url hdrs 0 w1
  = Some (inr (kept, after_requests sent 2 w1, [u "Error: 500"]))
  /\ import_tulip_table Sample.library 2 w (Some (u "acme.tulip.co"))
       (Some (u "token")) (Some (u "T1")) None true []
     = Some (mkRun (Return (Frame (fst table))) (after_requests sent 2 w1)
               (u "Error: 500" :: snd table)).
Proof.
  intros w hdrs w1 url.
  apply (failed_page_keeps_records Sample.library 2 w (Some (u "acme.tulip.co"))
           (Some (u "token")) (Some (u "T1")) None true [] hdrs Sample.orders
           w1 0 (PyInt 99999999) 1).
  - reflexivity.
  - reflexivity.
  - reflexivity.
  - intros i Hi. assert (i = 0%nat) as -> by lia.
    split; [reflexivity|]. split; [|reflexivity]. vm_compute. discriminate.
  - vm_compute. discriminate.
  - lia.
Defined.

(** ** The cap of a limit, as a quotient *)

Lemma log2_quot_small (n : Z) :
  0 < n < 2 ^ 44 * 1000 -> Float.log2_quot n 1000 <= 43.
Proof.
  intros Hn. unfold Float.log2_quot.
  assert (Hlog : Z.log2 n < 54).
  { apply Z.log2_lt_pow2; [lia|]. change (2 ^ 54) with (2 ^ 44 * 1024). lia. }
  change (Z.log2 1000) with 9.
  destruct (Z.eq_dec (Z.log2 n - 9) 44) as [Hk|Hk].
  - rewrite Hk. cbn [Z.leb Z.compare].
    destruct (Z.leb_spec (1000 * 2 ^ 44) n); lia.
  - destruct (if 0 <=? Z.log2 n - 9 then _ else _); lia.
Qed.

(** Rounding [n * T / 1000] to the nearest integer, for a scale [T] of at
    least 512, orders against the multiples of [T] as the exact quotient
    does against the integers. *)
Lemma rounded_quotient_order (n T i : Z) :
  0 < n -> 512 <= T ->
  let q := (n * T) / 1000 in
  let r := (n * T) mod 1000 in
  let q' := if (1000 <? 2 * r) || ((1000 =? 2 * r) && Z.odd q) then q + 1 else q in
  q' <= i * T <-> n <= 1000 * i.
Proof.
  intros Hn HT q r q'.
  pose proof (Z.div_mod (n * T) 1000 ltac:(lia)) as Hdiv.
  pose proof (Z.mod_pos_bound (n * T) 1000 ltac:(lia)) as Hr.
  fold q r in Hdiv, Hr.
  assert (Hq' : q <= q' <= q + 1) by (unfold q'; destruct (_ || _); lia).
  split.
  - intros Hle. destruct (Z_le_gt_dec n (1000 * i)) as [H|H]; [exact H|exfalso].
    assert (Hnum : 1000 * (i * T) + T <= n * T) by nia.
    assert (Hq : i * T <= q) by nia.
    assert (q = i * T) by lia.
    assert (Hbig : 1000 < 2 * r) by nia.
    apply Z.ltb_lt in Hbig. unfold q' in Hle. rewrite Hbig in Hle. simpl in Hle. lia.
  - intros Hle.
    assert (Hnum : n * T <= 1000 * (i * T)) by nia.
    assert (Hq : q <= i * T) by nia.
    destruct (Z.eq_dec q (i * T)) as [Heq|Hne]; [|lia].
    assert (r = 0) by nia.
    unfold q'. subst r. rewrite H. simpl. lia.
Qed.

(** For a limit below [2^44 * 1000] the double [L / 1000] orders against
    the integers as the exact quotient does: the pass [i] reaches the cap
    exactly when [1000 * i >= L]. *)
Lemma quotient_cap (L : Z) :
  0 < L < 2 ^ 44 * 1000 ->
  exists x, Float.true_divide L 1000 = Some x
            /\ forall i, Float.int_ge i x = (L <=? 1000 * i).
Proof.
  intros HL. unfold Float.true_divide.
  destruct (Z.eqb_spec L 0) as [|_]; [lia|].
  rewrite Z.abs_eq by lia.
  pose proof (log2_quot_small L HL) as He.
  unfold Float.nearest.
  set (s := Z.max (Float.log2_quot L 1000 - 52) (-1074)).
  assert (Hs : -1074 <= s <= -9) by lia.
  clearbody s. clear He.
  destruct (Z.leb_spec 0 s) as [|_]; [lia|].
  assert (HT : 512 <= 2 ^ (- s)).
  { change 512 with (2 ^ 9). apply Z.pow_le_mono_r; lia. }
  pose proof (rounded_quotient_order L (2 ^ (- s))) as Hord.
  set (T := 2 ^ (- s)) in *.
  set (q := (L * T) / 1000) in *. set (r := (L * T) mod 1000) in *.
  set (q' := if (1000 <? 2 * r) || ((1000 =? 2 * r) && Z.odd q) then q + 1 else q) in *.
  assert (Hsgn : Z.sgn L = 1) by (apply Z.sgn_pos; lia).
  assert (Hiff : forall i, (q' <=? i * T) = (L <=? 1000 * i)).
  { intros i. specialize (Hord i ltac:(lia) HT). cbv zeta in Hord.
    destruct (Z.leb_spec q' (i * T)), (Z.leb_spec L (1000 * i)); try reflexivity; lia. }
  destruct (Z.eqb_spec q' (2 ^ 53)) as [Hmax|_].
  - unfold Float.overflows. cbn [Float.expo Float.mant].
    destruct (Z.leb_spec 0 (s + 1)) as [|_]; [lia|]. cbn [andb].
    eexists. split; [reflexivity|]. intros i.
    unfold Float.int_ge. cbn [Float.expo Float.mant]. rewrite Hsgn.
    destruct (Z.leb_spec 0 (s + 1)) as [|_]; [lia|].
    rewrite <- Hiff.
    assert (HT2 : T = 2 * 2 ^ (- (s + 1))).
    { unfold T. rewrite <- Z.pow_succ_r by lia. f_equal. lia. }
    destruct (Z.leb_spec (1 * 2 ^ 52) (i * 2 ^ (- (s + 1)))),
             (Z.leb_spec q' (i * T)); try reflexivity; exfalso;
      change (2 ^ 53) with (2 * 2 ^ 52) in Hmax; nia.
  - unfold Float.overflows. cbn [Float.expo Float.mant].
    destruct (Z.leb_spec 0 s) as [|_]; [lia|]. cbn [andb].
    eexists. split; [reflexivity|]. intros i.
    unfold Float.int_ge. cbn [Float.expo Float.mant]. rewrite Hsgn.
    destruct (Z.leb_spec 0 s) as [|_]; [lia|].
    rewrite Z.mul_1_l. apply Hiff.
Qed.

Lemma max_iterations_quotient (L : Z) :
  0 < L < 2 ^ 44 * 1000 ->
  exists x, max_iterations_of L = Some (PyFloat x)
            /\ forall i, int_ge i (PyFloat x) = (L <=? 1000 * i).
Proof.
  intros HL. destruct (quotient_cap L HL) as (x & Hx & Hge).
  exists x. unfold max_iterations_of. rewrite Hx.
  destruct (Z.eqb_spec L 0); [lia|]. now split.
Qed.

(** ** The limit of the query *)

Lemma max_limit_present lib url qs first rest L :
  urlparse_query lib url = Some qs ->
  dict_get (u "limit") (parse_qs lib qs) = Some (first :: rest) ->
  int_of_str lib first = Some L ->
  max_limit_of lib url = inr L.
Proof. unfold max_limit_of. now intros -> -> ->. Qed.

(** For a limit from 1 to 999 the quotient [L / 1000] is a double next to
    the exact quotient. *)
Lemma small_limit_rounds L :
  1 <= L <= 999 ->
  exists x, Float.true_divide L 1000 = Some x /\ rounds_to L 1000 x = true.
Proof.
  intros HL.
  assert (Hall : forallb (fun n => match Float.true_divide (Z.of_nat n) 1000 with
                                   | Some x => rounds_to (Z.of_nat n) 1000 x
                                   | None => false
                                   end) (seq 1 999) = true)
    by (vm_compute; reflexivity).
  rewrite forallb_forall in Hall.
  specialize (Hall (Z.to_nat L)). rewrite Z2Nat.id in Hall by lia.
  destruct (Float.true_divide L 1000) as [x|].
  - exists x. split; [reflexivity|]. apply Hall. apply in_seq. lia.
  - assert (false = true) by (apply Hall; apply in_seq; lia). discriminate.
Qed.

(** Every request of the loop asks for the page size, at the offsets
    [offset], [offset + default_limit], ... in turn. *)
Lemma fetch_loop_requests fuel :
  forall url hdrs P cap it off acc w recs w' printed,
    fetch_loop fuel url hdrs P cap it off acc w = Some (recs, w', printed) ->
    exists n, requests w' = requests w ++ page_requests url hdrs P off (S n).
Proof.
  induction fuel as [|fuel IH]; intros url hdrs P cap it off acc w recs w' printed;
    [discriminate|].
  cbn [fetch_loop get_records].
  set (req := mkRequest url hdrs (page_params P off)).
  assert (Hone : forall w0, requests w0 = requests w ++ [req] ->
                            exists n, requests w0
                                      = requests w ++ page_requests url hdrs P off (S n)).
  { intros w0 H0. exists 0%nat. rewrite H0. unfold page_requests; simpl.
    now rewrite Z.add_0_r. }
  destruct (status_code (pages w 0%nat) =? 200).
  - destruct ((Z.of_nat (List.length (json (pages w 0%nat))) <? P)
              || int_ge (it + 1) cap).
    + intros [= _ <- _]. now apply Hone.
    + intros Hrun. apply IH in Hrun. destruct Hrun as [n Hn].
      exists (S n). rewrite Hn, (page_requests_step url hdrs P off (S n)).
      cbn [requests]. now rewrite <- app_assoc.
  - intros [= _ <- _]. now apply Hone.
Qed.

(** C2.  The page size and the cap that the limit [L] of the query
    gives.

    - For [1 <= L <= 999] the page size is [L] and the cap is the float
      [L / 1000]: a double next to the exact quotient, which an iteration
      count [i] reaches exactly when [L <= 1000 * i], so that the first
      pass reaches it.  The loop then sends exactly one request, with the
      parameters [limit = L] and [offset = 0], and the records fetched are
      those of that one page if it is a success and none otherwise, so at
      most [L] when the page has no more records than asked for.
    - For [L = 0] and for [L >= 1000] the page size is 1000.
    - For [L = 0] the cap is the number 99999999.
    - The limit is 0 when the query has no [limit] field, and the number
      [int] reads from the first [limit] field otherwise.
    - Whatever the limit, the loop sends at least one request, and the
      [i]-th request it sends (from 0) has the parameters [limit], the
      page size, and [offset], [i] times the page size. *)
Theorem limit_sets_page_size lib url hdrs :
  (forall L, 1 <= L <= 999 ->
     default_limit_of L = L
     /\ max_iterations_of L = option_map PyFloat (Float.true_divide L 1000)
     /\ (exists x, max_iterations_of L = Some (PyFloat x)
                   /\ rounds_to L 1000 x = true
                   /\ (forall i, int_ge i (PyFloat x) = (L <=? 1000 * i))
                   /\ int_ge 1 (PyFloat x) = true)
     /\ forall fuel w,
          let page := pages w 0%nat in
          let fetched := if status_code page =? 200 then json page else [] in
          fetch_records (S fuel) url hdrs L w
          = Some (inr (fetched,
                       after_requests
                         [mkRequest url hdrs [(u "limit", L); (u "offset", 0)]] 1 w,
                       if status_code page =? 200 then []
                       else [u "Error: " ++ str_of_int (status_code page)]))
          /\ (Z.of_nat (List.length (json page)) <= L ->
              Z.of_nat (List.length fetched) <= L))
  /\ (forall L, L = 0 \/ 1000 <= L -> default_limit_of L = 1000)
  /\ max_iterations_of 0 = Some (PyInt 99999999)
  /\ (forall qs, urlparse_query lib url = Some qs ->
        (dict_get (u "limit") (parse_qs lib qs) = None ->
         max_limit_of lib url = inr 0)
        /\ (forall first rest L,
              dict_get (u "limit") (parse_qs lib qs) = Some (first :: rest) ->
              int_of_str lib first = Some L ->
              max_limit_of lib url = inr L))
  /\ (forall fuel L w recs w' printed,
        fetch_records fuel url hdrs L w = Some (inr (recs, w', printed)) ->
        exists sent,
          requests w' = requests w ++ sent
          /\ sent <> []
          /\ forall i req,
               nth_error sent i = Some req ->
               req = mkRequest url hdrs
                       [(u "limit", default_limit_of L);
                        (u "offset", Z.of_nat i * default_limit_of L)]).
Proof.
  split; [|split; [|split; [|split]]].
  - intros L HL.
    assert (Hsize : default_limit_of L = L).
    { unfold default_limit_of.
      destruct (Z.ltb_spec 0 L), (Z.ltb_spec L 1000); simpl; lia. }
    assert (Hcap : max_iterations_of L = option_map PyFloat (Float.true_divide L 1000)).
    { unfold max_iterations_of. destruct (Z.eqb_spec L 0); [lia|reflexivity]. }
    destruct (small_limit_rounds L HL) as (x & Hx & Hround).
    assert (Hge : forall i, int_ge i (PyFloat x) = (L <=? 1000 * i)).
    { assert (HL' : 0 < L < 2 ^ 44 * 1000).
      { split; [lia|]. apply Z.le_lt_trans with 999; [lia|reflexivity]. }
      destruct (max_iterations_quotient L HL') as (y & Hy & Hgey).
      rewrite Hcap, Hx in Hy. injection Hy as <-. exact Hgey. }
    assert (Hreach : int_ge 1 (PyFloat x) = true).
    { rewrite Hge. apply Z.leb_le. lia. }
    split; [exact Hsize|]. split; [exact Hcap|]. split.
    { exists x. rewrite Hcap, Hx. now repeat split. }
    intros fuel w page fetched. split.
    + unfold fetch_records. rewrite Hcap, Hx, Hsize. cbn [option_map].
      change (S fuel) with (1 + fuel)%nat. rewrite fetch_loop_run.
      * unfold fetched, page. unfold first_pages, page_requests. simpl.
        rewrite !app_nil_r. reflexivity.
      * intros i Hi. lia.
      * right; right. exact Hreach.
    + unfold fetched. destruct (status_code page =? 200); simpl; lia.
  - intros L HL. unfold default_limit_of.
    destruct (Z.ltb_spec 0 L), (Z.ltb_spec L 1000); simpl; lia.
  - reflexivity.
  - intros qs Hqs. split.
    + intros Hnone. exact (max_limit_absent lib url qs Hqs Hnone).
    + intros first rest L Hsome Hint.
      exact (max_limit_present lib url qs first rest L Hqs Hsome Hint).
  - intros fuel L w recs w' printed. unfold fetch_records.
    destruct (max_iterations_of L) as [cap|]; [|discriminate].
    destruct (fetch_loop fuel url hdrs (default_limit_of L) cap 0 0 [] w)
      as [[[recs0 w0] printed0]|] eqn:Hrun; [|discriminate].
    intros [= <- <- <-].
    destruct (fetch_loop_requests fuel _ _ _ _ _ _ _ _ _ _ _ Hrun) as [n Hn].
    exists (page_requests url hdrs (default_limit_of L) 0 (S n)).
    split; [exact Hn|]. split.
    + rewrite page_requests_step. discriminate.
    + intros i req Hreq. now apply page_requests_nth in Hreq.
Qed.

(** The query [?limit=50] on a world whose pages hold 80 records each:
    one request, for 50 records at offset 0, and a cap that the first pass
    reaches and no pass before it. *)
Lemma limit_sets_page_size_example :
  let url := u "https://acme.tulip.co/api/v3/w/1/tables/T1/records?limit=50" in
  let hdrs := [(u "authorization", u "Basic dG9rZW4=")] in
  let w := Sample.serving 200 [Sample.orders] (Sample.paged 5 80 3) in
  max_limit_of Sample.library url = inr 50
  /\ default_limit_of 50 = 50
  /\ (exists x, max_iterations_of 50 = Some (PyFloat x)
                /\ rounds_to 50 1000 x = true
                /\ int_ge 0 (PyFloat x) = false
                /\ int_ge 1 (PyFloat x) = true)
  /\ fetch_records 3 url hdrs 50 w
     = Some (inr (json (pages w 0%nat),
                  after_requests
                    [mkRequest url hdrs [(u "limit", 50); (u "offset", 0)]] 1 w,
                  [])).
Proof.
  intros url hdrs w.
  pose proof (limit_sets_page_size Sample.library url hdrs) as (Hsmall & _ & _ & Hquery & _).
  destruct (Hsmall 50 ltac:(lia)) as (Hsize & _ & (x & Hx & Hround & Hge & Hone) & Hfetch).
  destruct (Hquery (u "limit=50") eq_refl) as [_ Hpresent].
  split; [exact (Hpresent (u "50") [] 50 eq_refl eq_refl)|].
  split; [exact Hsize|].
  split.
  { exists x. split; [exact Hx|]. split; [exact Hround|].
    split; [exact (Hge 0)|exact Hone]. }
  exact (proj1 (Hfetch 2%nat w)).
Defined.

(** ** Renaming *)

Lemma dict_get_set (V : Type) (k c : pystr) (v : V) (d : dict V) :
  dict_get c (dict_set k v d) = if str_eqb k c then Some v else dict_get c d.
Proof.
  induction d as [|[k' v'] d IH]; simpl; [reflexivity|].
  destruct (str_eqb_spec k' k) as [->|Hk]; simpl.
  - now destruct (str_eqb k c).
  - rewrite IH. destruct (str_eqb_spec k c) as [->|Hc]; [|reflexivity].
    apply str_eqb_neq in Hk. now rewrite Hk.
Qed.

Lemma fold_left_snoc (A B : Type) (f : A -> B -> A) (l : list B) (b : B) (a : A) :
  fold_left f (l ++ [b]) a = f (fold_left f l a) b.
Proof. now rewrite fold_left_app. Qed.

(** The dict built on line 134 maps a name to the label of the last entry
    with that name. *)
Lemma renamed_column_mapping (table_columns : list ColumnSpec.t) (c : pystr) :
  renamed (column_mapping table_columns) c = display_label table_columns c.
Proof.
  unfold renamed, display_label, column_mapping.
  induction table_columns as [|e cols IH] using rev_ind; [reflexivity|].
  rewrite fold_left_snoc, dict_get_set, rev_app_distr. simpl.
  destruct (str_eqb (ColumnSpec.name e) c); [reflexivity|exact IH].
Qed.

Lemma columns_rename (mapping : dict pystr) (df : DataFrame) :
  columns (rename mapping df) = map (renamed mapping) (columns df).
Proof. unfold columns, rename. cbn [data]. now rewrite !map_map. Qed.

Lemma display_label_unlisted (table_columns : list ColumnSpec.t) (c : pystr) :
  (forall e, In e table_columns -> ColumnSpec.name e <> c) ->
  display_label table_columns c = c.
Proof.
  intros H. unfold display_label.
  destruct (find _ (rev table_columns)) as [e|] eqn:Hfind; [|reflexivity].
  apply find_some in Hfind as [Hin Hname]. apply in_rev in Hin.
  apply str_eqb_eq in Hname. now destruct (H e Hin).
Qed.

(** C7, as the code has it.  With the rename option, a column named [c]
    is first given the label the metadata has for [c] (that of the last
    entry named [c]; a name the metadata does not list is kept), and a
    column that is then named [_createdAt] or [_updatedAt] is given the
    label [Created_At] or [Updated_At].  So a timestamp column gets its
    fixed label when the metadata has no entry for it; rows and values are
    untouched.  Without the option the frame is left as it is. *)
Theorem rename_labels_columns (table_columns : list ColumnSpec.t) (df : DataFrame) :
  let df' := rename_stage true table_columns df in
  columns df'
  = map (fun c => renamed timestamp_labels (display_label table_columns c))
        (columns df)
  /\ n_rows df' = n_rows df
  /\ map snd (data df') = map snd (data df)
  /\ (forall c, (forall e, In e table_columns -> ColumnSpec.name e <> c) ->
                display_label table_columns c = c)
  /\ ((forall e, In e table_columns -> ColumnSpec.name e <> createdAt) ->
      renamed timestamp_labels (display_label table_columns createdAt)
      = u "Created_At")
  /\ ((forall e, In e table_columns -> ColumnSpec.name e <> updatedAt) ->
      renamed timestamp_labels (display_label table_columns updatedAt)
      = u "Updated_At")
  /\ rename_stage false table_columns df = df.
Proof.
  intros df'. unfold df', rename_stage.
  split; [|split; [|split; [|split; [|split; [|split]]]]].
  - rewrite !columns_rename, map_map. apply map_ext. intros c.
    now rewrite renamed_column_mapping.
  - reflexivity.
  - unfold rename. cbn [data]. now rewrite !map_map.
  - apply display_label_unlisted.
  - intros H. now rewrite display_label_unlisted.
  - intros H. now rewrite display_label_unlisted.
  - reflexivity.
Qed.

(** C7 as stated fails when the metadata lists a timestamp column.  The
    entry names [_createdAt] and labels it [Made]: the first renaming turns
    the column into [Made], the second finds no [_createdAt] to rename, and
    the frame returned has the column [Made] and no [Created_At]. *)
Lemma listed_timestamp_keeps_label :
  let table_columns := [ColumnSpec.mk createdAt (u "Made")] in
  let all_records := [[(createdAt, Json.Int 1700000000000000000)]] in
  columns (rename_stage true table_columns
             (DataFrame_of_records Sample.library all_records))
  = [u "Made"]
  /\ columns (fst (to_frame Sample.library true table_columns all_records))
     = [u "Made"]
  /\ ~ In (u "Created_At")
         (columns (fst (to_frame Sample.library true table_columns all_records))).
Proof.
  intros table_columns all_records.
  split; [reflexivity|]. split; [reflexivity|].
  intros [H|[]]. discriminate.
Qed.

(** The labels of a frame after the renaming of the example table. *)
Lemma rename_labels_columns_example :
  columns (rename_stage true (TableInfo.columns Sample.orders)
             (DataFrame_of_records Sample.library [Sample.order 0]))
  = [u "ID"; u "order qty"; u "Created_At"; u "Updated_At"].
Proof.
  rewrite (proj1 (rename_labels_columns (TableInfo.columns Sample.orders)
                    (DataFrame_of_records Sample.library [Sample.order 0]))).
  reflexivity.
Defined.

(** ** The columns through a pass of the timestamp loop *)

Lemma setitem_setitem (key : pystr) (col col' : Column) (df : DataFrame) :
  existsb (str_eqb key) (columns df) = true ->
  setitem key col (setitem key col' df) = setitem key col df.
Proof.
  intros He. unfold setitem at 1.
  rewrite (columns_setitem_present key col' df He), He.
  unfold setitem. rewrite He. cbn [n_rows data]. f_equal.
  rewrite map_map. apply map_ext. intros [k c]. cbn [fst].
  destruct (str_eqb k key) eqn:Hk; cbn [fst]; now rewrite Hk.
Qed.

Lemma filter_map_untouched (A : Type) (p : A -> bool) (g : A -> A) (l : list A) :
  (forall x, p (g x) = p x) ->
  (forall x, p x = true -> g x = x) ->
  filter p (map g l) = filter p l.
Proof.
  intros Hp Hg. induction l as [|x l IH]; [reflexivity|].
  simpl. rewrite Hp. destruct (p x) eqn:Hx; [|exact IH].
  now rewrite (Hg x Hx), IH.
Qed.

Lemma getitem_setitem_other (key key' : pystr) (col : Column) (df : DataFrame) :
  key' <> key -> getitem key' (setitem key col df) = getitem key' df.
Proof.
  intros Hne. unfold getitem, setitem.
  destruct (existsb (str_eqb key) (columns df)); cbn [data].
  - rewrite filter_map_untouched; [reflexivity| |].
    + intros [k c]. cbn [fst]. now destruct (str_eqb k key).
    + intros [k c]. cbn [fst]. intros Hk. apply str_eqb_eq in Hk. subst k.
      apply str_eqb_neq in Hne. now rewrite Hne.
  - rewrite filter_app. cbn [filter fst].
    assert (Hkey : str_eqb key key' = false) by (apply str_eqb_neq; congruence).
    now rewrite Hkey, app_nil_r.
Qed.

Lemma convert_timezone_parsed (lib : Library) (utc_col : pystr) (df : DataFrame)
    (printed : list pystr) col zone instants :
  getitem utc_col df = Some col ->
  to_datetime lib col = Some (Datetimes zone instants) ->
  convert_timezone lib utc_col (df, printed)
  = (setitem utc_col (Datetimes (Some Montreal) instants) df, printed).
Proof.
  intros Hget Hparse. unfold convert_timezone. rewrite Hget, Hparse.
  destruct zone; cbn;
    now rewrite (setitem_setitem _ _ _ _ (getitem_some_exists _ _ _ Hget)).
Qed.

Lemma convert_timezone_skipped (lib : Library) (utc_col : pystr) (df : DataFrame)
    (printed : list pystr) :
  getitem utc_col df = None
  \/ (exists col, getitem utc_col df = Some col /\ to_datetime lib col = None) ->
  convert_timezone lib utc_col (df, printed) = (df, printed ++ [missing_line utc_col]).
Proof.
  intros [Hnone|(col & Hget & Hparse)]; unfold convert_timezone.
  - now rewrite Hnone.
  - now rewrite Hget, Hparse.
Qed.

(** A pass of the timestamp loop is a map over the columns that keeps the
    labels and touches the columns labelled [utc_col] only. *)
Lemma convert_timezone_data (lib : Library) (utc_col : pystr) (df : DataFrame)
    (printed : list pystr) :
  exists g,
    data (fst (convert_timezone lib utc_col (df, printed))) = map g (data df)
    /\ forall kc, fst (g kc) = fst kc /\ (fst kc <> utc_col -> g kc = kc).
Proof.
  assert (Hid : exists g : pystr * Column -> pystr * Column,
             data df = map g (data df)
             /\ forall kc, fst (g kc) = fst kc /\ (fst kc <> utc_col -> g kc = kc)).
  { exists (fun kc => kc). split; [now rewrite map_id|now split]. }
  assert (Hset : forall col df', 
             existsb (str_eqb utc_col) (columns df') = true ->
             data (setitem utc_col col df')
             = map (fun kc => if str_eqb (fst kc) utc_col then (fst kc, col) else kc)
                   (data df')).
  { intros col df' He. unfold setitem. now rewrite He. }
  assert (Hg : forall (col : Column) (kc : pystr * Column),
             fst (if str_eqb (fst kc) utc_col then (fst kc, col) else kc) = fst kc
             /\ (fst kc <> utc_col ->
                 (if str_eqb (fst kc) utc_col then (fst kc, col) else kc) = kc)).
  { intros col kc. destruct (str_eqb_spec (fst kc) utc_col); split; auto.
    intros; contradiction. }
  unfold convert_timezone.
  destruct (getitem utc_col df) as [col|] eqn:Hget; [|exact Hid].
  pose proof (getitem_some_exists _ _ _ Hget) as Hex.
  destruct (to_datetime lib col) as [parsed|]; [|exact Hid].
  assert (Hone : exists g,
             data (setitem utc_col parsed df) = map g (data df)
             /\ forall kc, fst (g kc) = fst kc /\ (fst kc <> utc_col -> g kc = kc)).
  { eexists. split; [apply (Hset parsed df Hex)|apply Hg]. }
  assert (Htwo : forall c, exists g,
             data (setitem utc_col c (setitem utc_col parsed df)) = map g (data df)
             /\ forall kc, fst (g kc) = fst kc /\ (fst kc <> utc_col -> g kc = kc)).
  { intros c. rewrite (setitem_setitem utc_col c parsed df Hex).
    eexists. split; [apply (Hset c df Hex)|apply Hg]. }
  destruct (dt_tz parsed) as [[zone|]|]; cbn [fst]; try exact Hone.
  - destruct (tz_convert Montreal parsed); cbn [fst]; [apply Htwo|exact Hone].
  - destruct (tz_localize_UTC parsed) as [localized|]; cbn [fst]; [|exact Hone].
    destruct (tz_convert Montreal localized); cbn [fst]; [apply Htwo|exact Hone].
Qed.

Lemma Forall2_map_right (A B : Type) (R : A -> B -> Prop) (g : A -> B) (l : list A) :
  (forall x, R x (g x)) -> Forall2 R l (map g l).
Proof. intros H. induction l; simpl; constructor; auto. Qed.

Lemma getitem_setitem_same (key : pystr) (col col0 : Column) (df : DataFrame) :
  getitem key df = Some col0 -> getitem key (setitem key col df) = Some col.
Proof.
  intros Hget. pose proof (getitem_some_exists _ _ _ Hget) as He.
  unfold getitem in *. unfold setitem. rewrite He. cbn [data].
  assert (Hfilter : forall l,
             filter (fun kc : pystr * Column => str_eqb (fst kc) key)
               (map (fun kc => if str_eqb (fst kc) key then (fst kc, col) else kc) l)
             = map (fun kc => (fst kc, col))
                 (filter (fun kc : pystr * Column => str_eqb (fst kc) key) l)).
  { induction l as [|[k c] l IH]; [reflexivity|]. cbn [map filter fst].
    destruct (str_eqb k key) eqn:Hk; cbn [fst]; rewrite Hk; [|exact IH].
    cbn [map fst]. now rewrite IH. }
  rewrite Hfilter.
  destruct (filter (fun kc : pystr * Column => str_eqb (fst kc) key) (data df))
    as [|[k c] [|kc l]]; try discriminate.
  reflexivity.
Qed.

(** A pass leaves the columns under other labels as they are. *)
Lemma convert_timezone_other (lib : Library) (utc_col key : pystr) (df : DataFrame)
    (printed : list pystr) :
  key <> utc_col ->
  getitem key (fst (convert_timezone lib utc_col (df, printed))) = getitem key df.
Proof.
  intros Hne. destruct (convert_timezone_data lib utc_col df printed) as (g & Hd & Hg).
  unfold getitem. rewrite Hd. rewrite filter_map_untouched; [reflexivity| |].
  - intros kc. now rewrite (proj1 (Hg kc)).
  - intros kc Hk. apply str_eqb_eq in Hk. apply (proj2 (Hg kc)). congruence.
Qed.

(** A column that [pd.to_datetime] turns into one that is not
    datetime-like is replaced by it, and the line is printed. *)
Lemma convert_timezone_unconverted (lib : Library) (utc_col : pystr) (df : DataFrame)
    (printed : list pystr) col cells :
  getitem utc_col df = Some col ->
  to_datetime lib col = Some (Objects cells) ->
  convert_timezone lib utc_col (df, printed)
  = (setitem utc_col (Objects cells) df, printed ++ [missing_line utc_col]).
Proof.
  intros Hget Hparse. unfold convert_timezone. now rewrite Hget, Hparse.
Qed.

(** The lines of a pass: none when the column can be converted, the line
    for the column otherwise. *)
Lemma convert_timezone_lines (lib : Library) (utc_col : pystr) (df : DataFrame)
    (printed : list pystr) :
  snd (convert_timezone lib utc_col (df, printed))
  = printed ++ (if convertible lib utc_col df then [] else [missing_line utc_col]).
Proof.
  unfold convertible.
  destruct (getitem utc_col df) as [col|] eqn:Hget.
  - destruct (to_datetime lib col) as [[cells|zone instants]|] eqn:Hparse.
    + now rewrite (convert_timezone_unconverted lib utc_col df printed col cells).
    + rewrite (convert_timezone_parsed lib utc_col df printed col zone instants)
        by assumption.
      cbn [snd]. now rewrite app_nil_r.
    + rewrite convert_timezone_skipped; [reflexivity|]. right. now exists col.
  - rewrite convert_timezone_skipped; [reflexivity|now left].
Qed.

Lemma Forall2_and_left (A B : Type) (P : A -> Prop) (R : A -> B -> Prop)
    (l : list A) (l' : list B) :
  Forall P l -> Forall2 R l l' -> Forall2 (fun a b => P a /\ R a b) l l'.
Proof.
  intros HP HR. induction HR as [|a b l l' Hab HR IH]; constructor.
  - split; [now inversion HP|exact Hab].
  - apply IH. now inversion HP.
Qed.

Lemma Forall2_map_eq (A B C : Type) (P : A -> bool) (f : A -> C) (g : B -> C)
    (l : list A) (l' : list B) :
  Forall2 (fun a b => P a = true -> g b = f a) l l' ->
  forallb P l = true -> map g l' = map f l.
Proof.
  intros HR. induction HR as [|a b l l' Hab HR IH]; [reflexivity|].
  cbn [forallb map]. intros Hall. apply andb_true_iff in Hall as [Ha Hl].
  now rewrite (Hab Ha), (IH Hl).
Qed.

(** From the frame built from the records to the frame returned: the
    columns one for one, each under its returned label, and the columns
    other than the two timestamp columns with their values. *)
Lemma to_frame_data (lib : Library) (rename_columns : bool)
    (table_columns : list ColumnSpec.t) (all_records : list record) :
  Forall2 (fun kc kc' =>
             fst kc' = returned_label rename_columns table_columns (fst kc)
             /\ (fst kc <> createdAt -> fst kc <> updatedAt -> snd kc' = snd kc))
    (data (build_frame lib table_columns all_records))
    (data (fst (to_frame lib rename_columns table_columns all_records))).
Proof.
  unfold to_frame.
  set (built := build_frame lib table_columns all_records).
  unfold convert_timezones. cbn [fold_left].
  destruct (convert_timezone_data lib createdAt built []) as (g1 & Hd1 & Hg1).
  destruct (convert_timezone lib createdAt (built, [])) as [df1 out1].
  destruct (convert_timezone_data lib updatedAt df1 out1) as (g2 & Hd2 & Hg2).
  destruct (convert_timezone lib updatedAt (df1, out1)) as [df2 out2].
  cbn [fst] in *.
  assert (Hdata : data (standardize (rename_stage rename_columns table_columns df2))
                  = map (fun kc => (returned_label rename_columns table_columns (fst kc),
                                    snd kc)) (data df2)).
  { unfold standardize, relabel, rename_stage, returned_label.
    destruct rename_columns; cbn [data rename]; now rewrite ?map_map. }
  rewrite Hdata, Hd2, Hd1, !map_map. apply Forall2_map_right.
  intros kc. cbn [fst snd].
  destruct (Hg1 kc) as [Hl1 Hv1]. destruct (Hg2 (g1 kc)) as [Hl2 Hv2].
  split; [now rewrite Hl2, Hl1|].
  intros Hc Hu. rewrite Hv2 by now rewrite Hl1. now rewrite Hv1.
Qed.

(** ** The frame for no records *)

Lemma columns_setitem (key : pystr) (col : Column) (df : DataFrame) :
  columns (setitem key col df)
  = if existsb (str_eqb key) (columns df) then columns df else columns df ++ [key].
Proof.
  destruct (existsb (str_eqb key) (columns df)) eqn:He.
  - now apply columns_setitem_present.
  - unfold setitem. rewrite He. unfold columns. cbn [data]. now rewrite map_app.
Qed.

Lemma In_columns_setitem (key c : pystr) (col : Column) (df : DataFrame) :
  In c (columns (setitem key col df)) <-> In c (columns df) \/ c = key.
Proof.
  rewrite columns_setitem.
  destruct (existsb (str_eqb key) (columns df)) eqn:He.
  - split; [now left|]. intros [H| ->]; [exact H|].
    apply existsb_exists in He as (x & Hx & Hkey).
    apply str_eqb_eq in Hkey. now subst x.
  - rewrite in_app_iff. simpl. intuition.
Qed.

Lemma setitem_valueless (key : pystr) (df : DataFrame) :
  Forall (fun kc => snd kc = Objects []) (data df) ->
  Forall (fun kc => snd kc = Objects []) (data (setitem key (Objects []) df)).
Proof.
  intros H. unfold setitem. destruct (existsb (str_eqb key) (columns df)); cbn [data].
  - rewrite Forall_map. eapply Forall_impl; [|exact H].
    intros [k c] Hc. simpl in *. now destruct (str_eqb k key).
  - apply Forall_app. split; [exact H|]. now constructor.
Qed.

Lemma columns_standardize (df : DataFrame) :
  columns (standardize df) = standardize_names (columns df).
Proof.
  unfold standardize, relabel, columns, standardize_names, standardize_name.
  cbn [data]. now rewrite !map_map.
Qed.

Lemma columns_rename_stage (b : bool) (table_columns : list ColumnSpec.t)
    (df1 df2 : DataFrame) :
  columns df1 = columns df2 ->
  columns (rename_stage b table_columns df1)
  = columns (rename_stage b table_columns df2).
Proof.
  intros H. unfold rename_stage. destruct b; [|exact H].
  now rewrite !columns_rename, H.
Qed.

(** C6.  When no record has been fetched, the frame built on lines
    111-119 has no rows, its columns are the internal names of the
    metadata and the three columns [_createdAt], [_updatedAt] and
    [_Sequencenumber] (appended in this order after the names, when the
    metadata lists none of them), and no column holds a value.

    The frame returned has no rows either and the same columns one for
    one, in the same order, but not under these names: a column is
    returned under its name as renamed (the label of the metadata, then
    [Created_At] and [Updated_At] for the two timestamp names) when
    [rename_columns] is set, and normalised in either case.  This is
    stated for the labels made of Basic Latin characters, on which the
    case tables of the embedding are those of Python.  The columns other
    than the two timestamp columns are returned without a value. *)
Theorem empty_frame_columns (lib : Library) (table_columns : list ColumnSpec.t) :
  let names := map ColumnSpec.name table_columns in
  let df := build_frame lib table_columns [] in
  n_rows df = 0%nat
  /\ (forall c, In c (columns df)
                <-> In c names \/ c = u "_createdAt" \/ c = u "_updatedAt"
                    \/ c = u "_Sequencenumber")
  /\ Forall (fun kc => snd kc = Objects []) (data df)
  /\ (~ In (u "_createdAt") names /\ ~ In (u "_updatedAt") names
      /\ ~ In (u "_Sequencenumber") names ->
      columns df = names ++ [u "_createdAt"; u "_updatedAt"; u "_Sequencenumber"])
  /\ (forall rename_columns,
        let returned := fst (to_frame lib rename_columns table_columns []) in
        let shown c :=
          if rename_columns
          then renamed [(u "_createdAt", u "Created_At"); (u "_updatedAt", u "Updated_At")]
                 (display_label table_columns c)
          else c in
        n_rows returned = 0%nat
        /\ Forall2 (fun kc kc' =>
                      (ascii_name (shown (fst kc)) = true ->
                       fst kc' = standardize_name (shown (fst kc)))
                      /\ (fst kc <> u "_createdAt" -> fst kc <> u "_updatedAt" ->
                          snd kc' = Objects []))
             (data df) (data returned)
        /\ (forallb (fun c => ascii_name (shown c)) (columns df) = true ->
            columns returned = map (fun c => standardize_name (shown c)) (columns df))
        /\ (~ In (u "_createdAt") names /\ ~ In (u "_updatedAt") names
            /\ ~ In (u "_Sequencenumber") names ->
            forallb (fun c => ascii_name (shown c)) names = true ->
            columns returned
            = map (fun c => standardize_name (shown c)) names
              ++ (if rename_columns
                  then [u "Created_At"; u "Updated_At"; u "_Sequencenumber"]
                  else [u "_Createdat"; u "_Updatedat"; u "_Sequencenumber"]))).
Proof.
  intros names df.
  assert (Hdf : df = setitem Sequencenumber (Objects [])
                       (setitem updatedAt (Objects [])
                          (setitem createdAt (Objects [])
                             (DataFrame_of_columns names)))).
  { unfold df, build_frame. cbn [DataFrame_of_records empty n_rows List.length
                                   Nat.eqb orb].
    unfold setitem_None. now rewrite !n_rows_setitem. }
  assert (Hnames : columns (DataFrame_of_columns names) = names).
  { unfold columns, DataFrame_of_columns. cbn [data]. rewrite map_map.
    apply map_id. }
  assert (Hvalueless : Forall (fun kc => snd kc = Objects []) (data df)).
  { rewrite Hdf. do 3 apply setitem_valueless.
    unfold DataFrame_of_columns. cbn [data]. rewrite Forall_map.
    now apply Forall_forall. }
  assert (Hplain : ~ In (u "_createdAt") names /\ ~ In (u "_updatedAt") names
                   /\ ~ In (u "_Sequencenumber") names ->
                   columns df
                   = names ++ [u "_createdAt"; u "_updatedAt"; u "_Sequencenumber"]).
  { change (u "_createdAt") with createdAt. change (u "_updatedAt") with updatedAt.
    change (u "_Sequencenumber") with Sequencenumber.
    intros (Hc & Hu & Hs).
    assert (Hno : forall key l, ~ In key l -> existsb (str_eqb key) l = false).
    { intros key l Hin. apply not_true_is_false. intros He.
      apply existsb_exists in He as (x & Hx & Hkey).
      apply str_eqb_eq in Hkey. now subst x. }
    rewrite Hdf, !columns_setitem, Hnames.
    rewrite (Hno createdAt names Hc).
    rewrite (Hno updatedAt (names ++ [createdAt])).
    + rewrite (Hno Sequencenumber ((names ++ [createdAt]) ++ [updatedAt])).
      * now rewrite <- !app_assoc.
      * rewrite !in_app_iff. simpl. intros [[H|[H|[]]]|[H|[]]];
          [now apply Hs|discriminate|discriminate].
    + rewrite in_app_iff. simpl. intros [H|[H|[]]]; [now apply Hu|discriminate]. }
  split; [|split; [|split; [|split]]].
  - rewrite Hdf. now rewrite !n_rows_setitem.
  - intros c. rewrite Hdf, !In_columns_setitem, Hnames.
    change (u "_createdAt") with createdAt. change (u "_updatedAt") with updatedAt.
    change (u "_Sequencenumber") with Sequencenumber. intuition.
  - exact Hvalueless.
  - exact Hplain.
  - intros rename_columns returned shown.
    assert (Hshown : forall c, returned_label rename_columns table_columns c
                               = standardize_name (shown c)).
    { intros c. unfold returned_label, shown.
      destruct rename_columns; [|reflexivity].
      now rewrite renamed_column_mapping. }
    assert (Hcolumns : Forall2 (fun kc kc' =>
                          (ascii_name (shown (fst kc)) = true ->
                           fst kc' = standardize_name (shown (fst kc)))
                          /\ (fst kc <> u "_createdAt" -> fst kc <> u "_updatedAt" ->
                              snd kc' = Objects []))
                         (data df) (data returned)).
    { eapply Forall2_impl;
        [|exact (Forall2_and_left _ _ _ _ _ _ Hvalueless
                   (to_frame_data lib rename_columns table_columns []))].
      intros kc kc' (Hnone & Hlabel & Hvalue). split.
      - intros _. now rewrite Hlabel, Hshown.
      - intros Hc Hu. now rewrite (Hvalue Hc Hu). }
    assert (Hlabels : forallb (fun c => ascii_name (shown c)) (columns df) = true ->
                      columns returned
                      = map (fun c => standardize_name (shown c)) (columns df)).
    { intros Hascii. unfold columns in *. rewrite map_map.
      apply (Forall2_map_eq _ _ _ (fun kc => ascii_name (shown (fst kc)))
               (fun kc => standardize_name (shown (fst kc))) fst).
      - eapply Forall2_impl; [|exact Hcolumns]. intros kc kc' [Hl _]. exact Hl.
      - rewrite forallb_forall in *. intros kc Hin. apply Hascii.
        now apply in_map. }
    split; [|split; [|split]].
    + unfold returned. rewrite n_rows_to_frame. fold df.
      rewrite Hdf. now rewrite !n_rows_setitem.
    + exact Hcolumns.
    + exact Hlabels.
    + intros Hnone Hascii.
      assert (Hunlisted : forall c, ~ In c names -> display_label table_columns c = c).
      { intros c Hc. apply display_label_unlisted. intros e He Hname.
        apply Hc. unfold names. rewrite <- Hname. now apply in_map. }
      destruct Hnone as (Hc & Hu & Hs).
      assert (Hreserved : map shown [u "_createdAt"; u "_updatedAt"; u "_Sequencenumber"]
                          = if rename_columns
                            then [u "Created_At"; u "Updated_At"; u "_Sequencenumber"]
                            else [u "_createdAt"; u "_updatedAt"; u "_Sequencenumber"]).
      { unfold shown. cbn [map].
        destruct rename_columns; [|reflexivity].
        now rewrite (Hunlisted _ Hc), (Hunlisted _ Hu), (Hunlisted _ Hs). }
      rewrite Hlabels; rewrite (Hplain (conj Hc (conj Hu Hs))).
      * rewrite map_app. f_equal.
        rewrite <- (map_map shown standardize_name), Hreserved.
        now destruct rename_columns.
      * rewrite forallb_app, Hascii. cbn [andb].
        change (forallb ascii_name
                  (map shown [u "_createdAt"; u "_updatedAt"; u "_Sequencenumber"])
                = true).
        rewrite Hreserved. now destruct rename_columns.
Qed.

(** The frame for no records of the example table, as built and as
    returned with the renaming. *)
Lemma empty_frame_columns_example :
  let table_columns := TableInfo.columns Sample.orders in
  columns (build_frame Sample.library table_columns [])
  = [u "id"; u "abcde_qty"; u "_createdAt"; u "_updatedAt"; u "_Sequencenumber"]
  /\ columns (fst (to_frame Sample.library true table_columns []))
     = [u "ID"; u "Order_Qty"; u "Created_At"; u "Updated_At"; u "_Sequencenumber"].
Proof.
  intros table_columns.
  pose proof (empty_frame_columns Sample.library table_columns)
    as (_ & _ & _ & Hbuilt & Hreturned).
  split.
  - apply Hbuilt. repeat split; intros [H|[H|[]]]; discriminate.
  - destruct (Hreturned true) as (_ & _ & _ & Hlabels).
    rewrite Hlabels; [reflexivity| |reflexivity].
    repeat split; intros [H|[H|[]]]; discriminate.
Defined.

(** The claim as worded does not hold of the table a caller receives.  A
    call for the example table, answered with no record: the table
    returned has no rows, and its columns are not the internal names [id]
    and [abcde_qty] with [_createdAt], [_updatedAt] and
    [_Sequencenumber], but [ID], [Order_Qty], [Created_At], [Updated_At]
    and [_Sequencenumber]; without the renaming they are [Id],
    [Abcde_Qty], [_Createdat], [_Updatedat] and [_Sequencenumber]. *)
Lemma returned_columns_are_relabelled :
  let w := Sample.serving 200 [Sample.orders] (fun _ => mkResponse 200 []) in
  let call rename_columns :=
    import_tulip_table Sample.library 1 w (Some (u "acme.tulip.co"))
      (Some (u "token")) (Some (u "T1")) None rename_columns (u "") in
  let internal :=
    [u "id"; u "abcde_qty"; u "_createdAt"; u "_updatedAt"; u "_Sequencenumber"] in
  map ColumnSpec.name (TableInfo.columns Sample.orders) = [u "id"; u "abcde_qty"]
  /\ (exists df, option_map result (call true) = Some (Return (Frame df))
                 /\ n_rows df = 0%nat
                 /\ columns df = [u "ID"; u "Order_Qty"; u "Created_At";
                                  u "Updated_At"; u "_Sequencenumber"]
                 /\ columns df <> internal)
  /\ (exists df, option_map result (call false) = Some (Return (Frame df))
                 /\ n_rows df = 0%nat
                 /\ columns df = [u "Id"; u "Abcde_Qty"; u "_Createdat";
                                  u "_Updatedat"; u "_Sequencenumber"]
                 /\ columns df <> internal).
Proof.
  intros w call internal. split; [reflexivity|]. split.
  - eexists. split; [vm_compute; reflexivity|].
    split; [reflexivity|]. split; [reflexivity|discriminate].
  - eexists. split; [vm_compute; reflexivity|].
    split; [reflexivity|]. split; [reflexivity|discriminate].
Qed.

(** ** Timestamps *)

(** C8.  One pass of the loop over the two timestamp columns, for the
    column [utc_col] of the frame [df].

    - The column is there and [pd.to_datetime] reads it as date-times
      without a zone: the column read back from the frame after the pass
      is in the zone America/Montreal and holds, as instants, the readings
      taken as UTC.  Nothing is printed.
    - The column is there and is read as date-times with a zone: the
      column read back is in the zone America/Montreal and holds the same
      instants.  Nothing is printed.
    - In both cases a value of the column reads, on the clock, its
      instant plus the offset that the time-zone database gives for
      America/Montreal at that instant, which is where daylight saving
      time comes in.
    - The column is not there, or [pd.to_datetime] raises: the frame is
      left as it is and the line for the column is printed.  If
      [pd.to_datetime] returns a column that is not datetime-like, that
      column takes the place of the one parsed and the line is printed.
    - In every case the pass ends, with a frame of the same rows and
      labels whose other columns are untouched, having printed nothing or
      that one line.
    - The loop is the pass for [_createdAt] followed by the pass for
      [_updatedAt]. *)
Theorem timestamps_converted (lib : Library) (utc_col : pystr) (df : DataFrame)
    (printed : list pystr) :
  let pass := convert_timezone lib utc_col (df, printed) in
  let line := u "Column " ++ utc_col ++ u " does not Exist" in
  (forall col readings,
      getitem utc_col df = Some col ->
      to_datetime lib col = Some (Datetimes None readings) ->
      getitem utc_col (fst pass)
      = Some (Datetimes (Some (u "America/Montreal")) readings)
      /\ snd pass = printed)
  /\ (forall col zone instants,
        getitem utc_col df = Some col ->
        to_datetime lib col = Some (Datetimes (Some zone) instants) ->
        getitem utc_col (fst pass)
        = Some (Datetimes (Some (u "America/Montreal")) instants)
        /\ snd pass = printed)
  /\ (forall col zone instants utcoffset,
        getitem utc_col df = Some col ->
        to_datetime lib col = Some (Datetimes zone instants) ->
        exists converted,
          getitem utc_col (fst pass) = Some converted
          /\ clock_readings utcoffset converted
             = Some (map (option_map
                            (fun instant =>
                               instant + utcoffset (u "America/Montreal") instant))
                         instants))
  /\ (getitem utc_col df = None
      \/ (exists col, getitem utc_col df = Some col /\ to_datetime lib col = None) ->
      pass = (df, printed ++ [line]))
  /\ (forall col cells,
        getitem utc_col df = Some col ->
        to_datetime lib col = Some (Objects cells) ->
        getitem utc_col (fst pass) = Some (Objects cells)
        /\ snd pass = printed ++ [line])
  /\ (n_rows (fst pass) = n_rows df
      /\ columns (fst pass) = columns df
      /\ (forall key, key <> utc_col -> getitem key (fst pass) = getitem key df)
      /\ (snd pass = printed \/ snd pass = printed ++ [line]))
  /\ convert_timezones lib df
     = convert_timezone lib (u "_updatedAt")
         (convert_timezone lib (u "_createdAt") (df, [])).
Proof.
  intros pass line.
  assert (Hconverted : forall col zone instants,
             getitem utc_col df = Some col ->
             to_datetime lib col = Some (Datetimes zone instants) ->
             getitem utc_col (fst pass)
             = Some (Datetimes (Some (u "America/Montreal")) instants)
             /\ snd pass = printed).
  { intros col zone instants Hget Hparse. unfold pass.
    rewrite (convert_timezone_parsed lib utc_col df printed col zone instants Hget Hparse).
    cbn [fst snd]. split; [|reflexivity].
    exact (getitem_setitem_same utc_col _ col df Hget). }
  split; [|split; [|split; [|split; [|split; [|split]]]]].
  - intros col readings. apply Hconverted.
  - intros col zone instants. apply Hconverted.
  - intros col zone instants utcoffset Hget Hparse.
    exists (Datetimes (Some (u "America/Montreal")) instants).
    split; [exact (proj1 (Hconverted col zone instants Hget Hparse))|reflexivity].
  - intros Hskip. exact (convert_timezone_skipped lib utc_col df printed Hskip).
  - intros col cells Hget Hparse. unfold pass.
    rewrite (convert_timezone_unconverted lib utc_col df printed col cells Hget Hparse).
    cbn [fst snd]. split; [|reflexivity].
    exact (getitem_setitem_same utc_col _ col df Hget).
  - pose proof (convert_timezone_shape lib utc_col df printed) as [Hrows Hcols].
    split; [exact Hrows|]. split; [exact Hcols|]. split.
    + intros key Hkey. now apply convert_timezone_other.
    + unfold pass. rewrite convert_timezone_lines.
      destruct (convertible lib utc_col df); [left; apply app_nil_r|now right].
  - reflexivity.
Qed.

(** The pass for [_createdAt] on a frame of one example record, whose
    timestamps have no zone; the other timestamp column is as it was. *)
Lemma timestamps_converted_example :
  let df := DataFrame_of_records Sample.library [Sample.order 0] in
  let pass := convert_timezone Sample.library (u "_createdAt") (df, []) in
  getitem (u "_createdAt") df = Some (Objects [Some (Json.Int 1700000000000000000)])
  /\ getitem (u "_createdAt") (fst pass)
     = Some (Datetimes (Some (u "America/Montreal")) [Some 1700000000000000000])
  /\ snd pass = []
  /\ getitem (u "_updatedAt") (fst pass)
     = Some (Objects [Some (Json.Int 1700000000000000000)]).
Proof.
  intros df pass.
  pose proof (timestamps_converted Sample.library (u "_createdAt") df [])
    as (Hnaive & _ & _ & _ & _ & (_ & _ & Hother & _) & _).
  split; [reflexivity|].
  destruct (Hnaive (Objects [Some (Json.Int 1700000000000000000)])
              [Some 1700000000000000000] eq_refl eq_refl) as [Hcol Hout].
  split; [exact Hcol|]. split; [exact Hout|].
  unfold pass. rewrite (Hother (u "_updatedAt")); [reflexivity|discriminate].
Defined.

(** ** The call always ends *)

(** Every cap is reached by some pass. *)
Lemma cap_is_reached (cap : number) :
  exists bound, forall i, bound <= i -> int_ge i cap = true.
Proof.
  destruct cap as [j|[m e]].
  - exists j. intros i Hi. simpl. now apply Z.leb_le.
  - unfold int_ge, Float.int_ge. cbn [Float.expo Float.mant].
    destruct (Z.leb_spec 0 e).
    + exists (m * 2 ^ e). intros i Hi. now apply Z.leb_le.
    + exists (Z.max 0 m). intros i Hi. apply Z.leb_le.
      assert (1 <= 2 ^ (- e)) by (apply (Z.pow_le_mono_r 2 0 (- e)); lia).
      nia.
Qed.

Lemma fetch_loop_ends (n : nat) :
  forall url hdrs P cap bound it off acc w,
    (forall i, bound <= i -> int_ge i cap = true) ->
    bound - it <= Z.of_nat n ->
    exists r, fetch_loop (S n) url hdrs P cap it off acc w = Some r.
Proof.
  induction n as [|n IH]; intros url hdrs P cap bound it off acc w Hbound Hn;
    cbn [fetch_loop get_records];
    destruct (status_code (pages w 0%nat) =? 200); try (eexists; reflexivity).
  - rewrite (Hbound (it + 1)) by lia. rewrite orb_true_r. eexists; reflexivity.
  - destruct (_ || _); [eexists; reflexivity|].
    apply (IH _ _ _ _ bound); [exact Hbound|lia].
Qed.

(** X14.  With enough passes allowed, a call of [import_tulip_table]
    ends, whatever its arguments and whatever the remote side answers:
    every pass that reads a successful page counts towards the cap, and
    every cap, the number 99999999 as well as a float, is reached. *)
Theorem import_tulip_table_ends
    lib w instance authorization table_id table_name rename_columns query :
  exists fuel run,
    forall fuel', (fuel <= fuel')%nat ->
      import_tulip_table lib fuel' w instance authorization table_id table_name
        rename_columns query = Some run.
Proof.
  assert (Hsome : exists fuel run,
             import_tulip_table lib fuel w instance authorization table_id
               table_name rename_columns query = Some run).
  { unfold import_tulip_table.
    destruct (resolve_table w instance authorization table_id table_name)
      as [run|[[hdrs info] w1]]; [now exists 0%nat, run|].
    destruct (max_limit_of lib _) as [e|max_limit]; [now eexists 0%nat, _|].
    unfold fetch_records.
    destruct (max_iterations_of max_limit) as [cap|]; [|now eexists 0%nat, _].
    destruct (cap_is_reached cap) as [bound Hbound].
    destruct (fetch_loop_ends (Z.to_nat bound)
                (records_url instance (TableInfo.id info) query) hdrs
                (default_limit_of max_limit) cap bound 0 0 [] w1 Hbound
                ltac:(lia)) as [[[recs w2] printed] Hrun].
    exists (S (Z.to_nat bound)). rewrite Hrun. cbn [option_map].
    destruct (to_frame lib rename_columns (TableInfo.columns info) recs).
    eexists; reflexivity. }
  destruct Hsome as (fuel & run & Hrun). exists fuel, run.
  intros fuel' Hle.
  exact (import_tulip_table_more_fuel _ _ _ _ _ _ _ _ _ _ _ Hrun Hle).
Qed.

(** ** Column-name normalisation *)

Section ColumnNames.

Local Open Scope N_scope.

(** A property of characters that holds on each of the 128 Basic Latin
    characters holds on every Basic Latin character. *)
Lemma ascii_forall (P : N -> bool) :
  forallb P (map N.of_nat (seq 0 128)) = true ->
  forall c, Unicode.is_ascii c = true -> P c = true.
Proof.
  intros H c Hc. rewrite forallb_forall in H. apply H.
  apply in_map_iff. exists (N.to_nat c). split; [apply N2Nat.id|].
  apply in_seq. unfold Unicode.is_ascii in Hc. apply N.ltb_lt in Hc. lia.
Qed.

(** What [str.title] writes for a Basic Latin character is one Basic Latin
    character, of the same casedness, that [str.title] would write again
    in the same position; it is a space only for a space. *)
Lemma title_char_stable (b : bool) (c : N) :
  Unicode.is_ascii c = true ->
  exists x,
    (if b then Unicode.to_lower_full c else Unicode.to_title_full c) = [x]
    /\ (if b then Unicode.to_lower_full x else Unicode.to_title_full x) = [x]
    /\ Unicode.is_cased x = Unicode.is_cased c
    /\ Unicode.is_ascii x = true
    /\ (x = space <-> c = space).
Proof.
  intros Hc.
  set (mapping := fun c => if b then Unicode.to_lower_full c
                           else Unicode.to_title_full c).
  set (P := fun c =>
              match mapping c with
              | [x] =>
                  match mapping x with
                  | [x'] => x' =? x
                  | _ => false
                  end
                  && Bool.eqb (Unicode.is_cased x) (Unicode.is_cased c)
                  && Unicode.is_ascii x
                  && Bool.eqb (x =? space) (c =? space)
              | _ => false
              end).
  assert (HP : P c = true).
  { apply ascii_forall; [|exact Hc]. unfold P, mapping.
    destruct b; vm_compute; reflexivity. }
  unfold P in HP. fold (mapping c).
  destruct (mapping c) as [|x [|? ?]]; try discriminate.
  exists x. fold (mapping x).
  repeat (apply andb_true_iff in HP; destruct HP as [HP ?]).
  destruct (mapping x) as [|x' [|? ?]]; try discriminate.
  apply N.eqb_eq in HP. subst x'.
  repeat split; auto using Bool.eqb_prop.
  - intros ->. apply Bool.eqb_prop in H. symmetry in H. now apply N.eqb_eq in H.
  - intros ->. apply Bool.eqb_prop in H. now apply N.eqb_eq in H.
Qed.

Lemma do_title_ascii (s : pystr) : forall b,
  ascii_name s = true ->
  ascii_name (do_title b s) = true
  /\ List.length (do_title b s) = List.length s
  /\ do_title b (do_title b s) = do_title b s.
Proof.
  induction s as [|c s IH]; intros b Hs; [now repeat split|].
  unfold ascii_name in Hs; simpl in Hs. apply andb_true_iff in Hs as [Hc Hs].
  destruct (title_char_stable b c Hc) as (x & Hx & Hxx & Hcased & Hascii & _).
  destruct (IH (Unicode.is_cased c) Hs) as (IHa & IHl & IHi).
  cbn [do_title]. rewrite Hx. cbn [app do_title]. rewrite Hxx, Hcased, IHi.
  repeat split.
  - unfold ascii_name in *. simpl. now rewrite Hascii, IHa.
  - simpl. now rewrite IHl.
Qed.

Lemma replace_replace (s : pystr) :
  replace space underscore (replace space underscore s)
  = replace space underscore s.
Proof.
  unfold replace. rewrite map_map. apply map_ext. intros c.
  destruct (N.eqb_spec c space); [reflexivity|].
  now destruct (N.eqb_spec c space).
Qed.

(** Spaces and underscores are uncased and mapped to themselves: replacing
    the one by the other commutes with [str.title]. *)
Lemma title_char_replace (b : bool) (c : N) :
  Unicode.is_ascii c = true ->
  let r := fun c => if c =? space then underscore else c in
  (if b then Unicode.to_lower_full (r c) else Unicode.to_title_full (r c))
  = map r (if b then Unicode.to_lower_full c else Unicode.to_title_full c)
  /\ Unicode.is_cased (r c) = Unicode.is_cased c.
Proof.
  intros Hc r. unfold r. destruct (N.eqb_spec c space) as [->|Hne].
  - split; [destruct b|]; reflexivity.
  - split; [|reflexivity].
    destruct (title_char_stable b c Hc) as (x & Hx & _ & _ & _ & Hsp).
    rewrite Hx. cbn [map].
    destruct (N.eqb_spec x space) as [Hxs|_]; [|reflexivity].
    apply Hsp in Hxs. contradiction.
Qed.

Lemma do_title_replace (s : pystr) : forall b,
  ascii_name s = true ->
  do_title b (replace space underscore s)
  = replace space underscore (do_title b s).
Proof.
  induction s as [|c s IH]; intros b Hs; [reflexivity|].
  unfold ascii_name in Hs; simpl in Hs. apply andb_true_iff in Hs as [Hc Hs].
  destruct (title_char_replace b c Hc) as [Hmap Hcased].
  unfold replace in *. cbn [map do_title]. rewrite map_app.
  cbv zeta in Hmap, Hcased. rewrite Hmap, Hcased, (IH _ Hs). reflexivity.
Qed.

(** [str.title] never writes an upper-case letter after a cased one:
    the name ["ID"] is not a result of the title-casing branch. *)
Lemma title_is_not_ID (s : pystr) :
  ascii_name s = true ->
  str_eqb (replace space underscore (title s)) (u "ID") = false.
Proof.
  intros Hs. apply str_eqb_neq. intros Heq.
  assert (Hlen : List.length s = 2%nat).
  { destruct (do_title_ascii s false Hs) as (_ & Hl & _).
    rewrite <- Hl. fold (title s).
    apply (f_equal (@List.length N)) in Heq. unfold replace in Heq.
    now rewrite length_map in Heq. }
  destruct s as [|a [|b [|c s]]]; try discriminate. clear Hlen.
  unfold ascii_name in Hs; simpl in Hs.
  apply andb_true_iff in Hs as [Ha Hs]. apply andb_true_iff in Hs as [Hb _].
  set (r := fun c => if c =? space then underscore else c).
  pose proof (ascii_forall
                (fun a => match Unicode.to_title_full a with
                          | [x] => negb (r x =? 73) || Unicode.is_cased a
                          | _ => false
                          end) ltac:(vm_compute; reflexivity) a Ha) as H1.
  pose proof (ascii_forall
                (fun b => match Unicode.to_lower_full b with
                          | [y] => negb (r y =? 68)
                          | _ => false
                          end) ltac:(vm_compute; reflexivity) b Hb) as H2.
  cbv beta in H1, H2. revert Heq. unfold title, replace. cbn [do_title].
  fold r. rewrite app_nil_r.
  destruct (Unicode.to_title_full a) as [|x [|? ?]]; try discriminate.
  destruct (Unicode.is_cased a).
  - destruct (Unicode.to_lower_full b) as [|y [|? ?]]; try discriminate.
    cbn [app map]. intros [= _ Hy]. rewrite Hy in H2. discriminate.
  - rewrite orb_false_r in H1.
    cbn [app map]. intros Heq. injection Heq as Hx _.
    rewrite Hx in H1. discriminate.
Qed.

Lemma standardize_names_map (cols : list pystr) :
  standardize_names cols = map standardize_name cols.
Proof. unfold standardize_names, standardize_name. now rewrite map_map. Qed.

Lemma standardize_name_idempotent (s : pystr) :
  ascii_name s = true ->
  standardize_name (standardize_name s) = standardize_name s.
Proof.
  intros Hs. destruct (str_eqb s (u "ID")) eqn:HID.
  - apply str_eqb_eq in HID. subst s. reflexivity.
  - unfold standardize_name. rewrite HID, (title_is_not_ID s Hs).
    destruct (do_title_ascii s false Hs) as (Hascii & _ & Hidem).
    unfold title. rewrite (do_title_replace _ false Hascii), Hidem.
    apply replace_replace.
Qed.

(** C9, as the code has it.  On column names made of Basic Latin
    characters, normalising twice gives the names that normalising once
    gives; ["ID"] stays ["ID"] and ["Foo_Bar"] stays ["Foo_Bar"].  The
    pass is the last step of [to_frame], whatever the rename option. *)
Theorem standardize_names_idempotent (cols : list pystr) :
  forallb ascii_name cols = true ->
  standardize_names (standardize_names cols) = standardize_names cols
  /\ standardize_names [u "ID"] = [u "ID"]
  /\ standardize_names [u "Foo_Bar"] = [u "Foo_Bar"]
  /\ (forall df, columns (standardize df) = standardize_names (columns df))
  /\ (forall lib rename_columns table_columns all_records,
        exists df, fst (to_frame lib rename_columns table_columns all_records)
                   = standardize df).
Proof.
  intros Hcols. split; [|split; [reflexivity|split; [reflexivity|split]]].
  - rewrite !standardize_names_map, map_map. apply map_ext_in.
    intros s Hin. apply standardize_name_idempotent.
    rewrite forallb_forall in Hcols. now apply Hcols.
  - intros df. rewrite standardize_names_map. unfold standardize, relabel, columns.
    cbn [data]. now rewrite !map_map.
  - intros lib rename_columns table_columns all_records. unfold to_frame.
    destruct (convert_timezones lib (build_frame lib table_columns all_records))
      as [df printed].
    now exists (rename_stage rename_columns table_columns df).
Qed.

Lemma standardize_names_idempotent_example :
  standardize_names (standardize_names [u "order qty"; u "ID"; u "_createdAt"])
  = standardize_names [u "order qty"; u "ID"; u "_createdAt"].
Proof.
  apply (standardize_names_idempotent [u "order qty"; u "ID"; u "_createdAt"]).
  reflexivity.
Defined.

(** C9 as stated fails on a name outside Basic Latin.  The lower-case
    mapping of U+0130 is [i] followed by the combining dot U+0307, which is
    not cased: for T A R U+0130 H the first pass writes T a r i U+0307 h,
    and the second pass, finding the h after an uncased character, writes
    T a r i U+0307 H. *)
Lemma standardize_names_not_idempotent :
  let name := [84; 65; 82; 304; 72] in
  standardize_names [name] = [[84; 97; 114; 105; 775; 104]]
  /\ standardize_names (standardize_names [name]) = [[84; 97; 114; 105; 775; 72]]
  /\ standardize_names (standardize_names [name]) <> standardize_names [name].
Proof.
  intros name. split; [reflexivity|]. split; [reflexivity|]. discriminate.
Qed.

End ColumnNames.

(** * Further properties of the embedding *)

(** ** Every run of the pagination loop *)

(** A run of the loop that ends has gone on over some number [n] of pages
    and ended at the next one. *)
Lemma fetch_loop_any (fuel : nat) :
  forall url hdrs P cap it off acc w r,
    fetch_loop fuel url hdrs P cap it off acc w = Some r ->
    exists n,
      (n < fuel)%nat
      /\ (forall i, (i < n)%nat -> goes_on P cap (it + Z.of_nat i + 1) (pages w i))
      /\ (status_code (pages w n) <> 200
          \/ Z.of_nat (List.length (json (pages w n))) < P
          \/ int_ge (it + Z.of_nat n + 1) cap = true).
Proof.
  induction fuel as [|fuel IH]; intros url hdrs P cap it off acc w r; [discriminate|].
  cbn [fetch_loop get_records].
  destruct (Z.eqb_spec (status_code (pages w 0%nat)) 200) as [Hstatus|Hstatus].
  - destruct (Z.ltb_spec (Z.of_nat (List.length (json (pages w 0%nat)))) P) as [Hshort|Hfull].
    + intros _. exists 0%nat. split; [lia|]. split; [intros i Hi; lia|]. right; now left.
    + cbn [orb]. destruct (int_ge (it + 1) cap) eqn:Hcap.
      * intros _. exists 0%nat. split; [lia|]. split; [intros i Hi; lia|].
        right; right. now rewrite Z.add_0_r.
      * intros Hrun. apply IH in Hrun. destruct Hrun as (n & Hn & Hgo & Hstop).
        cbn [pages] in Hgo, Hstop.
        exists (S n). split; [lia|]. split.
        -- intros [|i] Hi.
           ++ split; [exact Hstatus|]. split; [exact Hfull|].
              now rewrite Z.add_0_r.
           ++ replace (it + Z.of_nat (S i) + 1) with (it + 1 + Z.of_nat i + 1) by lia.
              apply Hgo. lia.
        -- replace (it + Z.of_nat (S n) + 1) with (it + 1 + Z.of_nat n + 1) by lia.
           exact Hstop.
  - intros _. exists 0%nat. split; [lia|]. split; [intros i Hi; lia|]. now left.
Qed.

Lemma fetch_loop_some (url : pystr) (hdrs : dict pystr) (P : Z) (cap : number)
    (it off : Z) (acc : list record) (w : World) :
  exists fuel r, fetch_loop fuel url hdrs P cap it off acc w = Some r.
Proof.
  destruct (cap_is_reached cap) as [bound Hbound].
  destruct (fetch_loop_ends (Z.to_nat (bound - it)) url hdrs P cap bound it off acc w
              Hbound ltac:(lia)) as [r Hr].
  now exists (S (Z.to_nat (bound - it))), r.
Qed.

(** Whatever the remote side answers, the pagination ends, in one way:
    the loop goes on over some number [n] of pages, sends [n + 1] requests
    and ends at page [n], with the records of the pages received. *)
Lemma fetch_records_run
    (url : pystr) (hdrs : dict pystr) (max_limit : Z) (cap : number) (w : World) :
  max_iterations_of max_limit = Some cap ->
  let P := default_limit_of max_limit in
  exists n,
    (forall i, (i < n)%nat -> goes_on P cap (Z.of_nat i + 1) (pages w i))
    /\ (status_code (pages w n) <> 200
        \/ Z.of_nat (List.length (json (pages w n))) < P
        \/ int_ge (Z.of_nat n + 1) cap = true)
    /\ forall fuel, (n < fuel)%nat ->
         fetch_records fuel url hdrs max_limit w
         = Some (inr (if status_code (pages w n) =? 200
                      then first_pages (S n) w else first_pages n w,
                      after_requests (page_requests url hdrs P 0 (S n)) (S n) w,
                      if status_code (pages w n) =? 200 then []
                      else [error_line (status_code (pages w n))])).
Proof.
  intros Hcap P.
  destruct (fetch_loop_some url hdrs P cap 0 0 [] w) as (fuel0 & r & Hrun).
  destruct (fetch_loop_any fuel0 _ _ _ _ _ _ _ _ _ Hrun) as (n & _ & Hgo & Hstop).
  exists n. rewrite Z.add_0_l in Hstop.
  split; [intros i Hi; specialize (Hgo i Hi); now rewrite Z.add_0_l in Hgo|].
  split; [exact Hstop|].
  intros fuel Hfuel. unfold fetch_records. rewrite Hcap. fold P. cbn [option_map].
  replace fuel with (S n + (fuel - S n))%nat by lia.
  rewrite (fetch_loop_run n _ url hdrs P cap 0 0 [] w Hgo);
    [reflexivity|now rewrite Z.add_0_l].
Qed.

(** X1.  Whatever the remote side answers, a call that has resolved its
    table and computed its cap ends, and it does so in one way.  There is a
    number [n] of pages on which the loop goes on (each a success with no
    fewer records than asked for, read by a pass below the cap) and page
    [n] ends it.  The call has then sent [n + 1] record requests, the
    [i]-th with the parameters [limit], the page size, and [offset], [i]
    times the page size, and
    returns the frame built from the records of the pages received, in the
    order of the requests, none left out and none twice: the pages [0..n]
    when page [n] is a success, the pages [0..n-1] and one printed line
    when it is not. *)
Theorem call_returns_the_pages_received
    lib w instance authorization table_id table_name rename_columns query
    hdrs info w1 max_limit cap :
  resolve_table w instance authorization table_id table_name
  = inr (hdrs, info, w1) ->
  let url := records_url instance (TableInfo.id info) query in
  max_limit_of lib url = inr max_limit ->
  max_iterations_of max_limit = Some cap ->
  let P := default_limit_of max_limit in
  exists n,
    (forall i, (i < n)%nat -> goes_on P cap (Z.of_nat i + 1) (pages w1 i))
    /\ (status_code (pages w1 n) <> 200
        \/ Z.of_nat (List.length (json (pages w1 n))) < P
        \/ int_ge (Z.of_nat n + 1) cap = true)
    /\ (forall fuel, (n < fuel)%nat ->
         let received := if status_code (pages w1 n) =? 200
                         then first_pages (S n) w1 else first_pages n w1 in
         let table := to_frame lib rename_columns (TableInfo.columns info) received in
         import_tulip_table lib fuel w instance authorization table_id table_name
           rename_columns query
         = Some (mkRun (Return (Frame (fst table)))
                   (after_requests (page_requests url hdrs P 0 (S n)) (S n) w1)
                   ((if status_code (pages w1 n) =? 200 then []
                     else [error_line (status_code (pages w1 n))]) ++ snd table)))
    /\ (forall i req,
          nth_error (page_requests url hdrs P 0 (S n)) i = Some req ->
          req = mkRequest url hdrs
                  [(u "limit", P); (u "offset", Z.of_nat i * P)]).
Proof.
  intros Hres url Hlim Hcap P.
  destruct (fetch_records_run url hdrs max_limit cap w1 Hcap) as (n & Hgo & Hstop & Hrun).
  exists n. split; [exact Hgo|]. split; [exact Hstop|]. split.
  - intros fuel Hfuel received table.
    exact (import_tulip_table_fetched lib fuel w instance authorization table_id
             table_name rename_columns query hdrs info w1 max_limit _ _ _
             Hres Hlim (Hrun fuel Hfuel)).
  - intros i req Hreq. exact (page_requests_nth url hdrs P (S n) 0 i req Hreq).
Qed.

(** The call of the example table on a world whose second page is short:
    some number of passes ends it. *)
Lemma call_returns_the_pages_received_example :
  exists n, forall fuel, (n < fuel)%nat ->
    exists run,
      import_tulip_table Sample.library fuel
        (Sample.serving 200 [Sample.orders] (Sample.paged 1 1000 2))
        (Some (u "acme.tulip.co")) (Some (u "token")) (Some (u "T1")) None true []
      = Some run.
Proof.
  destruct (call_returns_the_pages_received Sample.library
              (Sample.serving 200 [Sample.orders] (Sample.paged 1 1000 2))
              (Some (u "acme.tulip.co")) (Some (u "token")) (Some (u "T1")) None
              true [] _ _ _ 0 (PyInt 99999999) eq_refl eq_refl eq_refl)
    as (n & _ & _ & Hrun & _).
  exists n. intros fuel Hfuel. eexists. exact (Hrun fuel Hfuel).
Defined.

(** ** How far a limit lets the loop go *)

Lemma length_first_pages_le (n : nat) (w : World) (size : Z) :
  (forall i, (i < n)%nat -> Z.of_nat (List.length (json (pages w i))) <= size) ->
  Z.of_nat (List.length (first_pages n w)) <= Z.of_nat n * size.
Proof.
  induction n as [|n IH]; intros H; [simpl; lia|].
  rewrite first_pages_snoc, length_app.
  specialize (IH (fun i Hi => H i (Nat.lt_lt_succ_r _ _ Hi))).
  specialize (H n (Nat.lt_succ_diag_r n)). lia.
Qed.

(** X2.  A limit [0 < L < 2^44 * 1000] bounds the pagination whatever
    the remote side answers: the loop sends at most [ceil (L / 1000)]
    record requests, and when no page holds more records than the page
    size asked for, fewer than [L + 1000] records are fetched -- at most
    [L] for a limit below 1000. *)
Theorem limit_bounds_the_fetch (url : pystr) (hdrs : dict pystr) (L : Z) (w : World) :
  0 < L < 2 ^ 44 * 1000 ->
  exists n fetched w' printed,
    (forall fuel, (n < fuel)%nat ->
       fetch_records fuel url hdrs L w = Some (inr (fetched, w', printed)))
    /\ requests w' = requests w ++ page_requests url hdrs (default_limit_of L) 0 (S n)
    /\ Z.of_nat (S n) <= (L + 999) / 1000
    /\ ((forall i, Z.of_nat (List.length (json (pages w i))) <= default_limit_of L) ->
        Z.of_nat (List.length fetched) < L + 1000
        /\ (L < 1000 -> Z.of_nat (List.length fetched) <= L)).
Proof.
  intros HL. destruct (max_iterations_quotient L HL) as (x & Hcap & Hge).
  destruct (fetch_records_run url hdrs L (PyFloat x) w Hcap) as (n & Hgo & _ & Hrun).
  cbv zeta in Hgo, Hrun.
  eexists n, _, _, _. split; [exact Hrun|]. split; [reflexivity|].
  assert (Hn : n = 0%nat \/ 1000 * Z.of_nat n < L).
  { destruct n as [|n]; [now left|right].
    destruct (Hgo n (Nat.lt_succ_diag_r n)) as (_ & _ & Hbelow).
    rewrite Hge in Hbelow. apply Z.leb_gt in Hbelow. lia. }
  assert (Hsize : default_limit_of L = if L <? 1000 then L else 1000).
  { unfold default_limit_of. destruct (Z.ltb_spec 0 L), (Z.ltb_spec L 1000);
      simpl; lia. }
  assert (Hsmall : L < 1000 -> n = 0%nat).
  { intros Hlt. destruct Hn as [Hn|Hn]; [exact Hn|lia]. }
  split.
  - apply Z.div_le_lower_bound; lia.
  - intros Hpages.
    assert (Hlen : Z.of_nat (List.length
                     (if status_code (pages w n) =? 200
                      then first_pages (S n) w else first_pages n w))
                   <= Z.of_nat (S n) * default_limit_of L).
    { destruct (status_code (pages w n) =? 200).
      - apply length_first_pages_le. intros i _. apply Hpages.
      - pose proof (length_first_pages_le n w (default_limit_of L)
                      (fun i _ => Hpages i)).
        assert (0 <= default_limit_of L) by (rewrite Hsize; destruct (L <? 1000); lia).
        nia. }
    rewrite Hsize in Hlen. destruct (Z.ltb_spec L 1000) as [Hlt|Hge'].
    + rewrite (Hsmall Hlt) in *. split; [lia|]. intros _. lia.
    + split; [|lia]. destruct Hn as [->|Hn]; lia.
Qed.

(** The limit 1500 on a world of full pages: at most two requests. *)
Lemma limit_bounds_the_fetch_example :
  exists n fetched w' printed,
    (forall fuel, (n < fuel)%nat ->
       fetch_records fuel (u "https://acme.tulip.co/api/v3/w/1/tables/T1/records?limit=1500")
         [] 1500 (Sample.serving 200 [Sample.orders] (Sample.paged 9 1000 2))
       = Some (inr (fetched, w', printed)))
    /\ Z.of_nat (S n) <= (1500 + 999) / 1000.
Proof.
  destruct (limit_bounds_the_fetch
              (u "https://acme.tulip.co/api/v3/w/1/tables/T1/records?limit=1500")
              [] 1500 (Sample.serving 200 [Sample.orders] (Sample.paged 9 1000 2))
              ltac:(split; [reflexivity|reflexivity]))
    as (n & fetched & w' & printed & Hrun & _ & Hn & _).
  now exists n, fetched, w', printed.
Defined.

(** X3.  A limit of 1000 or more is rounded up to whole pages.  For
    [1000 <= L < 2^44 * 1000] and a remote side that answers the first
    [ceil (L / 1000)] record requests with full pages of 1000 records, the
    loop fetches exactly these pages: [1000 * ceil (L / 1000)] records,
    which is [L] only when [L] is a multiple of 1000 and more than [L]
    otherwise. *)
Theorem limit_is_rounded_up_to_pages
    (url : pystr) (hdrs : dict pystr) (L : Z) (w : World) (fuel : nat) :
  1000 <= L < 2 ^ 44 * 1000 ->
  let c := Z.to_nat ((L + 999) / 1000) in
  (forall i, (i < c)%nat ->
             status_code (pages w i) = 200
             /\ List.length (json (pages w i)) = 1000%nat) ->
  (c <= fuel)%nat ->
  fetch_records fuel url hdrs L w
  = Some (inr (first_pages c w,
               after_requests (page_requests url hdrs 1000 0 c) c w, []))
  /\ Z.of_nat (List.length (first_pages c w)) = 1000 * ((L + 999) / 1000)
  /\ L <= Z.of_nat (List.length (first_pages c w))
  /\ (L mod 1000 <> 0 -> L < Z.of_nat (List.length (first_pages c w))).
Proof.
  intros HL c Hpages Hfuel.
  destruct (max_iterations_quotient L ltac:(lia)) as (x & Hcap & Hge).
  assert (Hc : 1 <= (L + 999) / 1000) by (apply Z.div_le_lower_bound; lia).
  assert (Hceil : 1000 * ((L + 999) / 1000) <= L + 999
                  /\ L + 999 < 1000 * ((L + 999) / 1000) + 1000).
  { pose proof (Z.div_mod (L + 999) 1000 ltac:(lia)).
    pose proof (Z.mod_pos_bound (L + 999) 1000 ltac:(lia)). lia. }
  destruct c as [|n] eqn:Hcn; [unfold c in Hcn; lia|].
  assert (Hn : Z.of_nat (S n) = (L + 999) / 1000) by (unfold c in Hcn; lia).
  assert (Hlen : List.length (first_pages (S n) w) = (S n * 1000)%nat).
  { apply length_first_pages. intros i Hi. now apply Hpages. }
  split.
  - unfold fetch_records. rewrite Hcap. cbn [option_map].
    assert (Hsize : default_limit_of L = 1000).
    { unfold default_limit_of. destruct (Z.ltb_spec 0 L), (Z.ltb_spec L 1000);
        simpl; lia. }
    rewrite Hsize.
    replace fuel with (S n + (fuel - S n))%nat by lia.
    rewrite fetch_loop_run.
    + destruct (Hpages n ltac:(lia)) as [Hs _]. now rewrite Hs.
    + intros i Hi. destruct (Hpages i ltac:(lia)) as [Hs Hl].
      split; [exact Hs|]. split; [rewrite Hl; lia|].
      rewrite Hge. apply Z.leb_gt. lia.
    + right; right. rewrite Hge. apply Z.leb_le. lia.
  - rewrite Hlen. split; [lia|]. split; [lia|].
    intros Hmod.
    assert (L <> 1000 * ((L + 999) / 1000)).
    { intros Heq. apply Hmod. rewrite Heq, Z.mul_comm. apply Z.mod_mul. lia. }
    lia.
Qed.

(** The limit 1500: two full pages, 2000 records. *)
Lemma limit_is_rounded_up_to_pages_example :
  let url := u "https://acme.tulip.co/api/v3/w/1/tables/T1/records?limit=1500" in
  let w := Sample.serving 200 [Sample.orders] (Sample.paged 9 1000 2) in
  fetch_records 2 url [] 1500 w
  = Some (inr (first_pages 2 w, after_requests (page_requests url [] 1000 0 2) 2 w, []))
  /\ Z.of_nat (List.length (first_pages 2 w)) = 2000.
Proof.
  intros url w.
  destruct (limit_is_rounded_up_to_pages url [] 1500 w 2) as (Hrun & Hlen & _).
  - lia.
  - intros [|[|i]] Hi; [split; reflexivity|split; reflexivity|simpl in Hi; lia].
  - simpl. lia.
  - split; [exact Hrun|exact Hlen].
Defined.

Lemma negative_quotient_cap (L : Z) :
  - (2 ^ 44 * 1000) < L < 0 ->
  exists x, Float.true_divide L 1000 = Some x
            /\ forall i, 0 <= i -> Float.int_ge i x = true.
Proof.
  intros HL. unfold Float.true_divide.
  destruct (Z.eqb_spec L 0) as [|_]; [lia|].
  pose proof (log2_quot_small (Z.abs L) ltac:(lia)) as He.
  unfold Float.nearest.
  set (s := Z.max (Float.log2_quot (Z.abs L) 1000 - 52) (-1074)).
  assert (Hs : -1074 <= s <= -9) by lia.
  clearbody s. clear He.
  destruct (Z.leb_spec 0 s) as [|_]; [lia|].
  set (q := (Z.abs L * 2 ^ (- s)) / 1000).
  assert (Hq : 0 <= q).
  { apply Z.div_pos; [|lia]. apply Z.mul_nonneg_nonneg; [lia|].
    apply Z.pow_nonneg. lia. }
  set (r := (Z.abs L * 2 ^ (- s)) mod 1000).
  set (q' := if (1000 <? 2 * r) || ((1000 =? 2 * r) && Z.odd q) then q + 1 else q).
  assert (Hq' : 0 <= q') by (unfold q'; destruct (_ || _); lia).
  assert (Hsgn : Z.sgn L = -1) by (apply Z.sgn_neg; lia).
  assert (Hpos : forall e i, 0 <= i -> 0 <= i * 2 ^ e).
  { intros e i Hi. apply Z.mul_nonneg_nonneg; [lia|]. apply Z.pow_nonneg. lia. }
  destruct (Z.eqb_spec q' (2 ^ 53)) as [Hmax|_];
    unfold Float.overflows; cbn [Float.expo Float.mant].
  - destruct (Z.leb_spec 0 (s + 1)) as [|_]; [lia|]. cbn [andb].
    eexists. split; [reflexivity|]. intros i Hi.
    unfold Float.int_ge. cbn [Float.expo Float.mant]. rewrite Hsgn.
    destruct (Z.leb_spec 0 (s + 1)) as [|_]; [lia|].
    apply Z.leb_le. specialize (Hpos (- (s + 1)) i Hi).
    assert (0 < 2 ^ 52) by reflexivity. lia.
  - destruct (Z.leb_spec 0 s) as [|_]; [lia|]. cbn [andb].
    eexists. split; [reflexivity|]. intros i Hi.
    unfold Float.int_ge. cbn [Float.expo Float.mant]. rewrite Hsgn.
    destruct (Z.leb_spec 0 s) as [|_]; [lia|].
    apply Z.leb_le. specialize (Hpos (- s) i Hi). lia.
Qed.

(** X4.  A negative limit is not rejected.  For [- 2^44 * 1000 < L < 0]
    the page size is 1000 and the cap is a negative number, which the first
    pass reaches: the loop sends exactly one request, with the parameters
    [limit = 1000] and [offset = 0], and the records fetched are those of that page if it is a
    success and none otherwise. *)
Theorem negative_limit_fetches_one_page
    (url : pystr) (hdrs : dict pystr) (L : Z) (w : World) (fuel : nat) :
  - (2 ^ 44 * 1000) < L < 0 ->
  let page := pages w 0%nat in
  default_limit_of L = 1000
  /\ fetch_records (S fuel) url hdrs L w
     = Some (inr (if status_code page =? 200 then json page else [],
                  after_requests
                    [mkRequest url hdrs [(u "limit", 1000); (u "offset", 0)]] 1 w,
                  if status_code page =? 200 then []
                  else [error_line (status_code page)])).
Proof.
  intros HL page.
  assert (Hsize : default_limit_of L = 1000).
  { unfold default_limit_of. destruct (Z.ltb_spec 0 L); [lia|reflexivity]. }
  split; [exact Hsize|].
  destruct (negative_quotient_cap L HL) as (x & Hx & Hge).
  unfold fetch_records, max_iterations_of.
  destruct (Z.eqb_spec L 0) as [|_]; [lia|]. cbn [negb].
  rewrite Hx, Hsize. cbn [option_map].
  change (S fuel) with (1 + fuel)%nat. rewrite fetch_loop_run.
  - unfold page, first_pages, page_requests. simpl. now rewrite !app_nil_r.
  - intros i Hi. lia.
  - right; right. simpl. apply Hge. lia.
Qed.

(** The limit -5 on a world of full pages. *)
Lemma negative_limit_fetches_one_page_example :
  let url := u "https://acme.tulip.co/api/v3/w/1/tables/T1/records?limit=-5" in
  let w := Sample.serving 200 [Sample.orders] (Sample.paged 9 1000 2) in
  fetch_records 3 url [] (-5) w
  = Some (inr (json (pages w 0%nat),
               after_requests
                 [mkRequest url [] [(u "limit", 1000); (u "offset", 0)]] 1 w, [])).
Proof.
  intros url w.
  exact (proj2 (negative_limit_fetches_one_page url [] (-5) w 2 ltac:(lia))).
Defined.

(** ** Which table a call resolves *)

Lemma find_first (A : Type) (f : A -> bool) (before after : list A) (x : A) :
  f x = true ->
  (forall y, In y before -> f y = false) ->
  find f (before ++ x :: after) = Some x.
Proof.
  intros Hx. induction before as [|y before IH]; intros Hbefore; simpl.
  - now rewrite Hx.
  - rewrite (Hbefore y (or_introl eq_refl)). apply IH.
    intros z Hz. apply Hbefore. now right.
Qed.

(** X5.  The table of a call is the first entry of the listing that has
    the reference in the field the call looks at: the ["id"] when
    [table_id] is given, the ["label"] when [table_name] is given.  Entries
    before it that have the reference in the other field are passed over,
    and so are later entries with the same id or label.  The call goes on
    with that entry: its headers carry the encoded credential and the
    listing request is the one request sent so far. *)
Theorem table_is_the_first_match
    w instance authorization encoded_token table_id table_name reference
    (field : TableInfo.t -> pystr) before info after :
  (table_id = Some reference /\ table_name = None /\ field = TableInfo.id)
  \/ (table_id = None /\ table_name = Some reference /\ field = TableInfo.label) ->
  encode_token authorization = inr encoded_token ->
  status_code (listing w) = 200 ->
  json (listing w) = before ++ info :: after ->
  field info = reference ->
  (forall e, In e before -> field e <> reference) ->
  let hdrs := make_headers encoded_token in
  resolve_table w instance authorization table_id table_name
  = inr (hdrs, info,
         mkWorld (listing w) (pages w)
           (requests w ++ [mkRequest (tables_url instance) hdrs []])).
Proof.
  intros Hmode Htok Hstatus Hlist Hinfo Hbefore hdrs.
  unfold resolve_table.
  assert (Hguard : (is_None table_name && is_None table_id)
                   || (negb (is_None table_name) && negb (is_None table_id)) = false)
    by (destruct Hmode as [(-> & -> & _)|(-> & -> & _)]; reflexivity).
  rewrite Hguard, Htok. cbn [get_tables]. rewrite Hstatus. cbn [Z.eqb Pos.eqb negb].
  assert (Hm : forall e, matches table_id table_name e = str_eqb (field e) reference).
  { intros e. unfold matches, table_match.
    destruct Hmode as [(-> & -> & ->)|(-> & -> & ->)]; reflexivity. }
  rewrite Hlist, (find_first _ (matches table_id table_name) before after info).
  - reflexivity.
  - rewrite Hm. now apply str_eqb_eq.
  - intros e He. rewrite Hm. apply str_eqb_neq. now apply Hbefore.
Qed.

(** A listing with two tables labelled [Orders]: the lookup by name takes
    the first, although the second has [Orders] as its id. *)
Lemma table_is_the_first_match_example :
  let first := TableInfo.mk (u "T1") (u "Orders") [] in
  let second := TableInfo.mk (u "Orders") (u "Orders") [] in
  let w := Sample.serving 200 [first; second] (Sample.paged 0 3 2) in
  resolve_table w (Some (u "acme.tulip.co")) (Some (u "token")) None (Some (u "Orders"))
  = inr (make_headers (u "Basic dG9rZW4="), first,
         mkWorld (listing w) (pages w)
           [mkRequest (tables_url (Some (u "acme.tulip.co")))
              (make_headers (u "Basic dG9rZW4=")) []]).
Proof.
  intros first second w.
  apply (table_is_the_first_match w (Some (u "acme.tulip.co")) (Some (u "token"))
           (u "Basic dG9rZW4=") None (Some (u "Orders")) (u "Orders")
           TableInfo.label [] first [second]).
  - right. repeat split.
  - reflexivity.
  - reflexivity.
  - reflexivity.
  - reflexivity.
  - intros e [].
Defined.

(** ** What a call sends *)

Lemma resolve_table_cases w instance authorization table_id table_name :
  match resolve_table w instance authorization table_id table_name with
  | inl run =>
      (exists e, result run = Raise e) /\ world run = w
      \/ exists encoded_token,
           encode_token authorization = inr encoded_token
           /\ (exists text, result run = Return (Text text))
           /\ world run
              = mkWorld (listing w) (pages w)
                  (requests w ++ [mkRequest (tables_url instance)
                                    (make_headers encoded_token) []])
  | inr (hdrs, info, w1) =>
      exists encoded_token,
        encode_token authorization = inr encoded_token
        /\ hdrs = make_headers encoded_token
        /\ status_code (listing w) = 200
        /\ find (matches table_id table_name) (json (listing w)) = Some info
        /\ w1 = mkWorld (listing w) (pages w)
                  (requests w ++ [mkRequest (tables_url instance) hdrs []])
  end.
Proof.
  unfold resolve_table.
  destruct ((is_None table_name && is_None table_id)
            || (negb (is_None table_name) && negb (is_None table_id))).
  { left. split; [eexists; reflexivity|reflexivity]. }
  destruct (encode_token authorization) as [e|encoded_token].
  { left. split; [eexists; reflexivity|reflexivity]. }
  cbn [get_tables].
  destruct (Z.eqb_spec (status_code (listing w)) 200) as [Hstatus|Hstatus]; cbn [negb].
  - destruct (find (matches table_id table_name) (json (listing w))) as [info|] eqn:Hfind.
    + exists encoded_token. repeat split; auto.
    + right. exists encoded_token. split; [reflexivity|].
      split; [eexists; reflexivity|reflexivity].
  - right. exists encoded_token. split; [reflexivity|].
    split; [eexists; reflexivity|reflexivity].
Qed.

(** A call that reaches the loop, on a world whose record pages are known
    up to the page that ends the loop. *)
Lemma import_tulip_table_at
    lib fuel w instance authorization table_id table_name rename_columns query
    hdrs info w1 max_limit cap n :
  resolve_table w instance authorization table_id table_name
  = inr (hdrs, info, w1) ->
  let url := records_url instance (TableInfo.id info) query in
  max_limit_of lib url = inr max_limit ->
  max_iterations_of max_limit = Some cap ->
  let P := default_limit_of max_limit in
  (forall i, (i < n)%nat -> goes_on P cap (Z.of_nat i + 1) (pages w1 i)) ->
  status_code (pages w1 n) <> 200
  \/ Z.of_nat (List.length (json (pages w1 n))) < P
  \/ int_ge (Z.of_nat n + 1) cap = true ->
  let received := if status_code (pages w1 n) =? 200
                  then first_pages (S n) w1 else first_pages n w1 in
  let table := to_frame lib rename_columns (TableInfo.columns info) received in
  import_tulip_table lib (S n + fuel) w instance authorization table_id table_name
    rename_columns query
  = Some (mkRun (Return (Frame (fst table)))
            (after_requests (page_requests url hdrs P 0 (S n)) (S n) w1)
            ((if status_code (pages w1 n) =? 200 then []
              else [error_line (status_code (pages w1 n))]) ++ snd table)).
Proof.
  intros Hres url Hlim Hcap P Hgo Hstop received table.
  apply (import_tulip_table_fetched lib (S n + fuel) w instance authorization table_id
           table_name rename_columns query hdrs info w1 max_limit _ _ _ Hres Hlim).
  unfold fetch_records. rewrite Hcap. cbn [option_map].
  rewrite (fetch_loop_run n fuel _ hdrs _ cap 0 0 [] w1);
    [reflexivity| |now rewrite Z.add_0_l].
  intros i Hi. rewrite Z.add_0_l. now apply Hgo.
Qed.

Lemma encode_token_basic (authorization : option pystr) (encoded_token : pystr) :
  encode_token authorization = inr encoded_token ->
  exists token bytes,
    authorization = Some token
    /\ Codec.encode token = Some bytes
    /\ encoded_token = u "Basic " ++ Codec.b64encode bytes.
Proof.
  unfold encode_token. destruct authorization as [token|]; [|discriminate].
  destruct (Codec.encode token) as [bytes|] eqn:Hbytes; [|discriminate].
  intros [= <-]. now exists token, bytes.
Qed.

(** X6.  What a call has sent when it ends.  Either nothing, and the call
    has raised; or the listing request alone, and the call has returned a
    message or raised; or the listing request followed by at least one
    record request, for the table found in a listing answered with status
    200, and the call has returned a frame.

    Every request carries three headers: [accept], [accept-language], and
    [authorization] with the text [Basic], a space and the base 64 of the
    UTF-8 bytes of the credential.  The listing request goes to
    [https://<instance>/api/v3/w/1/tables?includeDeleted=false&includeHidden=true]
    without parameters.  The record requests go to
    [https://<instance>/api/v3/w/1/tables/<id>/records<query>] for the id
    of the table found, and the [i]-th of them (from 0) has the
    parameters [limit], the page size, and [offset], [i] times the page
    size, where the page size is the limit of the query if that is from 1
    to 999, and 1000 otherwise.  The remote side's listing is not asked
    for twice. *)
Theorem requests_of_a_call
    lib fuel w instance authorization table_id table_name rename_columns query run :
  import_tulip_table lib fuel w instance authorization table_id table_name
    rename_columns query = Some run ->
  (requests (world run) = requests w /\ exists e, result run = Raise e)
  \/ exists token bytes,
       authorization = Some token
       /\ Codec.encode token = Some bytes
       /\ let host := match instance with Some name => name | None => u "None" end in
          let hdrs :=
            [ (u "accept", u "*/*");
              (u "accept-language",
               u "fr-CA,fr;q=0.9,fr-FR;q=0.8,en-CA;q=0.7,en;q=0.6,en-US;q=0.5,en-GB;q=0.4");
              (u "authorization", u "Basic " ++ Codec.b64encode bytes) ] in
          let first :=
            mkRequest
              (u "https://" ++ host
               ++ u "/api/v3/w/1/tables?includeDeleted=false&includeHidden=true")
              hdrs [] in
          (requests (world run) = requests w ++ [first]
           /\ ((exists text, result run = Return (Text text))
               \/ exists e, result run = Raise e))
          \/ exists info max_limit sent,
               let address :=
                 u "https://" ++ host ++ u "/api/v3/w/1/tables/" ++ TableInfo.id info
                 ++ u "/records" ++ query in
               let size :=
                 if (0 <? max_limit) && (max_limit <? 1000) then max_limit else 1000 in
               status_code (listing w) = 200
               /\ find (matches table_id table_name) (json (listing w)) = Some info
               /\ max_limit_of lib address = inr max_limit
               /\ (exists df, result run = Return (Frame df))
               /\ requests (world run) = requests w ++ first :: sent
               /\ sent <> []
               /\ forall i req,
                    nth_error sent i = Some req ->
                    req = mkRequest address hdrs
                            [(u "limit", size); (u "offset", Z.of_nat i * size)].
Proof.
  unfold import_tulip_table.
  pose proof (resolve_table_cases w instance authorization table_id table_name) as Hres.
  destruct (resolve_table w instance authorization table_id table_name)
    as [run'|[[hdrs info] w1]].
  - intros [= <-]. destruct Hres as [[He ->]|(tok & Htok & Htext & ->)].
    + now left.
    + right. destruct (encode_token_basic _ _ Htok) as (token & bytes & Hauth & Hbytes & ->).
      exists token, bytes. split; [exact Hauth|]. split; [exact Hbytes|].
      left. split; [reflexivity|now left].
  - destruct Hres as (tok & Htok & -> & Hstatus & Hfind & ->).
    destruct (encode_token_basic _ _ Htok) as (token & bytes & Hauth & Hbytes & ->).
    intros Hcall. right. exists token, bytes.
    split; [exact Hauth|]. split; [exact Hbytes|]. cbv zeta.
    destruct (max_limit_of lib _) as [e|max_limit] eqn:Hlim.
    + injection Hcall as <-. left. split; [reflexivity|]. right. eexists; reflexivity.
    + destruct (fetch_records fuel _ _ max_limit _) as [[e|[[recs w2] printed]]|] eqn:Hrun;
        try discriminate.
      * injection Hcall as <-. left. split; [reflexivity|]. right. eexists; reflexivity.
      * destruct (to_frame lib rename_columns _ recs) as [df printed'].
        injection Hcall as <-. right. cbn [world result].
        unfold fetch_records in Hrun.
        destruct (max_iterations_of max_limit) as [cap|]; [|discriminate].
        destruct (fetch_loop fuel _ _ _ cap 0 0 [] _) as [[[recs0 w0] printed0]|] eqn:Hloop;
          [|discriminate].
        injection Hrun as <- <- <-.
        destruct (fetch_loop_any fuel _ _ _ _ _ _ _ _ _ Hloop) as (n & Hn & Hgo & Hstop).
        replace fuel with (S n + (fuel - S n))%nat in Hloop by lia.
        rewrite (fetch_loop_run n _ _ _ _ _ 0 0 [] _ Hgo Hstop) in Hloop.
        injection Hloop as _ <- _.
        exists info, max_limit,
          (page_requests (records_url instance (TableInfo.id info) query)
             (make_headers (u "Basic " ++ Codec.b64encode bytes))
             (default_limit_of max_limit) 0 (S n)).
        split; [exact Hstatus|]. split; [exact Hfind|]. split; [exact Hlim|].
        split; [eexists; reflexivity|]. split; [|split].
        -- cbn [after_requests requests]. now rewrite <- app_assoc.
        -- rewrite page_requests_step. discriminate.
        -- intros i req Hreq. now apply page_requests_nth in Hreq.
Qed.

(** A call for the example table on a world whose first page is full and
    whose second page is short: the listing request and two record
    requests, at the offsets 0 and 1000. *)
Lemma requests_of_a_call_example :
  let w := Sample.serving 200 [Sample.orders] (Sample.paged 1 1000 2) in
  let hdrs := [ (u "accept", u "*/*");
                (u "accept-language",
                 u "fr-CA,fr;q=0.9,fr-FR;q=0.8,en-CA;q=0.7,en;q=0.6,en-US;q=0.5,en-GB;q=0.4");
                (u "authorization", u "Basic dG9rZW4=") ] in
  let address := u "https://acme.tulip.co/api/v3/w/1/tables/T1/records" in
  exists run,
    import_tulip_table Sample.library 2 w (Some (u "acme.tulip.co"))
      (Some (u "token")) (Some (u "T1")) None true [] = Some run
    /\ requests (world run)
       = [ mkRequest
             (u "https://acme.tulip.co/api/v3/w/1/tables?includeDeleted=false&includeHidden=true")
             hdrs [];
           mkRequest address hdrs [(u "limit", 1000); (u "offset", 0)];
           mkRequest address hdrs [(u "limit", 1000); (u "offset", 1000)] ].
Proof.
  intros w hdrs address.
  pose proof (import_tulip_table_at Sample.library 0 w (Some (u "acme.tulip.co"))
                (Some (u "token")) (Some (u "T1")) None true []
                _ _ _ 0 (PyInt 99999999) 1 eq_refl eq_refl eq_refl) as Hcall.
  cbv zeta in Hcall.
  assert (Hgo : forall i, (i < 1)%nat ->
            goes_on (default_limit_of 0) (PyInt 99999999) (Z.of_nat i + 1)
              (Sample.paged 1 1000 2 i)).
  { intros i Hi. assert (i = 0%nat) as -> by lia.
    split; [reflexivity|]. split; [|reflexivity]. vm_compute. discriminate. }
  specialize (Hcall Hgo (or_intror (or_introl eq_refl))).
  eexists. split; [exact Hcall|].
  destruct (requests_of_a_call _ _ _ _ _ _ _ _ _ _ Hcall)
    as [[Hnone _]|(token & bytes & Hauth & Hbytes
                   & [[Hone _]|(info & L & sent & _ & Hfind & _ & _ & Hsent & _ & Hnth)])].
  - lazy in Hnone. discriminate Hnone.
  - lazy in Hone. discriminate Hone.
  - reflexivity.
Defined.

(** ** From the records to the frame returned *)

Lemma fold_keys_fieldless (recs : list record) : forall seen,
  (forall r, In r recs -> r = []) ->
  fold_left (fun seen r => fold_left add_key (keys r) seen) recs seen = seen.
Proof.
  induction recs as [|r recs IH]; intros seen H; [reflexivity|].
  simpl. rewrite (H r (or_introl eq_refl)). simpl. apply IH.
  intros r' Hr'. apply H. now right.
Qed.

Lemma all_keys_fieldless (recs : list record) :
  (forall r, In r recs -> r = []) -> all_keys recs = [].
Proof. apply fold_keys_fieldless. Qed.

(** X7.  Records without fields count as no records.  When every record
    fetched is the empty object, the frame made from them has rows but no
    column, [df.empty] holds, and the call builds the frame it builds when
    nothing was fetched: the frame returned has no rows, whatever the
    number of records. *)
Theorem fieldless_records_are_dropped
    (lib : Library) (rename_columns : bool) (table_columns : list ColumnSpec.t)
    (all_records : list record) :
  (forall r, In r all_records -> r = []) ->
  n_rows (DataFrame_of_records lib all_records) = List.length all_records
  /\ empty (DataFrame_of_records lib all_records) = true
  /\ to_frame lib rename_columns table_columns all_records
     = to_frame lib rename_columns table_columns []
  /\ n_rows (fst (to_frame lib rename_columns table_columns all_records)) = 0%nat.
Proof.
  intros H.
  assert (Hempty : empty (DataFrame_of_records lib all_records) = true).
  { unfold empty, DataFrame_of_records. cbn [n_rows data].
    rewrite (all_keys_fieldless all_records H). apply orb_true_r. }
  assert (Hbuild : build_frame lib table_columns all_records = build_frame lib table_columns []).
  { unfold build_frame. now rewrite Hempty. }
  split; [reflexivity|]. split; [exact Hempty|].
  split; [unfold to_frame; now rewrite Hbuild|].
  rewrite n_rows_to_frame, Hbuild. unfold build_frame. cbn [DataFrame_of_records empty
    n_rows List.length Nat.eqb orb]. unfold setitem_None. now rewrite !n_rows_setitem.
Qed.

(** Two records without fields. *)
Lemma fieldless_records_are_dropped_example :
  n_rows (fst (to_frame Sample.library true (TableInfo.columns Sample.orders) [[]; []]))
  = 0%nat.
Proof.
  apply (fieldless_records_are_dropped Sample.library true
           (TableInfo.columns Sample.orders) [[]; []]).
  intros r [<-|[<-|[]]]; reflexivity.
Defined.

Lemma add_key_In (seen : list pystr) (k key : pystr) :
  In key (add_key seen k) <-> In key seen \/ key = k.
Proof.
  unfold add_key. destruct (existsb (str_eqb k) seen) eqn:He.
  - split; [now left|]. intros [H| ->]; [exact H|].
    apply existsb_exists in He as (x & Hx & Hk). apply str_eqb_eq in Hk. now subst x.
  - rewrite in_app_iff. simpl. intuition.
Qed.

Lemma add_key_NoDup (seen : list pystr) (k : pystr) :
  NoDup seen -> NoDup (add_key seen k).
Proof.
  intros Hseen. unfold add_key. destruct (existsb (str_eqb k) seen) eqn:He; [exact Hseen|].
  apply NoDup_app; [exact Hseen|repeat constructor; simpl; tauto|].
  intros x Hx [Hk|[]]. subst x.
  assert (Htrue : existsb (str_eqb k) seen = true).
  { apply existsb_exists. exists k. split; [exact Hx|apply str_eqb_refl]. }
  congruence.
Qed.

Lemma fold_add_key (ks : list pystr) : forall seen,
  NoDup seen ->
  NoDup (fold_left add_key ks seen)
  /\ forall key, In key (fold_left add_key ks seen) <-> In key seen \/ In key ks.
Proof.
  induction ks as [|k ks IH]; intros seen Hseen; cbn [fold_left].
  - split; [exact Hseen|]. intros key. simpl. tauto.
  - destruct (IH (add_key seen k) (add_key_NoDup seen k Hseen)) as [Hno Hin].
    split; [exact Hno|]. intros key. rewrite Hin, add_key_In. simpl.
    split; [intros [[H|H]|H]|intros [H|[H|H]]]; auto.
Qed.

Lemma fold_keys (recs : list record) : forall seen,
  NoDup seen ->
  let all := fold_left (fun seen r => fold_left add_key (keys r) seen) recs seen in
  NoDup all
  /\ forall key, In key all <-> In key seen \/ exists r, In r recs /\ In key (keys r).
Proof.
  induction recs as [|r recs IH]; intros seen Hseen; cbn [fold_left].
  - split; [exact Hseen|]. intros key. split; [now left|].
    intros [H|(r & [] & _)]. exact H.
  - destruct (fold_add_key (keys r) seen Hseen) as [Hno Hin].
    destruct (IH _ Hno) as [Hno' Hin'].
    split; [exact Hno'|]. intros key. rewrite Hin', Hin. split.
    + intros [[H|H]|(r' & Hr' & Hk)]; [now left| |].
      * right. exists r. split; [now left|exact H].
      * right. exists r'. split; [now right|exact Hk].
    + intros [H|(r' & [<-|Hr'] & Hk)]; [now left; left|now left; right|].
      right. now exists r'.
Qed.

(** The keys of the records, each once. *)
Lemma all_keys_spec (recs : list record) :
  NoDup (all_keys recs)
  /\ forall key, In key (all_keys recs) <-> exists r, In r recs /\ In key (keys r).
Proof.
  destruct (fold_keys recs [] (NoDup_nil _)) as [Hno Hin].
  split; [exact Hno|]. intros key. unfold all_keys. rewrite Hin.
  split; [intros [[]|H]; exact H|now right].
Qed.

(** Reading a column of a frame whose labels are pairwise distinct. *)
Lemma getitem_map (f : pystr -> Column) (n : nat) (ks : list pystr) (key : pystr) :
  NoDup ks -> In key ks ->
  getitem key (mkFrame n (map (fun k => (k, f k)) ks)) = Some (f key).
Proof.
  intros Hno Hin. unfold getitem. cbn [data].
  assert (Hfilter : filter (fun kc : pystr * Column => str_eqb (fst kc) key)
                      (map (fun k => (k, f k)) ks) = [(key, f key)]).
  { induction ks as [|k ks IH]; [destruct Hin|].
    inversion Hno as [|? ? Hk Hks]; subst. cbn [map filter fst].
    destruct (str_eqb_spec k key) as [->|Hne].
    - f_equal. clear IH Hin Hno Hks.
      induction ks as [|k' ks IH]; [reflexivity|]. cbn [map filter fst].
      destruct (str_eqb_spec k' key) as [->|_].
      + destruct Hk. now left.
      + apply IH. intros H. apply Hk. now right.
    - apply IH; [exact Hks|]. destruct Hin as [H|H]; [contradiction|exact H]. }
  now rewrite Hfilter.
Qed.

(** X8.  The call hands the columns through.  The frame returned has
    the rows of the frame built from the records and its columns one for
    one and in the same order.  A column other than the two timestamp
    columns is returned with the values it has there.  A column is
    returned under its name as renamed (the label of the metadata, then
    [Created_At] and [Updated_At] for the two timestamp names) when
    [rename_columns] is set, and normalised in either case; this is stated
    for the labels made of Basic Latin characters.  When some record has a
    field, the frame built has one row for each record and one column for
    each key that occurs in a record, and the column of a key holds what
    dtype inference makes of the records' values under that key. *)
Theorem values_are_handed_through
    (lib : Library) (rename_columns : bool) (table_columns : list ColumnSpec.t)
    (all_records : list record) :
  let built := build_frame lib table_columns all_records in
  let returned := fst (to_frame lib rename_columns table_columns all_records) in
  let shown c :=
    if rename_columns
    then renamed [(u "_createdAt", u "Created_At"); (u "_updatedAt", u "Updated_At")]
           (display_label table_columns c)
    else c in
  n_rows returned = n_rows built
  /\ Forall2 (fun kc kc' =>
                (ascii_name (shown (fst kc)) = true ->
                 fst kc' = standardize_name (shown (fst kc)))
                /\ (fst kc <> u "_createdAt" -> fst kc <> u "_updatedAt" ->
                    snd kc' = snd kc))
       (data built) (data returned)
  /\ (forallb (fun c => ascii_name (shown c)) (columns built) = true ->
      columns returned = map (fun c => standardize_name (shown c)) (columns built))
  /\ ((exists r, In r all_records /\ r <> []) ->
      n_rows built = List.length all_records
      /\ NoDup (columns built)
      /\ (forall key, In key (columns built)
                      <-> exists r, In r all_records /\ In key (keys r))
      /\ (forall key, In key (columns built) ->
                      getitem key built
                      = Some (Objects (infer_dtype lib
                                         (map (dict_get key) all_records))))).
Proof.
  intros built returned shown. split; [apply n_rows_to_frame|].
  assert (Hcolumns : Forall2 (fun kc kc' =>
                        (ascii_name (shown (fst kc)) = true ->
                         fst kc' = standardize_name (shown (fst kc)))
                        /\ (fst kc <> u "_createdAt" -> fst kc <> u "_updatedAt" ->
                            snd kc' = snd kc))
                       (data built) (data returned)).
  { eapply Forall2_impl;
      [|exact (to_frame_data lib rename_columns table_columns all_records)].
    intros kc kc' [Hlabel Hvalue]. split; [|exact Hvalue].
    intros _. rewrite Hlabel. unfold returned_label, shown.
    destruct rename_columns; [|reflexivity].
    now rewrite renamed_column_mapping. }
  split; [exact Hcolumns|]. split.
  - intros Hascii. unfold columns in *. rewrite map_map.
    apply (Forall2_map_eq _ _ _ (fun kc => ascii_name (shown (fst kc)))
             (fun kc => standardize_name (shown (fst kc))) fst).
    + eapply Forall2_impl; [|exact Hcolumns]. intros kc kc' [Hl _]. exact Hl.
    + rewrite forallb_forall in *. intros kc Hin. apply Hascii.
      now apply in_map.
  - intros Hfield.
    assert (Hempty : empty (DataFrame_of_records lib all_records) = false).
    { unfold empty, DataFrame_of_records; cbn [n_rows data]. rewrite length_map.
      apply orb_false_iff. split; apply Nat.eqb_neq.
      - destruct Hfield as [r [Hin _]]. now destruct all_records.
      - pose proof (all_keys_nonempty all_records Hfield).
        now destruct (all_keys all_records). }
    assert (Hbuilt : built = DataFrame_of_records lib all_records).
    { unfold built, build_frame. now rewrite Hempty. }
    assert (Hkeys : columns built = all_keys all_records).
    { rewrite Hbuilt. unfold columns, DataFrame_of_records. cbn [data].
      rewrite map_map. apply map_id. }
    destruct (all_keys_spec all_records) as [Hno Hin].
    split; [now apply n_rows_build_frame|]. rewrite Hkeys.
    split; [exact Hno|]. split; [exact Hin|].
    intros key Hkey. rewrite Hbuilt. unfold DataFrame_of_records.
    exact (getitem_map
             (fun k => Objects (infer_dtype lib (map (dict_get k) all_records)))
             _ _ key Hno Hkey).
Qed.

(** The frame of one example record: one row, the quantity of the
    record in the column of its key, and the labels returned with the
    renaming. *)
Lemma values_are_handed_through_example :
  let table_columns := TableInfo.columns Sample.orders in
  let built := build_frame Sample.library table_columns [Sample.order 7] in
  let returned := fst (to_frame Sample.library true table_columns [Sample.order 7]) in
  n_rows built = 1%nat
  /\ getitem (u "abcde_qty") built = Some (Objects [Some (Json.Int 8)])
  /\ n_rows returned = 1%nat
  /\ columns returned = [u "ID"; u "Order_Qty"; u "Created_At"; u "Updated_At"].
Proof.
  intros table_columns built returned.
  destruct (values_are_handed_through Sample.library true table_columns
              [Sample.order 7])
    as (Hsame & _ & Hlabels & Hbuilt).
  destruct Hbuilt as (Hrows & _ & Hin & Hget).
  { exists (Sample.order 7). split; [now left|discriminate]. }
  split; [exact Hrows|]. split.
  { apply (Hget (u "abcde_qty")). apply Hin.
    exists (Sample.order 7). split; [now left|]. right. now left. }
  split.
  { unfold returned. rewrite Hsame. exact Hrows. }
  unfold returned. rewrite Hlabels; reflexivity.
Defined.

(** ** The labels returned *)

(** X9.  No label of a frame returned holds a space, whatever the names
    of the fields, the labels of the metadata and the rename option. *)
Theorem returned_labels_have_no_space
    (lib : Library) (rename_columns : bool) (table_columns : list ColumnSpec.t)
    (all_records : list record) (label : pystr) :
  In label (columns (fst (to_frame lib rename_columns table_columns all_records))) ->
  ~ In space label.
Proof.
  unfold to_frame.
  destruct (convert_timezones lib (build_frame lib table_columns all_records)) as [df printed].
  cbn [fst]. rewrite columns_standardize, standardize_names_map.
  intros Hin Hspace. apply in_map_iff in Hin as (name & <- & _).
  unfold standardize_name, replace in Hspace.
  apply in_map_iff in Hspace as (c & Hc & _).
  destruct (N.eqb_spec c space); [discriminate|contradiction].
Qed.

(** The label returned for the field [order qty] of the example table. *)
Lemma returned_labels_have_no_space_example :
  ~ In space (u "Order_Qty").
Proof.
  apply (returned_labels_have_no_space Sample.library true
           (TableInfo.columns Sample.orders) [Sample.order 0]).
  right; left. reflexivity.
Defined.

(** X10.  Among names made of Basic Latin characters, the only one the
    normalisation turns into ["ID"] is ["ID"] itself: every other name goes
    through [str.title], which writes no upper-case letter after a letter,
    so [id], [Id] and [iD] all come out as [Id]. *)
Theorem only_ID_becomes_ID (name : pystr) :
  ascii_name name = true ->
  (standardize_name name = u "ID" <-> name = u "ID").
Proof.
  intros Hascii. split; [|intros ->; reflexivity].
  intros Hout. destruct (str_eqb_spec name (u "ID")) as [Heq|Hne]; [exact Heq|].
  exfalso. apply str_eqb_neq in Hne.
  unfold standardize_name in Hout. rewrite Hne in Hout.
  pose proof (title_is_not_ID name Hascii) as Hnot.
  apply str_eqb_neq in Hnot. contradiction.
Qed.

Lemma only_ID_becomes_ID_example :
  standardize_name (u "iD") = u "ID" <-> u "iD" = u "ID".
Proof. apply (only_ID_becomes_ID (u "iD")). reflexivity. Defined.

(** ** Limits that cannot be used *)

Lemma log2_quot_huge (n : Z) :
  2 ^ 1024 * 1000 <= n ->
  1024 <= Float.log2_quot n 1000 /\ 1000 * 2 ^ Float.log2_quot n 1000 <= n.
Proof.
  intros Hn.
  assert (Hpos : 0 < 2 ^ 1024) by (apply Z.pow_pos_nonneg; lia).
  assert (Hn0 : 0 < n) by lia.
  destruct (Z.log2_spec n Hn0) as [Hlo Hhi].
  assert (Hlg : 1033 <= Z.log2 n).
  { apply Z.log2_le_pow2; [exact Hn0|].
    replace (2 ^ 1033) with (2 ^ 1024 * 2 ^ 9) by (rewrite <- Z.pow_add_r; [reflexivity|lia|lia]).
    change (2 ^ 9) with 512. lia. }
  unfold Float.log2_quot. change (Z.log2 1000) with 9.
  set (k := Z.log2 n - 9) in *.
  assert (Hk : 1024 <= k) by (unfold k; lia).
  destruct (Z.leb_spec 0 k) as [_|]; [|lia].
  destruct (Z.leb_spec (1000 * 2 ^ k) n) as [Hreach|Hbelow].
  - split; [exact Hk|exact Hreach].
  - assert (Hk' : k <> 1024) by (intros Heq; rewrite Heq in Hbelow; lia).
    split; [lia|].
    assert (Hsplit : 2 ^ Z.log2 n = 1024 * 2 ^ (k - 1)).
    { replace (Z.log2 n) with (10 + (k - 1)) by (unfold k; lia).
      rewrite Z.pow_add_r by lia. reflexivity. }
    assert (0 < 2 ^ (k - 1)) by (apply Z.pow_pos_nonneg; lia).
    lia.
Qed.

Lemma huge_quotient_overflows (L : Z) :
  2 ^ 1024 * 1000 <= Z.abs L -> Float.true_divide L 1000 = None.
Proof.
  intros HL.
  assert (Hpos : 0 < 2 ^ 1024) by (apply Z.pow_pos_nonneg; lia).
  unfold Float.true_divide.
  destruct (Z.eqb_spec L 0) as [->|_]; [simpl in HL; lia|].
  destruct (log2_quot_huge (Z.abs L) HL) as [He Hlow].
  unfold Float.nearest.
  set (e := Float.log2_quot (Z.abs L) 1000) in *.
  replace (Z.max (e - 52) (-1074)) with (e - 52) by lia.
  destruct (Z.leb_spec 0 (e - 52)) as [_|]; [|lia].
  set (T := 2 ^ (e - 52)).
  assert (HT : 2 ^ 972 <= T) by (apply Z.pow_le_mono_r; lia).
  assert (HA : 0 < 2 ^ 972) by (apply Z.pow_pos_nonneg; lia).
  assert (H1024 : 2 ^ 1024 = 2 ^ 52 * 2 ^ 972)
    by (rewrite <- Z.pow_add_r; [reflexivity|lia|lia]).
  assert (HB : 0 < 2 ^ 52) by reflexivity.
  assert (He' : 2 ^ e = 2 ^ 52 * T).
  { unfold T. rewrite <- Z.pow_add_r by lia. f_equal. lia. }
  set (q := Z.abs L / (1000 * T)).
  assert (Hq : 2 ^ 52 <= q).
  { apply Z.div_le_lower_bound; [lia|]. rewrite He' in Hlow. lia. }
  set (r := Z.abs L mod (1000 * T)).
  set (q' := if (1000 * T <? 2 * r) || ((1000 * T =? 2 * r) && Z.odd q) then q + 1 else q).
  assert (Hq' : 2 ^ 52 <= q') by (unfold q'; destruct (_ || _); lia).
  assert (Hbig : forall m t, 2 ^ 52 <= m -> 2 ^ 972 <= t -> 2 ^ 1024 <= m * t).
  { intros m t Hm Ht. rewrite H1024. apply Z.mul_le_mono_nonneg; lia. }
  destruct (Z.eqb_spec q' (2 ^ 53)) as [_|_];
    unfold Float.overflows; cbn [Float.expo Float.mant].
  - destruct (Z.leb_spec 0 (e - 52 + 1)) as [_|]; [|lia].
    assert (Hle : 2 ^ 1024 <= 2 ^ 52 * 2 ^ (e - 52 + 1)).
    { apply Hbig; [lia|]. apply Z.pow_le_mono_r; lia. }
    apply Z.leb_le in Hle. now rewrite Hle.
  - destruct (Z.leb_spec 0 (e - 52)) as [_|]; [|lia].
    assert (Hle : 2 ^ 1024 <= q' * T) by (apply Hbig; assumption).
    apply Z.leb_le in Hle. fold T. now rewrite Hle.
Qed.

(** X11.  A limit that cannot be used ends the call with an exception
    after the table has been resolved and before any record is asked for:
    the world of the run is the one left by the listing, whatever the
    number of passes allowed.  This is so when the query cannot be read or
    its [limit] is not an integer, with the exception of the library, and
    when the limit is [2^1024 * 1000] or more in absolute value, where
    [max_limit / 1000] is too large for a float and raises [OverflowError]. *)
Theorem unusable_limit_raises
    lib fuel w instance authorization table_id table_name rename_columns query
    hdrs info w1 :
  resolve_table w instance authorization table_id table_name
  = inr (hdrs, info, w1) ->
  let url := records_url instance (TableInfo.id info) query in
  (forall e, max_limit_of lib url = inl e ->
     import_tulip_table lib fuel w instance authorization table_id table_name
       rename_columns query = Some (mkRun (Raise e) w1 []))
  /\ (forall L, max_limit_of lib url = inr L ->
        2 ^ 1024 * 1000 <= Z.abs L ->
        import_tulip_table lib fuel w instance authorization table_id table_name
          rename_columns query = Some (mkRun (Raise OverflowError) w1 [])).
Proof.
  intros Hres url. unfold import_tulip_table. rewrite Hres. fold url. split.
  - intros e ->. reflexivity.
  - intros L -> HL. unfold fetch_records, max_iterations_of.
    assert (L <> 0).
    { intros ->. assert (0 < 2 ^ 1024) by (apply Z.pow_pos_nonneg; lia).
      simpl in HL. lia. }
    destruct (Z.eqb_spec L 0); [contradiction|]. cbn [negb].
    now rewrite (huge_quotient_overflows L HL).
Qed.

(** The query [?limit=soon] on the example table: [int] raises once the
    listing has been asked for. *)
Lemma unusable_limit_raises_example :
  let w := Sample.serving 200 [Sample.orders] (Sample.paged 0 3 2) in
  let hdrs := make_headers (u "Basic dG9rZW4=") in
  let w1 := mkWorld (listing w) (pages w)
              [mkRequest (tables_url (Some (u "acme.tulip.co"))) hdrs []] in
  import_tulip_table Sample.library 0 w (Some (u "acme.tulip.co"))
    (Some (u "token")) (Some (u "T1")) None true (u "?limit=soon")
  = Some (mkRun (Raise IntError) w1 []).
Proof.
  intros w hdrs w1.
  apply (proj1 (unusable_limit_raises Sample.library 0 w (Some (u "acme.tulip.co"))
                  (Some (u "token")) (Some (u "T1")) None true (u "?limit=soon")
                  hdrs Sample.orders w1 eq_refl)).
  reflexivity.
Defined.

(** ** The two timestamp columns together *)

(** X12.  The two timestamp columns are handled one by one, and what
    happens to [_createdAt] does not bear on [_updatedAt].  When
    [_updatedAt] is there and is read as date-times, the column read back
    under [_updatedAt] after the loop is in the zone America/Montreal with
    its instants kept.  When [_createdAt] is read as date-times too, it is
    read back in America/Montreal as well and nothing is printed; when it
    is not there or cannot be read, it is as it was, and the one line for
    it is printed.  The columns under other labels are as they were. *)
Theorem updated_is_converted_whatever_created
    (lib : Library) (df : DataFrame) updated zone instants :
  getitem (u "_updatedAt") df = Some updated ->
  to_datetime lib updated = Some (Datetimes zone instants) ->
  let after := convert_timezones lib df in
  getitem (u "_updatedAt") (fst after)
  = Some (Datetimes (Some (u "America/Montreal")) instants)
  /\ (forall created zone' instants',
        getitem (u "_createdAt") df = Some created ->
        to_datetime lib created = Some (Datetimes zone' instants') ->
        getitem (u "_createdAt") (fst after)
        = Some (Datetimes (Some (u "America/Montreal")) instants')
        /\ snd after = [])
  /\ (getitem (u "_createdAt") df = None
      \/ (exists created, getitem (u "_createdAt") df = Some created
                          /\ to_datetime lib created = None) ->
      getitem (u "_createdAt") (fst after) = getitem (u "_createdAt") df
      /\ snd after = [u "Column _createdAt does not Exist"])
  /\ (forall key, key <> u "_createdAt" -> key <> u "_updatedAt" ->
                  getitem key (fst after) = getitem key df).
Proof.
  intros Hget Hparse after.
  change (u "_createdAt") with createdAt in *.
  change (u "_updatedAt") with updatedAt in *.
  change (u "America/Montreal") with Montreal.
  assert (Hafter : after = convert_timezone lib updatedAt
                             (convert_timezone lib createdAt (df, [])))
    by reflexivity.
  assert (Hget1 : getitem updatedAt (fst (convert_timezone lib createdAt (df, [])))
                  = Some updated).
  { rewrite convert_timezone_other; [exact Hget|discriminate]. }
  assert (Hother1 : getitem createdAt (fst after)
                    = getitem createdAt (fst (convert_timezone lib createdAt (df, [])))).
  { rewrite Hafter.
    destruct (convert_timezone lib createdAt (df, [])) as [df1 out1].
    apply convert_timezone_other. discriminate. }
  assert (Hpass2 : after
                   = (setitem updatedAt (Datetimes (Some Montreal) instants)
                        (fst (convert_timezone lib createdAt (df, []))),
                      snd (convert_timezone lib createdAt (df, [])))).
  { rewrite Hafter.
    destruct (convert_timezone lib createdAt (df, [])) as [df1 out1]. cbn [fst snd] in *.
    exact (convert_timezone_parsed lib updatedAt df1 out1 updated zone instants
             Hget1 Hparse). }
  split; [|split; [|split]].
  - rewrite Hpass2. cbn [fst].
    exact (getitem_setitem_same updatedAt _ updated _ Hget1).
  - intros created zone' instants' Hget' Hparse'. rewrite Hother1, Hpass2. cbn [snd].
    rewrite (convert_timezone_parsed lib createdAt df [] created zone' instants'
               Hget' Hparse').
    cbn [fst snd]. split; [|reflexivity].
    exact (getitem_setitem_same createdAt _ created df Hget').
  - intros Hskip. rewrite Hother1, Hpass2. cbn [snd].
    rewrite (convert_timezone_skipped lib createdAt df [] Hskip).
    split; reflexivity.
  - intros key Hc Hu. rewrite Hafter.
    destruct (convert_timezone lib createdAt (df, [])) as [df1 out1] eqn:Hpass1.
    rewrite convert_timezone_other by exact Hu.
    change df1 with (fst (df1, out1)). rewrite <- Hpass1.
    now apply convert_timezone_other.
Qed.

(** A frame with [_updatedAt] only. *)
Lemma updated_is_converted_whatever_created_example :
  let df := DataFrame_of_records Sample.library
              [[(u "_updatedAt", Json.Int 1700000000000000000)]] in
  let after := convert_timezones Sample.library df in
  getitem (u "_updatedAt") df = Some (Objects [Some (Json.Int 1700000000000000000)])
  /\ getitem (u "_updatedAt") (fst after)
     = Some (Datetimes (Some (u "America/Montreal")) [Some 1700000000000000000])
  /\ getitem (u "_createdAt") (fst after) = None
  /\ snd after = [u "Column _createdAt does not Exist"].
Proof.
  intros df after.
  destruct (updated_is_converted_whatever_created Sample.library df
              (Objects [Some (Json.Int 1700000000000000000)]) None
              [Some 1700000000000000000] eq_refl eq_refl)
    as (Hupdated & _ & Hskipped & _).
  destruct (Hskipped (or_introl eq_refl)) as [Hcreated Hline].
  split; [reflexivity|]. split; [exact Hupdated|].
  split; [exact Hcreated|exact Hline].
Defined.

(** ** The cap as a float *)

(** X13.  The cap [max_limit / 1000] is a float, and for every limit
    [0 < L < 2^44 * 1000] it orders against the count of passes as the
    exact quotient does: the pass [i] reaches the cap exactly when
    [1000 * i >= L].  The bound cannot be raised: for
    [L = 2^44 * 1000 + 1] the quotient rounds to [2^44], and the pass
    [2^44] reaches the cap although [1000 * 2^44 < L]. *)
Theorem cap_is_the_exact_quotient (L : Z) :
  0 < L < 2 ^ 44 * 1000 ->
  (exists x, max_iterations_of L = Some (PyFloat x)
             /\ forall i, int_ge i (PyFloat x) = (L <=? 1000 * i))
  /\ (exists x, max_iterations_of (2 ^ 44 * 1000 + 1) = Some (PyFloat x)
                /\ int_ge (2 ^ 44) (PyFloat x) = true
                /\ 1000 * 2 ^ 44 < 2 ^ 44 * 1000 + 1).
Proof.
  intros HL. split; [exact (max_iterations_quotient L HL)|].
  eexists. split; [reflexivity|]. split; reflexivity.
Qed.

Lemma cap_is_the_exact_quotient_example :
  exists x, max_iterations_of 2500 = Some (PyFloat x)
            /\ int_ge 2 (PyFloat x) = false /\ int_ge 3 (PyFloat x) = true.
Proof.
  destruct (proj1 (cap_is_the_exact_quotient 2500 ltac:(lia))) as (x & Hx & Hge).
  exists x. split; [exact Hx|]. split; rewrite Hge; reflexivity.
Defined.

(** ** What a call prints *)

Lemma resolve_table_quiet w instance authorization table_id table_name run :
  resolve_table w instance authorization table_id table_name = inl run ->
  (forall df, result run <> Return (Frame df)) /\ stdout run = [].
Proof.
  unfold resolve_table.
  destruct ((is_None table_name && is_None table_id)
            || (negb (is_None table_name) && negb (is_None table_id)));
    [intros [= <-]; split; [discriminate|reflexivity]|].
  destruct (encode_token authorization);
    [intros [= <-]; split; [discriminate|reflexivity]|].
  cbn [get_tables].
  destruct (negb (status_code (listing w) =? 200));
    [intros [= <-]; split; [discriminate|reflexivity]|].
  destruct (find (matches table_id table_name) (json (listing w)));
    [discriminate|intros [= <-]; split; [discriminate|reflexivity]].
Qed.

Lemma getitem_In (key : pystr) (df : DataFrame) (col : Column) :
  getitem key df = Some col -> exists k, In (k, col) (data df).
Proof.
  unfold getitem.
  destruct (filter (fun kc : pystr * Column => str_eqb (fst kc) key) (data df))
    as [|[k c] [|kc l]] eqn:Hfilter; try discriminate.
  intros [= <-]. exists k.
  apply (proj1 (filter_In (fun kc : pystr * Column => str_eqb (fst kc) key)
                  (k, c) (data df))).
  rewrite Hfilter. now left.
Qed.

Lemma setitem_not_datetime (key : pystr) (cells : list (option Json.t))
    (df : DataFrame) :
  Forall (fun kc => exists cells, snd kc = Objects cells) (data df) ->
  Forall (fun kc => exists cells, snd kc = Objects cells) (data (setitem key (Objects cells) df)).
Proof.
  intros H. unfold setitem. destruct (existsb (str_eqb key) (columns df)); cbn [data].
  - rewrite Forall_map. eapply Forall_impl; [|exact H].
    intros [k c] Hc. cbn [fst]. destruct (str_eqb k key); [now exists cells|exact Hc].
  - apply Forall_app. split; [exact H|]. constructor; [now exists cells|constructor].
Qed.

(** The frame built from the records has no datetime column. *)
Lemma build_frame_not_datetime (lib : Library) (table_columns : list ColumnSpec.t)
    (all_records : list record) :
  Forall (fun kc => exists cells, snd kc = Objects cells) (data (build_frame lib table_columns all_records)).
Proof.
  unfold build_frame.
  destruct (empty (DataFrame_of_records lib all_records)).
  - unfold setitem_None. do 3 apply setitem_not_datetime.
    unfold DataFrame_of_columns. cbn [data]. rewrite Forall_map.
    apply Forall_forall. intros k _. now exists [].
  - unfold DataFrame_of_records. cbn [data]. rewrite Forall_map.
    apply Forall_forall. intros k _. eexists. reflexivity.
Qed.

(** After a pass over a column that was no datetime column, the column is
    in America/Montreal exactly when it could be converted. *)
Lemma convert_timezone_zoned (lib : Library) (utc_col : pystr) (df : DataFrame)
    (printed : list pystr) :
  (forall col, getitem utc_col df = Some col -> exists cells, col = Objects cells) ->
  convertible lib utc_col df = true
  <-> exists instants,
        getitem utc_col (fst (convert_timezone lib utc_col (df, printed)))
        = Some (Datetimes (Some (u "America/Montreal")) instants).
Proof.
  intros Hplain. unfold convertible.
  destruct (getitem utc_col df) as [col|] eqn:Hget.
  - destruct (to_datetime lib col) as [[cells|zone instants]|] eqn:Hparse.
    + rewrite (convert_timezone_unconverted lib utc_col df printed col cells Hget Hparse).
      cbn [fst]. rewrite (getitem_setitem_same utc_col _ col df Hget).
      split; [discriminate|intros [instants H]; discriminate].
    + rewrite (convert_timezone_parsed lib utc_col df printed col zone instants
                 Hget Hparse).
      cbn [fst]. rewrite (getitem_setitem_same utc_col _ col df Hget).
      split; [intros _; now exists instants|reflexivity].
    + rewrite convert_timezone_skipped by (right; now exists col).
      cbn [fst]. rewrite Hget. destruct (Hplain col eq_refl) as [cells ->].
      split; [discriminate|intros [instants H]; discriminate].
  - rewrite convert_timezone_skipped by now left.
    cbn [fst]. rewrite Hget. split; [discriminate|intros [instants H]; discriminate].
Qed.

(** X15.  What a call prints.  A call that raises or returns a message
    prints nothing.  A call that reaches the loop returns a frame and
    prints at most three lines: first [Error:] with the status of the
    record request that ended the loop, if that request failed; then
    [Column _createdAt does not Exist] if that column of the frame built
    from the records could not be converted, and likewise for
    [_updatedAt].  A column could be converted exactly when, after the
    timestamp loop, it is a datetime column in the zone America/Montreal. *)
Theorem lines_of_a_call
    lib fuel w instance authorization table_id table_name rename_columns query :
  (forall run,
      import_tulip_table lib fuel w instance authorization table_id table_name
        rename_columns query = Some run ->
      (forall df, result run <> Return (Frame df)) ->
      stdout run = [])
  /\ (forall hdrs info w1 max_limit cap n,
        resolve_table w instance authorization table_id table_name
        = inr (hdrs, info, w1) ->
        max_limit_of lib (records_url instance (TableInfo.id info) query)
        = inr max_limit ->
        max_iterations_of max_limit = Some cap ->
        (forall i, (i < n)%nat ->
                   goes_on (default_limit_of max_limit) cap (Z.of_nat i + 1)
                     (pages w1 i)) ->
        status_code (pages w1 n) <> 200
        \/ Z.of_nat (List.length (json (pages w1 n))) < default_limit_of max_limit
        \/ int_ge (Z.of_nat n + 1) cap = true ->
        let status := status_code (pages w1 n) in
        let received := if status =? 200 then first_pages (S n) w1
                        else first_pages n w1 in
        let built := build_frame lib (TableInfo.columns info) received in
        let zoned := fst (convert_timezones lib built) in
        exists run df,
          import_tulip_table lib (S n + fuel) w instance authorization table_id
            table_name rename_columns query = Some run
          /\ result run = Return (Frame df)
          /\ stdout run
             = (if status =? 200 then [] else [u "Error: " ++ str_of_int status])
               ++ (if convertible lib (u "_createdAt") built then []
                   else [u "Column _createdAt does not Exist"])
               ++ (if convertible lib (u "_updatedAt") built then []
                   else [u "Column _updatedAt does not Exist"])
          /\ (convertible lib (u "_createdAt") built = true
              <-> exists instants,
                    getitem (u "_createdAt") zoned
                    = Some (Datetimes (Some (u "America/Montreal")) instants))
          /\ (convertible lib (u "_updatedAt") built = true
              <-> exists instants,
                    getitem (u "_updatedAt") zoned
                    = Some (Datetimes (Some (u "America/Montreal")) instants))).
Proof.
  split.
  - intros run. unfold import_tulip_table.
    destruct (resolve_table w instance authorization table_id table_name)
      as [run'|[[hdrs info] w1]] eqn:Hres.
    + intros [= <-] _.
      now apply (resolve_table_quiet w instance authorization table_id table_name).
    + destruct (max_limit_of lib _) as [e|max_limit]; [now intros [= <-]|].
      destruct (fetch_records fuel _ _ max_limit _) as [[e|[[recs w2] printed]]|];
        [now intros [= <-]| |discriminate].
      destruct (to_frame lib rename_columns _ recs) as [df printed'].
      intros [= <-] Hno. now destruct (Hno df).
  - intros hdrs info w1 max_limit cap n Hres Hlim Hcap Hgo Hstop
      status received built zoned.
    pose proof (import_tulip_table_at lib fuel w instance authorization table_id
                  table_name rename_columns query hdrs info w1 max_limit cap n
                  Hres Hlim Hcap Hgo Hstop) as Hcall.
    cbv zeta in Hcall. fold status received in Hcall.
    change (u "_createdAt") with createdAt.
    change (u "_updatedAt") with updatedAt.
    assert (Hplain : forall c col, getitem c built = Some col ->
                                   exists cells, col = Objects cells).
    { intros c col Hget. apply getitem_In in Hget as [k Hin].
      pose proof (build_frame_not_datetime lib (TableInfo.columns info) received)
        as Hall.
      rewrite Forall_forall in Hall. exact (Hall _ Hin). }
    assert (Hzoned : zoned = fst (convert_timezone lib updatedAt
                                    (convert_timezone lib createdAt (built, []))))
      by reflexivity.
    assert (Hupdated : getitem updatedAt
                         (fst (convert_timezone lib createdAt (built, [])))
                       = getitem updatedAt built).
    { apply convert_timezone_other. discriminate. }
    assert (Hsame : convertible lib updatedAt
                      (fst (convert_timezone lib createdAt (built, [])))
                    = convertible lib updatedAt built).
    { unfold convertible. now rewrite Hupdated. }
    assert (Hlines : snd (to_frame lib rename_columns (TableInfo.columns info) received)
                     = (if convertible lib createdAt built then []
                        else [missing_line createdAt])
                       ++ (if convertible lib updatedAt built then []
                           else [missing_line updatedAt])).
    { unfold to_frame. fold built. unfold convert_timezones. cbn [fold_left].
      pose proof (convert_timezone_lines lib createdAt built []) as H1.
      destruct (convert_timezone lib createdAt (built, [])) as [df1 out1].
      cbn [fst snd] in *.
      pose proof (convert_timezone_lines lib updatedAt df1 out1) as H2.
      destruct (convert_timezone lib updatedAt (df1, out1)) as [df2 out2].
      cbn [fst snd] in *. now rewrite H2, H1, Hsame. }
    eexists. eexists. split; [exact Hcall|]. split; [reflexivity|].
    cbn [stdout]. split; [now rewrite Hlines|]. split.
    + rewrite (convert_timezone_zoned lib createdAt built [] (Hplain createdAt)).
      rewrite Hzoned.
      destruct (convert_timezone lib createdAt (built, [])) as [df1 out1].
      rewrite convert_timezone_other by discriminate. reflexivity.
    + rewrite <- Hsame. rewrite Hzoned.
      destruct (convert_timezone lib createdAt (built, [])) as [df1 out1].
      cbn [fst] in *.
      apply (convert_timezone_zoned lib updatedAt df1 out1).
      intros col Hcol. apply (Hplain updatedAt). now rewrite <- Hupdated.
Qed.

(** A call for the example table on a world that answers the first
    record request with a full page of records without timestamps and the
    second with status 500: the three lines. *)
Lemma lines_of_a_call_example :
  let answer i :=
    if (i =? 0)%nat
    then mkResponse 200 (repeat [(u "id", Json.Str (u "a"))] 1000)
    else mkResponse 500 [] in
  exists run,
    import_tulip_table Sample.library 2 (Sample.serving 200 [Sample.orders] answer)
      (Some (u "acme.tulip.co")) (Some (u "token")) (Some (u "T1")) None true []
    = Some run
    /\ stdout run = [ u "Error: 500";
                      u "Column _createdAt does not Exist";
                      u "Column _updatedAt does not Exist" ].
Proof.
  intros answer.
  destruct (proj2 (lines_of_a_call Sample.library 0
                     (Sample.serving 200 [Sample.orders] answer)
                     (Some (u "acme.tulip.co")) (Some (u "token")) (Some (u "T1"))
                     None true [])
              _ _ _ 0 (PyInt 99999999) 1%nat eq_refl eq_refl eq_refl)
    as (run & df & Hcall & _ & Hlines & _).
  - intros i Hi. assert (i = 0%nat) as -> by lia.
    split; [reflexivity|]. split; [|reflexivity]. vm_compute. discriminate.
  - left. vm_compute. discriminate.
  - exists run. split; [exact Hcall|]. rewrite Hlines. vm_compute. reflexivity.
Defined.
